(** * ETL-pipe: a shallow embedding of the synchronisation engine

    The development follows the Python sources file by file:
    - [transform.py]: tolerant coercions, payload flattening, row shaping;
    - [db.py], [load.py]: the batch writer and the three write policies;
    - [extract.py]: the watermark store ([get_watermark], [update_watermark]);
    - [pipeline.py]: [run_cycle], one guarded unit per entity type;
    - [scheduler.py]: the poll loop of [main].

    Python values are an inductive type, exceptions are an error monad, the
    target database and the clock are threaded explicitly as a state. *)

From Stdlib Require Import ZArith String Ascii List Lia Bool.
From Stdlib Require Import Floats.SpecFloat.
From stdpp Require Import gmap strings list pretty.

Set Warnings "-register-all".
Open Scope string_scope.
Open Scope Z_scope.

(** ** Exceptions and the error monad *)

(** The exception classes the modelled code can meet.  [KeyboardInterrupt]
    and [SystemExit] derive from [BaseException] only, so a handler written
    [except Exception] lets them through. *)
Inductive exn : Type :=
  | KeyError (key : string)
  | ValueError
  | TypeError
  | OverflowError
  | DatabaseError (what : string)
  | KeyboardInterrupt
  | SystemExit (code : Z).

Definition is_Exception (e : exn) : bool :=
  match e with
  | KeyboardInterrupt | SystemExit _ => false
  | _ => true
  end.

Inductive result (A : Type) : Type :=
  | Ok (a : A)
  | Raise (e : exn).
Arguments Ok {A} a.
Arguments Raise {A} e.

Definition bind {A B : Type} (m : result A) (k : A -> result B) : result B :=
  match m with
  | Ok a => k a
  | Raise e => Raise e
  end.

Declare Scope py_scope.
Delimit Scope py_scope with py.
Notation "x <- m ;; k" := (bind m (fun x => k))
  (at level 100, m at next level, right associativity) : py_scope.
Open Scope py_scope.

Definition returns {A : Type} (m : result A) : Prop := exists a, m = Ok a.

(** ** Python values *)

(** A string is a sequence of code points below 256.  IEEE doubles are
    [spec_float] with precision 53 and maximal exponent 1024.  [VOpaque]
    stands for an object of the database driver that the code only hands
    on (a [datetime], a [UUID]), carrying the text [str] gives it: it is
    true, and neither [float] nor [int] converts it. *)
Inductive pyval : Type :=
  | VNone
  | VBool (b : bool)
  | VInt (z : Z)
  | VFloat (f : spec_float)
  | VStr (s : string)
  | VList (l : list pyval)
  | VDict (d : list (string * pyval))
  | VOpaque (s : string).

(** A Python [dict] with string keys, in insertion order. *)
Abbreviation pydict := (list (string * pyval)).

Fixpoint dict_get (d : pydict) (k : string) : option pyval :=
  match d with
  | [] => None
  | (k', v) :: d' => if String.eqb k' k then Some v else dict_get d' k
  end.

(** [d[k]]: raises [KeyError] on a missing key. *)
Definition getitem (d : pydict) (k : string) : result pyval :=
  match dict_get d k with
  | Some v => Ok v
  | None => Raise (KeyError k)
  end.

(** [d.get(k)]: [None] on a missing key. *)
Definition get (d : pydict) (k : string) : pyval :=
  match dict_get d k with
  | Some v => v
  | None => VNone
  end.

Definition float_is_zero (f : spec_float) : bool :=
  match f with
  | S754_zero _ => true
  | _ => false
  end.

(** Truth value testing, as [if x] and [bool(x)] do it. *)
Definition truthy (v : pyval) : bool :=
  match v with
  | VNone => false
  | VBool b => b
  | VInt z => negb (z =? 0)
  | VFloat f => negb (float_is_zero f)
  | VStr s => negb (String.eqb s "")
  | VList l => match l with [] => false | _ => true end
  | VDict d => match d with [] => false | _ => true end
  | VOpaque _ => true
  end.

Definition is_none (v : pyval) : bool :=
  match v with
  | VNone => true
  | _ => false
  end.

(** ** The builtins the code calls *)

(** The text-facing builtins are an interface: [float(s)] and [int(s)] on a
    string either give a number or raise [ValueError] (here [None]);
    [repr] of a float and of a container give text; [json.loads] gives a
    value or raises. *)
Class PyBuiltins : Type := {
  float_of_str : string -> option spec_float;
  int_of_str : string -> option Z;
  float_repr : spec_float -> string;
  container_repr : pyval -> string;
  json_loads : string -> option pyval
}.

Definition float_of_Z (z : Z) : spec_float := binary_normalize 53 1024 z 0 false.

(** Truncation toward zero of a finite double. *)
Definition Z_of_finite (s : bool) (m : positive) (e : Z) : Z :=
  let mag := if 0 <=? e then Z.pos m * 2 ^ e else Z.pos m / 2 ^ (- e) in
  if s then - mag else mag.

Section Builtins.
Context `{PyBuiltins}.

(** [float(val)]. *)
Definition py_float (v : pyval) : result spec_float :=
  match v with
  | VFloat f => Ok f
  | VBool b => Ok (float_of_Z (if b then 1 else 0))
  | VInt z =>
      match float_of_Z z with
      | S754_infinity _ => Raise OverflowError
      | f => Ok f
      end
  | VStr s =>
      match float_of_str s with
      | Some f => Ok f
      | None => Raise ValueError
      end
  | VNone | VList _ | VDict _ | VOpaque _ => Raise TypeError
  end.

(** [int(val)]. *)
Definition py_int (v : pyval) : result Z :=
  match v with
  | VInt z => Ok z
  | VBool b => Ok (if b then 1 else 0)
  | VFloat f =>
      match f with
      | S754_zero _ => Ok 0
      | S754_finite s m e => Ok (Z_of_finite s m e)
      | S754_infinity _ => Raise OverflowError
      | S754_nan => Raise ValueError
      end
  | VStr s =>
      match int_of_str s with
      | Some z => Ok z
      | None => Raise ValueError
      end
  | VNone | VList _ | VDict _ | VOpaque _ => Raise TypeError
  end.

(** [str(val)]. *)
Definition py_str (v : pyval) : string :=
  match v with
  | VNone => "None"
  | VBool true => "True"
  | VBool false => "False"
  | VInt z => pretty z
  | VFloat f => float_repr f
  | VStr s => s
  | VOpaque s => s
  | VList _ | VDict _ => container_repr v
  end.
End Builtins.

(** ** String helpers *)

Definition lower_ascii (c : ascii) : ascii :=
  let n := nat_of_ascii c in
  if (Nat.leb 65 n && Nat.leb n 90)%bool then ascii_of_nat (n + 32) else c.

(** [s.lower()] on the ASCII letters. *)
Fixpoint lower (s : string) : string :=
  match s with
  | EmptyString => EmptyString
  | String c s' => String (lower_ascii c) (lower s')
  end.

Definition str_in (s : string) (l : list string) : bool :=
  existsb (String.eqb s) l.

(** ** transform.py: tolerant coercions *)

(** [try: m except (ValueError, TypeError): return None]. *)
Definition value_or_type_error (e : exn) : bool :=
  match e with
  | ValueError | TypeError => true
  | _ => false
  end.

Definition safe_get (data : pyval) (key : string) : pyval :=
  match data with
  | VDict d => get d key
  | _ => VNone
  end.

Definition safe_bool (val : pyval) : pyval :=
  match val with
  | VNone => VNone
  | VBool b => VBool b
  | VStr s => VBool (str_in (lower s) ["true"; "1"; "yes"])
  | _ => VBool (truthy val)
  end.

Section Coercions.
Context `{PyBuiltins}.

Definition safe_numeric (val : pyval) : result pyval :=
  if is_none val then Ok VNone
  else
    match py_float val with
    | Ok f => Ok (VFloat f)
    | Raise e => if value_or_type_error e then Ok VNone else Raise e
    end.

Definition safe_int (val : pyval) : result pyval :=
  if is_none val then Ok VNone
  else
    match py_int val with
    | Ok z => Ok (VInt z)
    | Raise e => if value_or_type_error e then Ok VNone else Raise e
    end.
End Coercions.

(** ** json.dumps(obj, default=str) *)

Definition hex_digit (n : nat) : ascii :=
  ascii_of_nat (if Nat.ltb n 10 then 48 + n else 87 + n).

(** The escape [\u00XX] of a code point below 256. *)
Definition u_escape (c : ascii) : string :=
  let n := nat_of_ascii c in
  String "\" (String "u" (String "0" (String "0"
    (String (hex_digit (Nat.div n 16)) (String (hex_digit (Nat.modulo n 16)) EmptyString))))).

(** One character under [ensure_ascii]: the short escapes, then every
    character outside the printable ASCII range as a [\u] escape. *)
Definition json_escape_char (c : ascii) : string :=
  let n := nat_of_ascii c in
  if Nat.eqb n 34 then String "\" (String c EmptyString)
  else if Nat.eqb n 92 then String "\" (String "\" EmptyString)
  else if Nat.eqb n 8 then String "\" (String "b" EmptyString)
  else if Nat.eqb n 12 then String "\" (String "f" EmptyString)
  else if Nat.eqb n 10 then String "\" (String "n" EmptyString)
  else if Nat.eqb n 13 then String "\" (String "r" EmptyString)
  else if Nat.eqb n 9 then String "\" (String "t" EmptyString)
  else if (Nat.leb 32 n && Nat.leb n 126)%bool then String c EmptyString
  else u_escape c.

Fixpoint json_escape (s : string) : string :=
  match s with
  | EmptyString => EmptyString
  | String c s' => json_escape_char c +:+ json_escape s'
  end.

Definition dquote : string := String (ascii_of_nat 34) EmptyString.

Definition json_quote (s : string) : string :=
  dquote +:+ json_escape s +:+ dquote.

(** [", ".join(parts)]. *)
Fixpoint join (sep : string) (parts : list string) : string :=
  match parts with
  | [] => ""
  | [p] => p
  | p :: rest => p +:+ sep +:+ join sep rest
  end.

Section JsonDumps.
Context `{PyBuiltins}.

Definition json_float (f : spec_float) : string :=
  match f with
  | S754_nan => "NaN"
  | S754_infinity false => "Infinity"
  | S754_infinity true => "-Infinity"
  | _ => float_repr f
  end.

(** An object the encoder does not know goes through [default=str] and
    is written as a JSON string. *)
Fixpoint json_dumps (v : pyval) : string :=
  match v with
  | VNone => "null"
  | VBool true => "true"
  | VBool false => "false"
  | VInt z => pretty z
  | VFloat f => json_float f
  | VStr s => json_quote s
  | VOpaque s => json_quote s
  | VList l => "[" +:+ join ", " (map json_dumps l) +:+ "]"
  | VDict d =>
      "{" +:+ join ", " (map (fun kv => json_quote (fst kv) +:+ ": " +:+ json_dumps (snd kv)) d)
          +:+ "}"
  end.

(** One [key: value] member as it stands in the text of an object. *)
Definition json_member (k : string) (v : pyval) : string :=
  json_quote k +:+ ": " +:+ json_dumps v.
End JsonDumps.

(** ** transform.py: flattening *)

Section Flatten.
Context `{PyBuiltins}.

(** The first lines of both flatten functions: a dict is kept, a string is
    parsed (any failure gives the empty dict), anything else is replaced
    by the empty dict. *)
Definition as_payload (data : pyval) : pyval :=
  match data with
  | VDict d => VDict d
  | VStr s =>
      match json_loads s with
      | Some v => v
      | None => VDict []
      end
  | _ => VDict []
  end.

Definition full_text (data : pyval) : pyval :=
  if truthy data then VStr (json_dumps data) else VNone.

Definition flatten_input_data (input_data : pyval) : result pydict :=
  let input_data := as_payload input_data in
  inp_value <- safe_numeric (safe_get input_data "value") ;;
  inp_start_year <- safe_int (safe_get input_data "start_year") ;;
  inp_end_year <- safe_int (safe_get input_data "end_year") ;;
  Ok [ ("inp_value", inp_value);
       ("inp_unit", safe_get input_data "unit");
       ("inp_start_year", inp_start_year);
       ("inp_end_year", inp_end_year);
       ("inp_input_type", safe_get input_data "input_type");
       ("inp_timeframe", safe_get input_data "timeframe");
       ("inp_dosing_type", safe_get input_data "dosing_type");
       ("inp_actuals_flag", safe_bool (safe_get input_data "actuals_flag"));
       ("inp_curve_type", safe_get input_data "curve_type");
       ("inp_selected_output", safe_get input_data "selected_output");
       ("inp_pfs_flag", safe_bool (safe_get input_data "pfs_flag"));
       ("inp_ppc_flag", safe_bool (safe_get input_data "ppc_flag"));
       ("input_data_full_text", full_text input_data) ].

Definition flatten_event_data (event_data : pyval) : result pydict :=
  let event_data := as_payload event_data in
  evt_year <- safe_int (safe_get event_data "year") ;;
  evt_share_value <- safe_numeric (safe_get event_data "share_value") ;;
  evt_erosion_rate <- safe_numeric (safe_get event_data "erosion_rate") ;;
  evt_steady_state <- safe_numeric (safe_get event_data "steady_state") ;;
  evt_sob_value <- safe_numeric (safe_get event_data "sob_value") ;;
  Ok [ ("evt_year", evt_year);
       ("evt_share_value", evt_share_value);
       ("evt_entry_quarter", safe_get event_data "entry_quarter");
       ("evt_erosion_rate", evt_erosion_rate);
       ("evt_launch_date", safe_get event_data "launch_date");
       ("evt_steady_state", evt_steady_state);
       ("evt_sob_value", evt_sob_value);
       ("event_data_full_text", full_text event_data) ].
End Flatten.

(** ** transform.py: row shaping *)

(** An element of the tuple a transform builds from a row [r]. *)
Inductive field : Type :=
  | Item (k : string)      (* r[k] *)
  | Get (k : string)       (* r.get(k) *)
  | GetOr0 (k : string).   (* r.get(k) or 0 *)

Definition eval_field (r : pydict) (f : field) : result pyval :=
  match f with
  | Item k => getitem r k
  | Get k => Ok (get r k)
  | GetOr0 k => let v := get r k in Ok (if truthy v then v else VInt 0)
  end.

(** The elements of a tuple display are evaluated left to right. *)
Fixpoint tuple_of (fs : list field) (r : pydict) : result (list pyval) :=
  match fs with
  | [] => Ok []
  | f :: fs' =>
      v <- eval_field r f ;;
      vs <- tuple_of fs' r ;;
      Ok (v :: vs)
  end.

(** [for r in rows: result.append(f(r))]: the first row that raises ends
    the loop and the call. *)
Fixpoint for_each {A B : Type} (f : A -> result B) (rows : list A) : result (list B) :=
  match rows with
  | [] => Ok []
  | r :: rows' =>
      t <- f r ;;
      ts <- for_each f rows' ;;
      Ok (t :: ts)
  end.

Definition scenario_fields : list field :=
  [ Item "id"; Item "scenario_display_name"; Item "status"; Item "is_starter";
    Item "currency"; Item "currency_code"; Item "scenario_start_year";
    Item "scenario_end_year"; Get "scenario_region_name"; Get "scenario_country_name";
    Item "created_at"; Item "created_by"; Get "submitted_at"; Get "submitted_by";
    Get "locked_at"; Get "locked_by"; Get "updated_at"; Get "updated_by";
    Get "withdraw_at"; Get "withdraw_by"; Get "delete_at";
    Item "model_id"; Item "model_display_name"; Get "model_type";
    Get "model_publish_level"; Item "therapeutic_area_name"; Item "disease_area_name";
    Get "loe_enabled"; Get "model_region_name"; Get "model_country_name";
    Get "forecast_cycle_name"; Get "forecast_cycle_start"; Get "forecast_cycle_end";
    Get "horizon_start_limit"; Get "horizon_end_limit"; Get "starter_created" ].

Definition transform_scenarios (rows : list pydict) : result (list (list pyval)) :=
  for_each (tuple_of scenario_fields) rows.

Definition run_fields : list field :=
  [ Item "run_id"; Item "scenario_id"; Get "run_status"; Get "run_at"; Get "run_by";
    Get "run_complete_at"; Get "run_duration_minutes"; Get "fail_reason";
    GetOr0 "branch_count"; GetOr0 "total_nodes_processed"; GetOr0 "nodes_success";
    GetOr0 "nodes_failed"; GetOr0 "nodes_timeout" ].

Definition transform_runs (rows : list pydict) : result (list (list pyval)) :=
  for_each (tuple_of run_fields) rows.

Definition node_calc_fields : list field :=
  [ Item "id"; Item "run_id"; Item "scenario_id"; Get "branch_id"; Get "event_tag";
    Get "model_node_id"; Get "node_display_name"; Get "node_type"; Get "calc_status";
    Get "fail_reason"; Get "processing_start_at"; Get "processing_end_at";
    Get "processing_duration_s"; Get "output_data_text" ].

Definition transform_node_calc (rows : list pydict) : result (list (list pyval)) :=
  for_each (tuple_of node_calc_fields) rows.

Definition timeline_fields : list field :=
  [ Item "scenario_id"; Item "event_time"; Item "event_type"; Get "event_category";
    Get "actor"; Get "description"; Get "run_id"; Get "node_name";
    Get "event_type_name"; Get "source_key" ].

Definition transform_timeline (rows : list pydict) : result (list (list pyval)) :=
  for_each (tuple_of timeline_fields) rows.

Section TransformVersioned.
Context `{PyBuiltins}.

(** [str(r["validation_message"]) if r.get("input_validation_message") else None] *)
Definition node_validation_message (r : pydict) : result pyval :=
  if truthy (get r "input_validation_message")
  then v <- getitem r "validation_message" ;; Ok (VStr (py_str v))
  else Ok VNone.

Definition node_data_tuple (r : pydict) : result (list pyval) :=
  input_data <- getitem r "input_data" ;;
  flat <- flatten_input_data input_data ;;
  ended <- getitem r "version_ended_at" ;;
  let is_current := VBool (is_none ended) in
  head <- tuple_of
    [ Item "id"; Item "scenario_id"; Item "model_node_id"; Get "node_display_name";
      Get "node_type"; Get "tab_name"; Get "tab_level"; Get "group_name";
      Get "group_type"; Get "node_seq"; Get "flow"; Item "version_started_at";
      Get "version_ended_at" ] r ;;
  mid <- tuple_of [ Get "edited_by"; Get "input_hash"; Get "input_validated" ] r ;;
  message <- node_validation_message r ;;
  flattened <- tuple_of
    [ Item "inp_value"; Item "inp_unit"; Item "inp_start_year"; Item "inp_end_year";
      Item "inp_input_type"; Item "inp_timeframe"; Item "inp_dosing_type";
      Item "inp_actuals_flag"; Item "inp_curve_type"; Item "inp_selected_output";
      Item "inp_pfs_flag"; Item "inp_ppc_flag"; Item "input_data_full_text" ] flat ;;
  Ok (head ++ [is_current] ++ mid ++ [message; get r "source"] ++ flattened)%list.

Definition transform_node_data (rows : list pydict) : result (list (list pyval)) :=
  for_each node_data_tuple rows.

Definition event_data_tuple (r : pydict) : result (list pyval) :=
  event_data <- getitem r "event_data" ;;
  flat <- flatten_event_data event_data ;;
  ended <- getitem r "version_ended_at" ;;
  let is_current := VBool (is_none ended) in
  head <- tuple_of
    [ Item "id"; Item "scenario_id"; Get "event_type_name"; Get "is_inherent";
      Get "population_node_name"; Get "parent_product_name";
      Item "version_started_at"; Get "version_ended_at" ] r ;;
  mid <- tuple_of
    [ Get "edited_by"; Get "event_data_hash"; Get "is_overridden";
      Get "override_data_text"; Get "is_validated"; Get "validation_message" ] r ;;
  flattened <- tuple_of
    [ Item "evt_year"; Item "evt_share_value"; Item "evt_entry_quarter";
      Item "evt_erosion_rate"; Item "evt_launch_date"; Item "evt_steady_state";
      Item "evt_sob_value"; Item "event_data_full_text" ] flat ;;
  Ok (head ++ [is_current] ++ mid ++ flattened)%list.

Definition transform_event_data (rows : list pydict) : result (list (list pyval)) :=
  for_each event_data_tuple rows.
End TransformVersioned.

(** ** extract.py: the shape of the extracted records *)

(** The column names each extraction query selects, in order: the keys of
    every row the [RealDictCursor] hands to the transform. *)
Definition scenario_columns : list string :=
  [ "id"; "scenario_display_name"; "status"; "is_starter"; "currency"; "currency_code";
    "scenario_start_year"; "scenario_end_year"; "scenario_region_name";
    "scenario_country_name"; "created_at"; "created_by"; "submitted_at"; "submitted_by";
    "locked_at"; "locked_by"; "updated_at"; "updated_by"; "withdraw_at"; "withdraw_by";
    "delete_at"; "model_id"; "model_display_name"; "model_type"; "model_publish_level";
    "therapeutic_area_name"; "disease_area_name"; "loe_enabled"; "model_region_name";
    "model_country_name"; "forecast_cycle_name"; "forecast_cycle_start";
    "forecast_cycle_end"; "horizon_start_limit"; "horizon_end_limit"; "starter_created" ].

Definition node_data_columns : list string :=
  [ "id"; "scenario_id"; "model_node_id"; "input_data"; "input_hash"; "input_validated";
    "input_validation_message"; "source"; "version_started_at"; "version_ended_at";
    "edited_by"; "node_display_name"; "node_type"; "node_seq"; "flow"; "group_name";
    "group_type"; "group_seq"; "tab_name"; "tab_level"; "tab_seq" ].

Definition run_columns : list string :=
  [ "run_id"; "scenario_id"; "run_status"; "run_at"; "run_by"; "run_complete_at";
    "run_duration_minutes"; "fail_reason"; "branch_count"; "total_nodes_processed";
    "nodes_success"; "nodes_failed"; "nodes_timeout" ].

Definition node_calc_columns : list string :=
  [ "id"; "run_id"; "scenario_id"; "branch_id"; "event_tag"; "model_node_id";
    "node_display_name"; "node_type"; "calc_status"; "fail_reason";
    "processing_start_at"; "processing_end_at"; "processing_duration_s";
    "output_data_text" ].

Definition event_data_columns : list string :=
  [ "id"; "scenario_id"; "event_type_name"; "is_inherent"; "population_node_name";
    "parent_product_name"; "version_started_at"; "version_ended_at"; "edited_by";
    "event_data"; "event_data_hash"; "is_overridden"; "override_data_text";
    "is_validated"; "validation_message" ].

Definition timeline_columns : list string :=
  [ "event_time"; "event_type"; "event_category"; "actor"; "description"; "run_id";
    "node_name"; "event_type_name"; "scenario_id"; "source_key" ].

(** A record of a query: a dict whose keys are exactly the selected columns. *)
Definition has_columns (cols : list string) (r : pydict) : Prop :=
  map fst r = cols.

(** ** Equality of values, as the target compares keys *)

Definition float_eqb (f g : spec_float) : bool :=
  match f, g with
  | S754_zero s, S754_zero s' => Bool.eqb s s'
  | S754_infinity s, S754_infinity s' => Bool.eqb s s'
  | S754_nan, S754_nan => true
  | S754_finite s m e, S754_finite s' m' e' =>
      Bool.eqb s s' && Pos.eqb m m' && Z.eqb e e'
  | _, _ => false
  end.

Fixpoint pyval_eqb (a b : pyval) : bool :=
  match a, b with
  | VNone, VNone => true
  | VBool x, VBool y => Bool.eqb x y
  | VInt x, VInt y => Z.eqb x y
  | VFloat x, VFloat y => float_eqb x y
  | VStr x, VStr y => String.eqb x y
  | VOpaque x, VOpaque y => String.eqb x y
  | VList l, VList l' =>
      (fix all2 (l l' : list pyval) : bool :=
         match l, l' with
         | [], [] => true
         | x :: xs, y :: ys => pyval_eqb x y && all2 xs ys
         | _, _ => false
         end) l l'
  | VDict d, VDict d' =>
      (fix all2 (d d' : pydict) : bool :=
         match d, d' with
         | [], [] => true
         | (k, x) :: xs, (k', y) :: ys => String.eqb k k' && pyval_eqb x y && all2 xs ys
         | _, _ => false
         end) d d'
  | _, _ => false
  end.

(** ** config.py *)

(** Timestamps are microseconds since 1970-01-01, the resolution of
    [datetime] and of the target's [TIMESTAMP]. *)
Definition seconds (n : Z) : Z := n * 1000000.

Definition POLL_INTERVAL_SEC : Z := 30.
Definition OVERLAP_SEC : Z := 90.
Definition MAX_BATCH_ROWS : Z := 5000.

Definition INPUT_DATA_KEYS : list string :=
  [ "value"; "unit"; "start_year"; "end_year"; "input_type"; "timeframe"; "dosing_type";
    "actuals_flag"; "curve_type"; "selected_output"; "pfs_flag"; "ppc_flag" ].

Definition EVENT_DATA_KEYS : list string :=
  [ "year"; "share_value"; "entry_quarter"; "erosion_rate"; "launch_date";
    "steady_state"; "sob_value" ].

(** [datetime(2020, 1, 1)]: 18262 days after the Unix epoch. *)
Definition datetime_2020_1_1 : Z := seconds (18262 * 86400).

(** ** The entity types of a cycle *)

Inductive entity : Type :=
  | Scenarios | NodeData | Runs | NodeCalc | EventData | Timeline.

Definition entity_eqb (a b : entity) : bool :=
  match a, b with
  | Scenarios, Scenarios | NodeData, NodeData | Runs, Runs
  | NodeCalc, NodeCalc | EventData, EventData | Timeline, Timeline => true
  | _, _ => false
  end.

(** The [table_name] under which [pipeline.py] reads and commits the
    entity's watermark. *)
Definition watermark_name (e : entity) : string :=
  match e with
  | Scenarios => "public.fc_scenario"
  | NodeData => "public.fc_scenario_node_data"
  | Runs => "public.fc_scenario_run"
  | NodeCalc => "public.fc_scenario_node_calc"
  | EventData => "public.fc_scenario_event_data"
  | Timeline => "timeline"
  end.

(** The label of the unit in the error line of [run_cycle]. *)
Definition unit_label (e : entity) : string :=
  match e with
  | Scenarios => "Scenarios"
  | NodeData => "Node data"
  | Runs => "Runs"
  | NodeCalc => "Node calc"
  | EventData => "Event data"
  | Timeline => "Timeline"
  end.

(** ** The state: clock, target database, effect trace, log *)

(** A row of [etl_watermark] (setup_target.py). *)
Record wm_row : Type := mk_wm {
  last_fetched_at : Z;
  rows_last_run : Z;
  last_run_at : option Z;
  total_rows_ever : Z
}.

(** A target table: its rows, and the last value its [BIGSERIAL] gave. *)
Record table : Type := mk_table {
  trows : list pydict;
  tseq : Z
}.

Inductive event : Type :=
  | TargetConnect (who : string)        (* a connection to the target is taken *)
  | SourceQuery (e : entity)            (* query_source runs the entity's SELECT *)
  | SelectWatermark (name : string)
  | UpdateWatermark (name : string)
  | InsertPage (into : string) (n : nat) (* one INSERT statement of n rows *)
  | TxCommit
  | TxRollback
  | Sleep (sec : Z).

(** The log lines that carry an outcome; the banners at the start of a
    cycle and of the process are left out. *)
Inductive log_record : Type :=
  | InfoExtracted (e : entity) (n : nat)
  | InfoLoaded (into : string) (n : Z)
  | InfoCycleComplete (total : Z)
  | ErrorUnitFailed (label : string) (x : exn)
  | InfoStoppedByUser
  | ErrorCycleFailed (failures : Z) (x : exn)
  | CriticalConsecutiveFailures (threshold : Z).

Record world : Type := mk_world {
  clock : Z;
  etl_watermark : gmap string wm_row;
  tables : gmap string table;
  trace : list event;
  log : list log_record
}.

Definition tick (d : N) (w : world) : world :=
  mk_world (clock w + Z.of_N d) (etl_watermark w) (tables w) (trace w) (log w).

Definition emit (ev : event) (w : world) : world :=
  mk_world (clock w) (etl_watermark w) (tables w) (trace w ++ [ev]) (log w).

Definition logger (r : log_record) (w : world) : world :=
  mk_world (clock w) (etl_watermark w) (tables w) (trace w) (log w ++ [r]).

Definition set_watermark (m : gmap string wm_row) (w : world) : world :=
  mk_world (clock w) m (tables w) (trace w) (log w).

Definition set_table (name : string) (t : table) (w : world) : world :=
  mk_world (clock w) (etl_watermark w) (<[name := t]> (tables w)) (trace w) (log w).

(** ** The surroundings of one cycle *)

(** The points of a unit at which a store can fail. *)
Inductive op : Type :=
  | OpReadWatermark | OpWrite | OpCommit | OpUpdateWatermark.

(** What the two stores and the network do during one cycle: the answer of
    the source to each extraction query, the failures of the target, the
    target's own checks on a proposed row (column types, lengths,
    NOT NULL), and the time every round trip takes in microseconds. *)
Record env : Type := mk_env {
  source : entity -> Z -> result (list pydict);
  fault : entity -> op -> option exn;
  accepts : entity -> list pyval -> bool;
  latency : entity -> N
}.

(** State and exceptions together: an exception leaves the state reached. *)
Definition M (S A : Type) : Type := S -> S * result A.

Definition ret {S A : Type} (a : A) : M S A := fun s => (s, Ok a).

Definition bindM {S A B : Type} (m : M S A) (k : A -> M S B) : M S B :=
  fun s =>
    match m s with
    | (s', Ok a) => k a s'
    | (s', Raise x) => (s', Raise x)
    end.

Notation "x <~ m ;; k" := (bindM m (fun x => k))
  (at level 100, m at next level, right associativity) : py_scope.

(** A pure computation that may raise, run inside [M]. *)
Definition lift {S A : Type} (r : result A) : M S A := fun s => (s, r).

(** ** load.py and setup_target.py: the target tables *)

(** What an INSERT does on a key conflict. *)
Inductive conflict_action : Type :=
  | DoNothing
  | DoUpdate (excluded : list string) (stamp : string).
    (* SET c = EXCLUDED.c for c in excluded, stamp = NOW() *)

(** One target table: its definition in [setup_target.py] ([serial_id],
    [primary_key], the defaults) and the statement its loader runs
    ([insert_columns], [conflict_key], [action]). *)
Record target_table : Type := mk_target {
  into : string;
  serial_id : bool;                 (* id BIGSERIAL PRIMARY KEY *)
  primary_key : bool;               (* the conflict key is the PRIMARY KEY *)
  insert_columns : list string;
  conflict_key : string;
  action : conflict_action;
  const_defaults : pydict;
  now_defaults : list string        (* columns with DEFAULT NOW() *)
}.

Definition dim_scenario : target_table :=
  mk_target "dim_scenario" false true
    [ "scenario_id"; "scenario_display_name"; "scenario_status"; "is_starter";
      "currency"; "currency_code"; "scenario_start_year"; "scenario_end_year";
      "scenario_region_name"; "scenario_country_name";
      "created_at"; "created_by"; "submitted_at"; "submitted_by";
      "locked_at"; "locked_by"; "updated_at"; "updated_by";
      "withdraw_at"; "withdraw_by"; "delete_at";
      "model_id"; "model_display_name"; "model_type"; "model_publish_level";
      "therapeutic_area_name"; "disease_area_name"; "loe_enabled";
      "model_region_name"; "model_country_name";
      "forecast_cycle_name"; "forecast_cycle_start"; "forecast_cycle_end";
      "horizon_start_limit"; "horizon_end_limit"; "starter_created" ]
    "scenario_id"
    (DoUpdate
       [ "scenario_status"; "submitted_at"; "submitted_by"; "locked_at"; "locked_by";
         "updated_at"; "updated_by"; "withdraw_at"; "withdraw_by"; "delete_at" ]
       "etl_updated_at")
    []
    [ "etl_loaded_at"; "etl_updated_at" ].

Definition fact_node_input_history : target_table :=
  mk_target "fact_node_input_history" true false
    [ "source_id"; "scenario_id"; "model_node_id";
      "node_display_name"; "node_type"; "tab_name"; "tab_level";
      "group_name"; "group_type"; "node_seq"; "flow";
      "version_started_at"; "version_ended_at"; "is_current_version";
      "edited_by"; "input_hash"; "input_validated"; "validation_message";
      "data_source";
      "inp_value"; "inp_unit"; "inp_start_year"; "inp_end_year";
      "inp_input_type"; "inp_timeframe"; "inp_dosing_type"; "inp_actuals_flag";
      "inp_curve_type"; "inp_selected_output"; "inp_pfs_flag"; "inp_ppc_flag";
      "input_data_full_text" ]
    "source_id"
    (DoUpdate
       [ "version_ended_at"; "is_current_version"; "input_validated"; "validation_message" ]
       "etl_loaded_at")
    []
    [ "etl_loaded_at" ].

Definition fact_run_summary : target_table :=
  mk_target "fact_run_summary" false true
    [ "run_id"; "scenario_id"; "run_status"; "run_at"; "run_by";
      "run_complete_at"; "run_duration_minutes"; "fail_reason";
      "branch_count"; "total_nodes_processed";
      "nodes_success"; "nodes_failed"; "nodes_timeout" ]
    "run_id"
    (DoUpdate
       [ "run_status"; "run_complete_at"; "run_duration_minutes"; "fail_reason";
         "branch_count"; "total_nodes_processed"; "nodes_success"; "nodes_failed";
         "nodes_timeout" ]
       "etl_updated_at")
    [ ("node_edits_since_prev_run", VInt 0); ("event_edits_since_prev_run", VInt 0) ]
    [ "etl_loaded_at"; "etl_updated_at" ].

Definition fact_node_calc_results : target_table :=
  mk_target "fact_node_calc_results" true false
    [ "source_id"; "run_id"; "scenario_id"; "branch_id"; "event_tag";
      "model_node_id"; "node_display_name"; "node_type";
      "calc_status"; "fail_reason";
      "processing_start_at"; "processing_end_at"; "processing_duration_s";
      "output_data_text" ]
    "source_id"
    DoNothing
    []
    [ "etl_loaded_at" ].

Definition fact_event_input_history : target_table :=
  mk_target "fact_event_input_history" true false
    [ "source_id"; "scenario_id"; "event_type_name"; "is_inherent";
      "population_node_name"; "parent_product_name";
      "version_started_at"; "version_ended_at"; "is_current_version";
      "edited_by"; "event_data_hash"; "is_overridden"; "override_data_text";
      "is_validated"; "validation_message";
      "evt_year"; "evt_share_value"; "evt_entry_quarter"; "evt_erosion_rate";
      "evt_launch_date"; "evt_steady_state"; "evt_sob_value";
      "event_data_full_text" ]
    "source_id"
    (DoUpdate
       [ "version_ended_at"; "is_current_version"; "is_validated"; "validation_message" ]
       "etl_loaded_at")
    []
    [ "etl_loaded_at" ].

Definition fact_scenario_timeline : target_table :=
  mk_target "fact_scenario_timeline" true false
    [ "scenario_id"; "event_time"; "event_type"; "event_category";
      "actor"; "description"; "run_id"; "node_name"; "event_type_name"; "source_key" ]
    "source_key"
    DoNothing
    []
    [ "etl_loaded_at" ].

(** The table each entity type is loaded into. *)
Definition target_of (e : entity) : target_table :=
  match e with
  | Scenarios => dim_scenario
  | NodeData => fact_node_input_history
  | Runs => fact_run_summary
  | NodeCalc => fact_node_calc_results
  | EventData => fact_event_input_history
  | Timeline => fact_scenario_timeline
  end.

(** ** The INSERT ... ON CONFLICT statement *)

(** The row a tuple proposes: the insert columns paired with its values. *)
Definition proposed (T : target_table) (t : list pyval) : pydict :=
  combine (insert_columns T) t.

(** The row as stored when it is new: serial id, proposed values, defaults. *)
Definition new_row (T : target_table) (now id : Z) (t : list pyval) : pydict :=
  ((if serial_id T then [("id", VInt id)] else []) ++ proposed T t
     ++ const_defaults T ++ map (fun c => (c, VInt now)) (now_defaults T))%list.

(** A stored row conflicts with a proposed key when both are the same
    non-null value. *)
Definition conflicts (T : target_table) (k : pyval) (row : pydict) : bool :=
  negb (is_none k) && pyval_eqb (get row (conflict_key T)) k.

(** SET col = value on one stored row. *)
Definition set_col (col : string) (v : pyval) (row : pydict) : pydict :=
  map (fun cv => if String.eqb (fst cv) col then (fst cv, v) else cv) row.

(** SET c = EXCLUDED.c for each c of [cols]. *)
Definition set_excluded (cols : list string) (excluded : pydict) (row : pydict) : pydict :=
  map (fun cv => if str_in (fst cv) cols then (fst cv, get excluded (fst cv)) else cv) row.

Definition do_update (T : target_table) (cols : list string) (stamp : string)
    (now : Z) (p : pydict) (k : pyval) (rows : list pydict) : list pydict :=
  map (fun row => if conflicts T k row
                  then set_col stamp (VInt now) (set_excluded cols p row)
                  else row) rows.

(** The state of one statement: the table, and the keys of the rows the
    statement has written so far. *)
Definition stmt_state : Type := table * list pyval.

Definition key_in (k : pyval) (ks : list pyval) : bool :=
  existsb (pyval_eqb k) ks.

(** One proposed tuple of a statement.  The serial is drawn before the
    conflict check; a null primary key and a row the target's checks
    refuse are errors; DO UPDATE on a row this statement already wrote is
    the cardinality error. *)
Definition insert_one (T : target_table) (ok : list pyval -> bool) (now : Z)
    (st : stmt_state) (t : list pyval) : stmt_state * result unit :=
  let '(tb, written) := st in
  let seq := if serial_id T then tseq tb + 1 else tseq tb in
  let tb1 := mk_table (trows tb) seq in
  let p := proposed T t in
  let k := get p (conflict_key T) in
  if negb (ok t) then ((tb1, written), Raise (DatabaseError "row rejected"))
  else if primary_key T && is_none k then
    ((tb1, written), Raise (DatabaseError "null value in primary key"))
  else if existsb (conflicts T k) (trows tb) then
    match action T with
    | DoNothing => ((tb1, written), Ok tt)
    | DoUpdate cols stamp =>
        if key_in k written then
          ((tb1, written),
           Raise (DatabaseError "ON CONFLICT DO UPDATE command cannot affect row a second time"))
        else ((mk_table (do_update T cols stamp now p k (trows tb)) seq, k :: written), Ok tt)
    end
  else ((mk_table (trows tb ++ [new_row T now seq t]) seq, k :: written), Ok tt).

Fixpoint insert_rows (T : target_table) (ok : list pyval -> bool) (now : Z)
    (st : stmt_state) (page : list (list pyval)) : stmt_state * result unit :=
  match page with
  | [] => (st, Ok tt)
  | t :: page' =>
      match insert_one T ok now st t with
      | (st', Ok _) => insert_rows T ok now st' page'
      | (st', Raise x) => (st', Raise x)
      end
  end.

(** One statement: [INSERT INTO ... VALUES page ON CONFLICT ...].  A tuple
    whose length is not that of the column list fails the statement before
    any row is written. *)
Definition insert_page (T : target_table) (ok : list pyval -> bool) (now : Z)
    (tb : table) (page : list (list pyval)) : table * result unit :=
  if forallb (fun t => Nat.eqb (length t) (length (insert_columns T))) page
  then let '((tb', _), r) := insert_rows T ok now (tb, []) page in (tb', r)
  else (tb, Raise (DatabaseError "INSERT has more or fewer expressions than target columns")).

(** [execute_values(cur, sql, rows, page_size)]: the pages of at most
    [size] rows, in order. *)
Fixpoint pages_fuel {A : Type} (fuel size : nat) (rows : list A) : list (list A) :=
  match fuel, rows with
  | _, [] => []
  | O, _ => []
  | S fuel', _ => take size rows :: pages_fuel fuel' size (drop size rows)
  end.

Definition pages {A : Type} (size : nat) (rows : list A) : list (list A) :=
  pages_fuel (length rows) size rows.

(** The statements of one call, one per page, in one transaction; the
    count is that of the statements started. *)
Fixpoint execute_pages (T : target_table) (ok : list pyval -> bool) (now : Z)
    (tb : table) (ps : list (list (list pyval))) : table * list event * result unit :=
  match ps with
  | [] => (tb, [], Ok tt)
  | p :: ps' =>
      match insert_page T ok now tb p with
      | (tb', Ok _) =>
          let '(tb'', evs, r) := execute_pages T ok now tb' ps' in
          (tb'', InsertPage (into T) (length p) :: evs, r)
      | (tb', Raise x) => (tb', [InsertPage (into T) (length p)], Raise x)
      end
  end.

(** ** db.py: the batch writer *)

Definition emits (evs : list event) (w : world) : world :=
  mk_world (clock w) (etl_watermark w) (tables w) (trace w ++ evs) (log w).

(** A rollback restores the rows; the values a sequence gave stay given. *)
Definition rolled_back (before reached : table) : table :=
  mk_table (trows before) (tseq reached).

(** [executemany_target(sql, rows)], for the statement of table [T] issued
    by the unit of [e].  The pooled connection is taken, the pages run in
    one transaction, and an exception on the way rolls it back. *)
Definition executemany_target (E : env) (e : entity) (T : target_table)
    (rows : list (list pyval)) : M world Z :=
  fun w =>
    match rows with
    | [] => (w, Ok 0)
    | _ =>
        let w1 := tick (latency E e) (emit (TargetConnect "pool") w) in
        match fault E e OpWrite with
        | Some x => (w1, Raise x)
        | None =>
            match tables w1 !! into T with
            | None => (emit TxRollback w1, Raise (DatabaseError "relation does not exist"))
            | Some tb =>
                let '(tb', evs, r) :=
                  execute_pages T (accepts E e) (clock w1) tb (pages 500 rows) in
                let w2 := emits evs w1 in
                match r with
                | Raise x =>
                    (emit TxRollback (set_table (into T) (rolled_back tb tb') w2), Raise x)
                | Ok _ =>
                    match fault E e OpCommit with
                    | Some x =>
                        (emit TxRollback (set_table (into T) (rolled_back tb tb') w2), Raise x)
                    | None =>
                        (emit TxCommit (set_table (into T) tb' w2),
                         Ok (Z.of_nat (length rows)))
                    end
                end
            end
        end
    end.

(** ** load.py *)

(** The common body of the six loaders: nothing for an empty batch, else the
    statement, the log line and the count. *)
Definition load_into (E : env) (e : entity) (T : target_table)
    (rows : list (list pyval)) : M world Z :=
  match rows with
  | [] => ret 0
  | _ =>
      n <~ executemany_target E e T rows ;;
      fun w => (logger (InfoLoaded (into T) n) w, Ok n)
  end.

Definition load_scenarios (E : env) := load_into E Scenarios dim_scenario.
Definition load_node_data (E : env) := load_into E NodeData fact_node_input_history.
Definition load_runs (E : env) := load_into E Runs fact_run_summary.
Definition load_node_calc (E : env) := load_into E NodeCalc fact_node_calc_results.
Definition load_event_data (E : env) := load_into E EventData fact_event_input_history.
Definition load_timeline (E : env) := load_into E Timeline fact_scenario_timeline.

(** ** extract.py: the watermark store and the extractors *)

Definition INT_MAX : Z := 2147483647.
Definition BIGINT_MAX : Z := 9223372036854775807.

Definition get_watermark (E : env) (e : entity) (table_name : string) : M world Z :=
  fun w =>
    let w1 := tick (latency E e)
                (emit (SelectWatermark table_name) (emit (TargetConnect "direct") w)) in
    match fault E e OpReadWatermark with
    | Some x => (w1, Raise x)
    | None =>
        match etl_watermark w1 !! table_name with
        | Some row => (w1, Ok (last_fetched_at row - seconds OVERLAP_SEC))
        | None => (w1, Ok datetime_2020_1_1)
        end
    end.

(** The UPDATE of [update_watermark]: NOW() is the time of the statement's
    transaction; a name with no row matches nothing; a count outside the
    column's integer type fails the statement. *)
Definition update_watermark (E : env) (e : entity) (table_name : string)
    (rows_fetched : Z) : M world unit :=
  fun w =>
    let w1 := tick (latency E e)
                (emit (UpdateWatermark table_name) (emit (TargetConnect "direct") w)) in
    match fault E e OpUpdateWatermark with
    | Some x => (w1, Raise x)
    | None =>
        match etl_watermark w1 !! table_name with
        | None => (emit TxCommit w1, Ok tt)
        | Some row =>
            if (rows_fetched <=? INT_MAX) && (total_rows_ever row + rows_fetched <=? BIGINT_MAX)
            then
              let row' := mk_wm (clock w1) rows_fetched (Some (clock w1))
                            (total_rows_ever row + rows_fetched) in
              (emit TxCommit (set_watermark (<[table_name := row']> (etl_watermark w1)) w1),
               Ok tt)
            else (w1, Raise (DatabaseError "integer out of range"))
        end
    end.

(** [extract_scenarios], [extract_node_data], ...: the entity's query on
    the source, whose answer (rows or an exception) the surroundings give. *)
Definition extract (E : env) (e : entity) (since : Z) : M world (list pydict) :=
  fun w =>
    let w1 := tick (latency E e) (emit (SourceQuery e) w) in
    match source E e since with
    | Ok rows => (logger (InfoExtracted e (length rows)) w1, Ok rows)
    | Raise x => (w1, Raise x)
    end.

Definition extract_scenarios (E : env) := extract E Scenarios.
Definition extract_node_data (E : env) := extract E NodeData.
Definition extract_runs (E : env) := extract E Runs.
Definition extract_node_calc (E : env) := extract E NodeCalc.
Definition extract_event_data (E : env) := extract E EventData.
Definition extract_timeline_events (E : env) := extract E Timeline.

(** ** pipeline.py *)

(** The state of [run_cycle]: the world and the local [total_rows]. *)
Definition cycle_state : Type := world * Z.

Definition on_world {A : Type} (m : M world A) : M cycle_state A :=
  fun s =>
    let '(w', r) := m (fst s) in ((w', snd s), r).

Definition add_total (n : Z) : M cycle_state unit :=
  fun s => ((fst s, snd s + n), Ok tt).

(** The body of one [try] block. *)
Definition try_block (E : env) (e : entity)
    (extractor : Z -> M world (list pydict))
    (transform : list pydict -> result (list (list pyval)))
    (load : list (list pyval) -> M world Z) : M cycle_state unit :=
  since <~ on_world (get_watermark E e (watermark_name e)) ;;
  rows <~ on_world (extractor since) ;;
  _ <~ match rows with
       | [] => ret tt
       | _ =>
           transformed <~ lift (transform rows) ;;
           n <~ on_world (load transformed) ;;
           add_total n
       end ;;
  on_world (update_watermark E e (watermark_name e) (Z.of_nat (length rows))).

(** [try: body except Exception as e: logger.error(...)]. *)
Definition except_Exception (label : string) (body : M cycle_state unit) : M cycle_state unit :=
  fun s =>
    match body s with
    | (s', Ok _) => (s', Ok tt)
    | (s', Raise x) =>
        if is_Exception x
        then ((logger (ErrorUnitFailed label x) (fst s'), snd s'), Ok tt)
        else (s', Raise x)
    end.

Section Pipeline.
Context `{PyBuiltins}.

Definition run_cycle (E : env) : M world Z :=
  fun w =>
    let steps : M cycle_state Z :=
      _ <~ except_Exception "Scenarios"
             (try_block E Scenarios (extract_scenarios E) transform_scenarios
                (load_scenarios E)) ;;
      _ <~ except_Exception "Node data"
             (try_block E NodeData (extract_node_data E) transform_node_data
                (load_node_data E)) ;;
      _ <~ except_Exception "Runs"
             (try_block E Runs (extract_runs E) transform_runs (load_runs E)) ;;
      _ <~ except_Exception "Node calc"
             (try_block E NodeCalc (extract_node_calc E) transform_node_calc
                (load_node_calc E)) ;;
      _ <~ except_Exception "Event data"
             (try_block E EventData (extract_event_data E) transform_event_data
                (load_event_data E)) ;;
      _ <~ except_Exception "Timeline"
             (try_block E Timeline (extract_timeline_events E) transform_timeline
                (load_timeline E)) ;;
      fun s => ((logger (InfoCycleComplete (snd s)) (fst s), snd s), Ok (snd s)) in
    let '(s', r) := steps (w, 0) in (fst s', r).
End Pipeline.

(** ** scheduler.py *)

Definition MAX_CONSECUTIVE_FAILURES : Z := 10.

(** Where [main] stands after an iteration: still looping, left through
    [sys.exit], or left by an exception nothing caught. *)
Inductive status : Type :=
  | Looping
  | Exited (code : Z)
  | Uncaught (x : exn).

(** The exit status of the process, once [main] is left: the code of
    [sys.exit], 130 for an interrupt nothing caught (the interpreter ends
    on the signal), 1 for any other exception. *)
Definition exit_status (s : status) : option Z :=
  match s with
  | Looping => None
  | Exited code => Some code
  | Uncaught (SystemExit code) => Some code
  | Uncaught KeyboardInterrupt => Some 130
  | Uncaught _ => Some 1
  end.

(** [time.sleep(POLL_INTERVAL_SEC)]; [signal] is an exception delivered
    while asleep, after [fst signal] microseconds. *)
Definition sleep (signal : option (N * exn)) (w : world) : world * status :=
  let w1 := emit (Sleep POLL_INTERVAL_SEC) w in
  match signal with
  | Some (after, x) => (tick after w1, Uncaught x)
  | None => (tick (Z.to_N (seconds POLL_INTERVAL_SEC)) w1, Looping)
  end.

(** One pass through the body of [while True]: the guarded call of the
    cycle, then the sleep, which stands outside the [try]. *)
Definition iteration (cycle : M world Z) (signal : option (N * exn))
    (consecutive_failures : Z) (w : world) : world * Z * status :=
  match cycle w with
  | (w1, Ok _) =>
      let '(w2, st) := sleep signal w1 in (w2, 0, st)
  | (w1, Raise KeyboardInterrupt) =>
      (logger InfoStoppedByUser w1, consecutive_failures, Exited 0)
  | (w1, Raise x) =>
      if is_Exception x then
        let failures := consecutive_failures + 1 in
        let w2 := logger (ErrorCycleFailed failures x) w1 in
        let w3 := if MAX_CONSECUTIVE_FAILURES <=? failures
                  then logger (CriticalConsecutiveFailures MAX_CONSECUTIVE_FAILURES) w2
                  else w2 in
        let '(w4, st) := sleep signal w3 in (w4, failures, st)
      else (w1, consecutive_failures, Uncaught x)
  end.

(** The loop of [main] over the first iterations of a run, each with the
    cycle it calls and the signal its sleep meets. *)
Fixpoint loop (its : list (M world Z * option (N * exn)))
    (consecutive_failures : Z) (w : world) : world * Z * status :=
  match its with
  | [] => (w, consecutive_failures, Looping)
  | (cycle, signal) :: its' =>
      match iteration cycle signal consecutive_failures w with
      | (w', failures, Looping) => loop its' failures w'
      | stopped => stopped
      end
  end.

Section Scheduler.
Context `{PyBuiltins}.

(** [main()], run against the surroundings of its first cycles. *)
Definition main (run : list (env * option (N * exn))) (w : world) : world * Z * status :=
  loop (map (fun it => (run_cycle (fst it), snd it)) run) 0 w.
End Scheduler.

(** ** Builtins for evaluation *)

(** An instance on which the definitions above run: [int] and [float] read
    plain decimal literals, [json.loads] the scalar literals.  The examples
    below pass no other text to them. *)
Fixpoint digits (s : string) (acc : Z) : option Z :=
  match s with
  | EmptyString => Some acc
  | String c s' =>
      let n := Z.of_nat (nat_of_ascii c) in
      if (48 <=? n) && (n <=? 57) then digits s' (10 * acc + (n - 48)) else None
  end.

Definition decimal (s : string) : option Z :=
  match s with
  | EmptyString => None
  | String "-" (String c s') => option_map Z.opp (digits (String c s') 0)
  | _ => digits s 0
  end.

Definition scalar_loads (s : string) : option pyval :=
  if String.eqb s "null" then Some VNone
  else if String.eqb s "true" then Some (VBool true)
  else if String.eqb s "false" then Some (VBool false)
  else option_map VInt (decimal s).

Definition decimal_builtins : PyBuiltins := {|
  float_of_str s := option_map float_of_Z (decimal s);
  int_of_str := decimal;
  float_repr f := "<float>";
  container_repr v := "<container>";
  json_loads := scalar_loads
|}.

(** ** db.py: the pooled connections *)

(** The two databases of config.py. *)
Inductive database : Type := SOURCE | TARGET.

(** A connection of the driver, by the number of its opening. *)
Definition conn : Type := nat.

(** [psycopg2.pool.SimpleConnectionPool] as db.py uses it: the connections
    at rest, the last one put back first, and the connections handed out. *)
Record pool : Type := mk_pool {
  minconn : nat;
  maxconn : nat;
  at_rest : list conn;
  handed_out : list conn
}.

(** What the driver is asked, in order. *)
Inductive call : Type :=
  | Connect (to : database) (c : conn)
  | GetConn (c : conn)
  | PutConn (c : conn)
  | Execute (c : conn)
  | Commit (c : conn)
  | Rollback (c : conn)
  | Close (c : conn)
  | InfoPoolCreated (db : database).

(** The state db.py works on: its two module globals, the connections
    whose link to the server is lost, the number of connections opened so
    far, and the calls made. *)
Record driver : Type := mk_driver {
  _source_pool : option pool;
  _target_pool : option pool;
  lost : list conn;
  opened : nat;
  calls : list call
}.

Definition pool_of (db : database) (d : driver) : option pool :=
  match db with
  | SOURCE => _source_pool d
  | TARGET => _target_pool d
  end.

Definition set_pool (db : database) (p : option pool) (d : driver) : driver :=
  match db with
  | SOURCE => mk_driver p (_target_pool d) (lost d) (opened d) (calls d)
  | TARGET => mk_driver (_source_pool d) p (lost d) (opened d) (calls d)
  end.

Definition called (c : call) (d : driver) : driver :=
  mk_driver (_source_pool d) (_target_pool d) (lost d) (opened d) (calls d ++ [c]).

Definition lose (c : conn) (d : driver) : driver :=
  mk_driver (_source_pool d) (_target_pool d) (c :: lost d) (opened d) (calls d).

Definition is_lost (c : conn) (d : driver) : bool := existsb (Nat.eqb c) (lost d).

(** [psycopg2.connect] with the settings of config.py: a new connection when the server is
    reached, OperationalError when it is not. *)
Definition connect (up : database -> bool) (to : database) : M driver conn :=
  fun d =>
    if up to
    then (called (Connect to (opened d))
            (mk_driver (_source_pool d) (_target_pool d) (lost d) (S (opened d)) (calls d)),
          Ok (opened d))
    else (d, Raise (DatabaseError "could not connect to server")).

Fixpoint open_connections (up : database -> bool) (to : database) (n : nat)
    : M driver (list conn) :=
  match n with
  | O => ret []
  | S n' =>
      c <~ connect up to ;;
      cs <~ open_connections up to n' ;;
      ret (c :: cs)
  end.

(** [SimpleConnectionPool] with [minconn] and [maxconn]: the pool opens its
    [minconn] connections at once. *)
Definition SimpleConnectionPool (up : database -> bool) (to : database)
    (minconn maxconn : nat) : M driver pool :=
  cs <~ open_connections up to minconn ;;
  ret (mk_pool minconn maxconn cs []).

(** [pool.getconn()]: a connection at rest if there is one, else a new one
    unless [maxconn] are handed out, which is PoolError. *)
Definition getconn (up : database -> bool) (db : database) : M driver conn :=
  fun d =>
    match pool_of db d with
    | None => (d, Raise (DatabaseError "connection pool is closed"))
    | Some p =>
        match at_rest p with
        | c :: rest =>
            (called (GetConn c)
               (set_pool db (Some (mk_pool (minconn p) (maxconn p) rest (c :: handed_out p))) d),
             Ok c)
        | [] =>
            if Nat.eqb (length (handed_out p)) (maxconn p)
            then (d, Raise (DatabaseError "connection pool exhausted"))
            else
              match connect up db d with
              | (d1, Ok c) =>
                  (called (GetConn c)
                     (set_pool db
                        (Some (mk_pool (minconn p) (maxconn p) [] (c :: handed_out p))) d1),
                   Ok c)
              | (d1, Raise x) => (d1, Raise x)
              end
        end
    end.

Definition without (c : conn) (cs : list conn) : list conn :=
  List.filter (fun c' => negb (Nat.eqb c c')) cs.

(** [pool.putconn(conn)]: the connection is no longer handed out; it is
    kept at rest when fewer than [minconn] are and its link is not lost,
    and closed otherwise. *)
Definition putconn (db : database) (c : conn) : M driver unit :=
  fun d =>
    match pool_of db d with
    | None => (d, Raise (DatabaseError "connection pool is closed"))
    | Some p =>
        if negb (existsb (Nat.eqb c) (handed_out p))
        then (d, Raise (DatabaseError "trying to put unkeyed connection"))
        else
          if Nat.ltb (length (at_rest p)) (minconn p)
          then
            let rest := if is_lost c d then at_rest p else c :: at_rest p in
            (called (PutConn c)
               (set_pool db
                  (Some (mk_pool (minconn p) (maxconn p) rest (without c (handed_out p)))) d),
             Ok tt)
          else
            (called (PutConn c)
               (called (Close c)
                  (set_pool db
                     (Some (mk_pool (minconn p) (maxconn p) (at_rest p)
                              (without c (handed_out p)))) d)),
             Ok tt)
    end.

(** [conn.rollback()] and [conn.commit()]: InterfaceError on a connection
    whose link is lost. *)
Definition rollback (c : conn) : M driver unit :=
  fun d =>
    if is_lost c d then (d, Raise (DatabaseError "connection already closed"))
    else (called (Rollback c) d, Ok tt).

Definition commit (c : conn) : M driver unit :=
  fun d =>
    if is_lost c d then (d, Raise (DatabaseError "connection already closed"))
    else (called (Commit c) d, Ok tt).

(** What the server does with a statement: it answers, or the statement
    fails, with the link to the server lost or not. *)
Inductive answer (A : Type) : Type :=
  | Answers (a : A)
  | Fails (x : exn) (link_lost : bool).
Arguments Answers {A} a.
Arguments Fails {A} x link_lost.

(** [cur.execute(sql, params)] and the fetch, on connection [c]. *)
Definition execute {A : Type} (o : answer A) (c : conn) : M driver A :=
  fun d =>
    if is_lost c d then (d, Raise (DatabaseError "connection already closed"))
    else
      match o with
      | Answers a => (called (Execute c) d, Ok a)
      | Fails x false => (called (Execute c) d, Raise x)
      | Fails x true => (lose c (called (Execute c) d), Raise x)
      end.

(** [get_source_pool()] and [get_target_pool()]: the pool of the module
    global, created at the first call that finds none. *)
Definition get_pool (up : database -> bool) (db : database) : M driver unit :=
  fun d =>
    match pool_of db d with
    | Some _ => (d, Ok tt)
    | None =>
        match SimpleConnectionPool up db 1 3 d with
        | (d1, Ok p) => (called (InfoPoolCreated db) (set_pool db (Some p) d1), Ok tt)
        | (d1, Raise x) => (d1, Raise x)
        end
    end.

Definition get_source_pool (up : database -> bool) : M driver unit := get_pool up SOURCE.
Definition get_target_pool (up : database -> bool) : M driver unit := get_pool up TARGET.

(** [_PooledConnection.__enter__] and [__exit__]. *)
Definition PooledConnection_enter (up : database -> bool) (db : database) : M driver conn :=
  getconn up db.

Definition PooledConnection_exit (db : database) (c : conn) (exc_type : bool)
    : M driver unit :=
  _ <~ (if exc_type then rollback c else ret tt) ;;
  putconn db c.

(** [with source_conn() as conn: body] (and [target_conn()]): [__exit__]
    returns None, so an exception of the body goes on after it, unless
    [__exit__] itself raises. *)
Definition with_conn {A : Type} (up : database -> bool) (db : database)
    (body : conn -> M driver A) : M driver A :=
  _ <~ get_pool up db ;;
  c <~ PooledConnection_enter up db ;;
  fun d =>
    match body c d with
    | (d1, Ok a) =>
        match PooledConnection_exit db c false d1 with
        | (d2, Ok _) => (d2, Ok a)
        | (d2, Raise y) => (d2, Raise y)
        end
    | (d1, Raise x) =>
        match PooledConnection_exit db c true d1 with
        | (d2, Ok _) => (d2, Raise x)
        | (d2, Raise y) => (d2, Raise y)
        end
    end.

(** [query_source(sql, params)]. *)
Definition query_source (up : database -> bool) (o : answer (list pydict))
    : M driver (list pydict) :=
  with_conn up SOURCE (fun c => execute o c).

(** [execute_target(sql, params)]. *)
Definition execute_target (up : database -> bool) (o : answer unit) : M driver unit :=
  with_conn up TARGET (fun c => _ <~ execute o c ;; commit c).

(** The driver before the first call. *)
Definition fresh_driver : driver := mk_driver None None [] 0 [].

(** ** setup_target.py: the schema *)

(** A column of a CREATE TABLE of [SCHEMA_SQL]. *)
Inductive column_key : Type := PrimaryKey | Unique | NoKey.

Inductive column_default : Type :=
  | NoDefault
  | DefaultConst (v : pyval)
  | DefaultNow
  | Serial.                            (* BIGSERIAL *)

Record column : Type := mk_column {
  cname : string;
  ctype : string;
  ckey : column_key;
  not_null : bool;
  cdefault : column_default
}.

Record create_table : Type := mk_create {
  tname : string;
  columns : list column
}.

Definition ddl_etl_watermark : create_table :=
  mk_create "etl_watermark"
    [ mk_column "table_name" "VARCHAR(100)" PrimaryKey false NoDefault;
      mk_column "last_fetched_at" "TIMESTAMP" NoKey true (DefaultConst (VInt datetime_2020_1_1));
      mk_column "rows_last_run" "INT" NoKey false (DefaultConst (VInt 0));
      mk_column "last_run_at" "TIMESTAMP" NoKey false NoDefault;
      mk_column "total_rows_ever" "BIGINT" NoKey false (DefaultConst (VInt 0)) ].

Definition ddl_dim_scenario : create_table :=
  mk_create "dim_scenario"
    [ mk_column "scenario_id" "UUID" PrimaryKey false NoDefault;
      mk_column "scenario_display_name" "VARCHAR(255)" NoKey false NoDefault;
      mk_column "scenario_status" "VARCHAR(50)" NoKey false NoDefault;
      mk_column "is_starter" "BOOLEAN" NoKey false NoDefault;
      mk_column "currency" "VARCHAR(10)" NoKey false NoDefault;
      mk_column "currency_code" "VARCHAR(3)" NoKey false NoDefault;
      mk_column "scenario_start_year" "INT" NoKey false NoDefault;
      mk_column "scenario_end_year" "INT" NoKey false NoDefault;
      mk_column "scenario_region_name" "VARCHAR(255)" NoKey false NoDefault;
      mk_column "scenario_country_name" "VARCHAR(255)" NoKey false NoDefault;
      mk_column "created_at" "TIMESTAMP" NoKey false NoDefault;
      mk_column "created_by" "VARCHAR(255)" NoKey false NoDefault;
      mk_column "submitted_at" "TIMESTAMP" NoKey false NoDefault;
      mk_column "submitted_by" "VARCHAR(255)" NoKey false NoDefault;
      mk_column "locked_at" "TIMESTAMP" NoKey false NoDefault;
      mk_column "locked_by" "VARCHAR(255)" NoKey false NoDefault;
      mk_column "updated_at" "TIMESTAMP" NoKey false NoDefault;
      mk_column "updated_by" "VARCHAR(255)" NoKey false NoDefault;
      mk_column "withdraw_at" "TIMESTAMP" NoKey false NoDefault;
      mk_column "withdraw_by" "VARCHAR(255)" NoKey false NoDefault;
      mk_column "delete_at" "TIMESTAMP" NoKey false NoDefault;
      mk_column "model_id" "UUID" NoKey false NoDefault;
      mk_column "model_display_name" "VARCHAR(255)" NoKey false NoDefault;
      mk_column "model_type" "VARCHAR(100)" NoKey false NoDefault;
      mk_column "model_publish_level" "VARCHAR(50)" NoKey false NoDefault;
      mk_column "therapeutic_area_name" "VARCHAR(255)" NoKey false NoDefault;
      mk_column "disease_area_name" "VARCHAR(255)" NoKey false NoDefault;
      mk_column "loe_enabled" "BOOLEAN" NoKey false NoDefault;
      mk_column "model_region_name" "VARCHAR(255)" NoKey false NoDefault;
      mk_column "model_country_name" "VARCHAR(255)" NoKey false NoDefault;
      mk_column "forecast_cycle_name" "VARCHAR(255)" NoKey false NoDefault;
      mk_column "forecast_cycle_start" "TIMESTAMP" NoKey false NoDefault;
      mk_column "forecast_cycle_end" "TIMESTAMP" NoKey false NoDefault;
      mk_column "horizon_start_limit" "INT" NoKey false NoDefault;
      mk_column "horizon_end_limit" "INT" NoKey false NoDefault;
      mk_column "starter_created" "BOOLEAN" NoKey false NoDefault;
      mk_column "etl_loaded_at" "TIMESTAMP" NoKey false DefaultNow;
      mk_column "etl_updated_at" "TIMESTAMP" NoKey false DefaultNow ].

Definition ddl_fact_scenario_timeline : create_table :=
  mk_create "fact_scenario_timeline"
    [ mk_column "id" "BIGSERIAL" PrimaryKey false Serial;
      mk_column "scenario_id" "UUID" NoKey true NoDefault;
      mk_column "event_time" "TIMESTAMP" NoKey true NoDefault;
      mk_column "event_type" "VARCHAR(50)" NoKey true NoDefault;
      mk_column "event_category" "VARCHAR(30)" NoKey false NoDefault;
      mk_column "actor" "VARCHAR(255)" NoKey false NoDefault;
      mk_column "description" "TEXT" NoKey false NoDefault;
      mk_column "run_id" "UUID" NoKey false NoDefault;
      mk_column "node_name" "VARCHAR(255)" NoKey false NoDefault;
      mk_column "event_type_name" "VARCHAR(100)" NoKey false NoDefault;
      mk_column "source_key" "VARCHAR(255)" Unique false NoDefault;
      mk_column "etl_loaded_at" "TIMESTAMP" NoKey false DefaultNow ].

Definition ddl_fact_node_input_history : create_table :=
  mk_create "fact_node_input_history"
    [ mk_column "id" "BIGSERIAL" PrimaryKey false Serial;
      mk_column "source_id" "UUID" Unique false NoDefault;
      mk_column "scenario_id" "UUID" NoKey true NoDefault;
      mk_column "model_node_id" "UUID" NoKey true NoDefault;
      mk_column "node_display_name" "VARCHAR(255)" NoKey false NoDefault;
      mk_column "node_type" "VARCHAR(100)" NoKey false NoDefault;
      mk_column "tab_name" "VARCHAR(255)" NoKey false NoDefault;
      mk_column "tab_level" "INT" NoKey false NoDefault;
      mk_column "group_name" "VARCHAR(255)" NoKey false NoDefault;
      mk_column "group_type" "VARCHAR(100)" NoKey false NoDefault;
      mk_column "node_seq" "INT" NoKey false NoDefault;
      mk_column "flow" "VARCHAR(100)" NoKey false NoDefault;
      mk_column "version_started_at" "TIMESTAMP" NoKey false NoDefault;
      mk_column "version_ended_at" "TIMESTAMP" NoKey false NoDefault;
      mk_column "is_current_version" "BOOLEAN" NoKey false (DefaultConst (VBool true));
      mk_column "edited_by" "VARCHAR(255)" NoKey false NoDefault;
      mk_column "input_hash" "VARCHAR(255)" NoKey false NoDefault;
      mk_column "input_validated" "BOOLEAN" NoKey false NoDefault;
      mk_column "validation_message" "TEXT" NoKey false NoDefault;
      mk_column "data_source" "VARCHAR(255)" NoKey false NoDefault;
      mk_column "inp_value" "NUMERIC" NoKey false NoDefault;
      mk_column "inp_unit" "VARCHAR(100)" NoKey false NoDefault;
      mk_column "inp_start_year" "INT" NoKey false NoDefault;
      mk_column "inp_end_year" "INT" NoKey false NoDefault;
      mk_column "inp_input_type" "VARCHAR(100)" NoKey false NoDefault;
      mk_column "inp_timeframe" "VARCHAR(100)" NoKey false NoDefault;
      mk_column "inp_dosing_type" "VARCHAR(100)" NoKey false NoDefault;
      mk_column "inp_actuals_flag" "BOOLEAN" NoKey false NoDefault;
      mk_column "inp_curve_type" "VARCHAR(50)" NoKey false NoDefault;
      mk_column "inp_selected_output" "VARCHAR(50)" NoKey false NoDefault;
      mk_column "inp_pfs_flag" "BOOLEAN" NoKey false NoDefault;
      mk_column "inp_ppc_flag" "BOOLEAN" NoKey false NoDefault;
      mk_column "input_data_full_text" "TEXT" NoKey false NoDefault;
      mk_column "etl_loaded_at" "TIMESTAMP" NoKey false DefaultNow ].

Definition ddl_fact_run_summary : create_table :=
  mk_create "fact_run_summary"
    [ mk_column "run_id" "UUID" PrimaryKey false NoDefault;
      mk_column "scenario_id" "UUID" NoKey true NoDefault;
      mk_column "run_status" "VARCHAR(30)" NoKey false NoDefault;
      mk_column "run_at" "TIMESTAMP" NoKey false NoDefault;
      mk_column "run_by" "VARCHAR(255)" NoKey false NoDefault;
      mk_column "run_complete_at" "TIMESTAMP" NoKey false NoDefault;
      mk_column "run_duration_minutes" "NUMERIC(10,2)" NoKey false NoDefault;
      mk_column "fail_reason" "TEXT" NoKey false NoDefault;
      mk_column "branch_count" "INT" NoKey false (DefaultConst (VInt 0));
      mk_column "total_nodes_processed" "INT" NoKey false (DefaultConst (VInt 0));
      mk_column "nodes_success" "INT" NoKey false (DefaultConst (VInt 0));
      mk_column "nodes_failed" "INT" NoKey false (DefaultConst (VInt 0));
      mk_column "nodes_timeout" "INT" NoKey false (DefaultConst (VInt 0));
      mk_column "node_edits_since_prev_run" "INT" NoKey false (DefaultConst (VInt 0));
      mk_column "event_edits_since_prev_run" "INT" NoKey false (DefaultConst (VInt 0));
      mk_column "etl_loaded_at" "TIMESTAMP" NoKey false DefaultNow;
      mk_column "etl_updated_at" "TIMESTAMP" NoKey false DefaultNow ].

Definition ddl_fact_node_calc_results : create_table :=
  mk_create "fact_node_calc_results"
    [ mk_column "id" "BIGSERIAL" PrimaryKey false Serial;
      mk_column "source_id" "UUID" Unique false NoDefault;
      mk_column "run_id" "UUID" NoKey true NoDefault;
      mk_column "scenario_id" "UUID" NoKey true NoDefault;
      mk_column "branch_id" "UUID" NoKey false NoDefault;
      mk_column "event_tag" "VARCHAR(50)" NoKey false NoDefault;
      mk_column "model_node_id" "UUID" NoKey false NoDefault;
      mk_column "node_display_name" "VARCHAR(255)" NoKey false NoDefault;
      mk_column "node_type" "VARCHAR(100)" NoKey false NoDefault;
      mk_column "calc_status" "VARCHAR(30)" NoKey false NoDefault;
      mk_column "fail_reason" "TEXT" NoKey false NoDefault;
      mk_column "processing_start_at" "TIMESTAMP" NoKey false NoDefault;
      mk_column "processing_end_at" "TIMESTAMP" NoKey false NoDefault;
      mk_column "processing_duration_s" "NUMERIC(10,3)" NoKey false NoDefault;
      mk_column "output_data_text" "TEXT" NoKey false NoDefault;
      mk_column "etl_loaded_at" "TIMESTAMP" NoKey false DefaultNow ].

Definition ddl_fact_event_input_history : create_table :=
  mk_create "fact_event_input_history"
    [ mk_column "id" "BIGSERIAL" PrimaryKey false Serial;
      mk_column "source_id" "UUID" Unique false NoDefault;
      mk_column "scenario_id" "UUID" NoKey true NoDefault;
      mk_column "event_type_name" "VARCHAR(100)" NoKey false NoDefault;
      mk_column "is_inherent" "BOOLEAN" NoKey false NoDefault;
      mk_column "population_node_name" "VARCHAR(255)" NoKey false NoDefault;
      mk_column "parent_product_name" "VARCHAR(255)" NoKey false NoDefault;
      mk_column "version_started_at" "TIMESTAMP" NoKey false NoDefault;
      mk_column "version_ended_at" "TIMESTAMP" NoKey false NoDefault;
      mk_column "is_current_version" "BOOLEAN" NoKey false (DefaultConst (VBool true));
      mk_column "edited_by" "VARCHAR(255)" NoKey false NoDefault;
      mk_column "event_data_hash" "VARCHAR(255)" NoKey false NoDefault;
      mk_column "is_overridden" "BOOLEAN" NoKey false NoDefault;
      mk_column "override_data_text" "TEXT" NoKey false NoDefault;
      mk_column "is_validated" "BOOLEAN" NoKey false NoDefault;
      mk_column "validation_message" "TEXT" NoKey false NoDefault;
      mk_column "evt_year" "INT" NoKey false NoDefault;
      mk_column "evt_share_value" "NUMERIC" NoKey false NoDefault;
      mk_column "evt_entry_quarter" "VARCHAR(10)" NoKey false NoDefault;
      mk_column "evt_erosion_rate" "NUMERIC" NoKey false NoDefault;
      mk_column "evt_launch_date" "VARCHAR(50)" NoKey false NoDefault;
      mk_column "evt_steady_state" "NUMERIC" NoKey false NoDefault;
      mk_column "evt_sob_value" "NUMERIC" NoKey false NoDefault;
      mk_column "event_data_full_text" "TEXT" NoKey false NoDefault;
      mk_column "etl_loaded_at" "TIMESTAMP" NoKey false DefaultNow ].

(** The CREATE TABLE IF NOT EXISTS statements of [SCHEMA_SQL], in order. *)
Definition SCHEMA_TABLES : list create_table :=
  [ ddl_etl_watermark; ddl_dim_scenario; ddl_fact_scenario_timeline;
    ddl_fact_node_input_history; ddl_fact_run_summary; ddl_fact_node_calc_results;
    ddl_fact_event_input_history ].

(** The CREATE INDEX IF NOT EXISTS statements: name, table, columns. *)
Definition SCHEMA_INDEXES : list (string * string * list string) :=
  [ ("idx_timeline_scenario_time", "fact_scenario_timeline", ["scenario_id"; "event_time"]);
    ("idx_timeline_event_type", "fact_scenario_timeline", ["event_type"; "event_category"]);
    ("idx_node_hist_scenario", "fact_node_input_history",
     ["scenario_id"; "model_node_id"; "is_current_version"]);
    ("idx_node_hist_current", "fact_node_input_history", ["is_current_version"]);
    ("idx_run_scenario", "fact_run_summary", ["scenario_id"; "run_at"]);
    ("idx_calc_run", "fact_node_calc_results", ["run_id"; "scenario_id"; "calc_status"]);
    ("idx_evt_scenario", "fact_event_input_history", ["scenario_id"; "is_current_version"]) ].

(** The names the INSERT into etl_watermark seeds. *)
Definition WATERMARK_SEED : list string :=
  [ "public.fc_scenario"; "public.fc_scenario_node_data"; "public.fc_scenario_run";
    "public.fc_scenario_node_calc"; "public.fc_scenario_event_data";
    "public.fc_scenario_run_branch"; "timeline" ].

Definition find_table (name : string) : option create_table :=
  List.find (fun d => String.eqb (tname d) name) SCHEMA_TABLES.

Definition find_column (d : create_table) (c : string) : option column :=
  List.find (fun col => String.eqb (cname col) c) (columns d).

(** The columns an INSERT leaves to their default, with the value they
    get: the constants, and the columns that take NOW(). *)
Definition defaults_left (d : create_table) (inserted : list string) : pydict :=
  flat_map (fun col =>
              match cdefault col with
              | DefaultConst v => if str_in (cname col) inserted then [] else [(cname col, v)]
              | _ => []
              end) (columns d).

Definition now_left (d : create_table) (inserted : list string) : list string :=
  flat_map (fun col =>
              match cdefault col with
              | DefaultNow => if str_in (cname col) inserted then [] else [cname col]
              | _ => []
              end) (columns d).

Definition is_serial (col : column) : bool :=
  match cdefault col with Serial => true | _ => false end.

Definition is_key (col : column) : bool :=
  match ckey col with NoKey => false | _ => true end.

Definition is_primary (col : column) : bool :=
  match ckey col with PrimaryKey => true | _ => false end.

(** ** setup_target.py: [setup] *)

(** CREATE TABLE IF NOT EXISTS: a table that is there is left alone. *)
Definition create_if_not_exists (ts : gmap string table) (d : create_table)
    : gmap string table :=
  match ts !! tname d with
  | Some _ => ts
  | None => <[tname d := mk_table [] 0]> ts
  end.

(** INSERT INTO etl_watermark (table_name) ... ON CONFLICT DO NOTHING: a
    name without a row gets the defaults of the columns. *)
Definition seed (wm : gmap string wm_row) (name : string) : gmap string wm_row :=
  match wm !! name with
  | Some _ => wm
  | None => <[name := mk_wm datetime_2020_1_1 0 None 0]> wm
  end.

(** The tables of [SCHEMA_SQL] that hold the loaded rows; etl_watermark is
    the watermark store of the state. *)
Definition data_tables : list create_table :=
  List.filter (fun d => negb (String.eqb (tname d) "etl_watermark")) SCHEMA_TABLES.

(** What [SCHEMA_SQL] does to the target once committed. *)
Definition run_schema (w : world) : world :=
  mk_world (clock w) (fold_left seed WATERMARK_SEED (etl_watermark w))
    (fold_left create_if_not_exists data_tables (tables w)) (trace w) (log w).

Inductive setup_op : Type :=
  | SetupConnect | SetupExecute | SetupCommit | SetupRollback | SetupClose.

(** The calls [setup] makes on the driver and the lines it logs. *)
Inductive setup_record : Type :=
  | Called (o : setup_op)
  | InfoSchemaCreated
  | InfoTablesCreated
  | InfoTable (t : string)
  | ErrorSetupFailed (x : exn).

Definition setup_state : Type := world * list setup_record.

Definition noted (r : setup_record) (s : setup_state) : setup_state :=
  (fst s, (snd s ++ [r])%list).

Definition TABLES_LOGGED : list string :=
  [ "etl_watermark"; "dim_scenario"; "fact_scenario_timeline"; "fact_node_input_history";
    "fact_run_summary"; "fact_node_calc_results"; "fact_event_input_history" ].

Section Setup.
(** The call of the driver that fails, and with what. *)
Variable faults : setup_op -> option exn.

Definition attempt (o : setup_op) : M setup_state unit :=
  fun s =>
    match faults o with
    | Some x => (noted (Called o) s, Raise x)
    | None => (noted (Called o) s, Ok tt)
    end.

(** The body of the [try]: the schema is in the target when the commit
    returns. *)
Definition setup_try : M setup_state unit :=
  _ <~ attempt SetupExecute ;;
  _ <~ attempt SetupCommit ;;
  fun s =>
    (fold_left (fun s' t => noted (InfoTable t) s') TABLES_LOGGED
       (noted InfoTablesCreated (noted InfoSchemaCreated (run_schema (fst s), snd s))),
     Ok tt).

(** [except Exception as e: conn.rollback(); logger.error(...); raise]. *)
Definition setup_except (body : M setup_state unit) : M setup_state unit :=
  fun s =>
    match body s with
    | (s1, Ok _) => (s1, Ok tt)
    | (s1, Raise x) =>
        if is_Exception x
        then
          match attempt SetupRollback s1 with
          | (s2, Ok _) => (noted (ErrorSetupFailed x) s2, Raise x)
          | (s2, Raise y) => (s2, Raise y)
          end
        else (s1, Raise x)
    end.

(** [finally: conn.close()]. *)
Definition setup_finally (body : M setup_state unit) : M setup_state unit :=
  fun s =>
    match body s with
    | (s1, r) =>
        match attempt SetupClose s1 with
        | (s2, Ok _) => (s2, r)
        | (s2, Raise z) => (s2, Raise z)
        end
    end.

Definition setup : M setup_state unit :=
  _ <~ attempt SetupConnect ;;
  setup_finally (setup_except setup_try).
End Setup.

(** A driver that does not fail. *)
Definition no_fault : setup_op -> option exn := fun _ => None.

(** * Properties *)

(** Case analysis on the first computation of a chain of binds. *)
Ltac bind_cases :=
  match goal with
  | |- context [bind ?m _] =>
      let E := fresh "E" in destruct m eqn:E; cbn [bind]
  end.

(** ** Dicts and tuples *)

Lemma str_in_In (k : string) (l : list string) : str_in k l = true <-> In k l.
Proof.
  unfold str_in. rewrite existsb_exists. split.
  - intros [x [Hx E]]. apply String.eqb_eq in E. subst. exact Hx.
  - intros Hk. exists k. split; [exact Hk | apply String.eqb_refl].
Qed.

Lemma str_in_false (k : string) (l : list string) : str_in k l = false -> ~ In k l.
Proof.
  intros E Hk. apply str_in_In in Hk. congruence.
Qed.

Lemma dict_get_None (d : pydict) (k : string) :
  ~ In k (map fst d) -> dict_get d k = None.
Proof.
  induction d as [|[k' v] d IH]; simpl; intros Hk; [reflexivity|].
  destruct (String.eqb k' k) eqn:E.
  - apply String.eqb_eq in E. tauto.
  - apply IH. tauto.
Qed.

Lemma dict_get_Some (d : pydict) (k : string) :
  In k (map fst d) -> exists v, dict_get d k = Some v.
Proof.
  induction d as [|[k' v] d IH]; simpl; intros Hk; [tauto|].
  destruct (String.eqb k' k) eqn:E; [eauto|].
  apply IH. destruct Hk as [Hk|Hk]; [|exact Hk].
  apply String.eqb_neq in E. tauto.
Qed.

Lemma getitem_present (cols : list string) (r : pydict) (k : string) :
  has_columns cols r -> str_in k cols = true -> getitem r k = Ok (get r k).
Proof.
  unfold has_columns, getitem, get. intros <- Hk. apply str_in_In in Hk.
  destruct (dict_get_Some r k Hk) as [v ->]. reflexivity.
Qed.

Lemma getitem_absent (cols : list string) (r : pydict) (k : string) :
  has_columns cols r -> str_in k cols = false -> getitem r k = Raise (KeyError k).
Proof.
  unfold has_columns, getitem. intros <- Hk. apply str_in_false in Hk.
  rewrite (dict_get_None r k Hk). reflexivity.
Qed.

(** The keys a list of fields subscripts. *)
Fixpoint items (fs : list field) : list string :=
  match fs with
  | [] => []
  | Item k :: fs' => k :: items fs'
  | _ :: fs' => items fs'
  end.

Lemma tuple_of_returns (cols : list string) (fs : list field) (r : pydict) :
  has_columns cols r ->
  forallb (fun k => str_in k cols) (items fs) = true ->
  exists t, tuple_of fs r = Ok t /\ length t = length fs.
Proof.
  intros Hr. induction fs as [|f fs IH]; simpl; intros Hfs.
  - exists []. split; reflexivity.
  - assert (Hf : exists v, eval_field r f = Ok v).
    { destruct f; simpl in *; eauto.
      apply andb_true_iff in Hfs. destruct Hfs as [Hk _].
      rewrite (getitem_present cols r k Hr Hk). eauto. }
    assert (Hrest : forallb (fun k => str_in k cols) (items fs) = true).
    { destruct f; simpl in Hfs; try exact Hfs.
      apply andb_true_iff in Hfs. tauto. }
    destruct Hf as [v ->]. destruct (IH Hrest) as [t [-> Ht]].
    exists (v :: t). simpl. split; [reflexivity | now rewrite Ht].
Qed.

Lemma for_each_returns {A B : Type} (f : A -> result B) (rows : list A) :
  (forall r, In r rows -> returns (f r)) ->
  exists ts, for_each f rows = Ok ts /\ length ts = length rows.
Proof.
  induction rows as [|r rows IH]; simpl; intros Hf.
  - exists []. split; reflexivity.
  - destruct (Hf r (or_introl eq_refl)) as [t ->].
    destruct IH as [ts [-> Hts]]; [intros r' Hr'; apply Hf; now right|].
    exists (t :: ts). simpl. split; [reflexivity | now rewrite Hts].
Qed.

Lemma for_each_raises {A B : Type} (f : A -> result B) (rows : list A) (r : A) :
  In r rows -> (exists x, f r = Raise x) -> exists x, for_each f rows = Raise x.
Proof.
  induction rows as [|r' rows IH]; simpl; intros Hr Hx; [tauto|].
  destruct Hr as [->|Hr].
  - destruct Hx as [x ->]. simpl. eauto.
  - destruct (f r') as [t|x]; simpl; [|eauto].
    destruct (IH Hr Hx) as [x ->]. simpl. eauto.
Qed.

(** ** transform.py: the coercions *)

Section CoercionFacts.
Context `{PyBuiltins}.

Lemma py_float_raises (v : pyval) (x : exn) :
  py_float v = Raise x ->
  value_or_type_error x = true \/ (x = OverflowError /\ exists z, v = VInt z).
Proof.
  destruct v; simpl; try (intros [= <-]; now left); try discriminate.
  - destruct (float_of_Z z); try discriminate. intros [= <-]. right. eauto.
  - destruct (float_of_str s); [discriminate|]. intros [= <-]. now left.
Qed.

Lemma py_int_raises (v : pyval) (x : exn) :
  py_int v = Raise x ->
  value_or_type_error x = true \/ (x = OverflowError /\ exists s, v = VFloat (S754_infinity s)).
Proof.
  destruct v; simpl; try (intros [= <-]; now left); try discriminate.
  - destruct f; try discriminate; intros [= <-]; [right; eauto | now left].
  - destruct (int_of_str s); [discriminate|]. intros [= <-]. now left.
Qed.

Lemma safe_numeric_raises (v : pyval) (x : exn) :
  safe_numeric v = Raise x -> x = OverflowError /\ exists z, v = VInt z.
Proof.
  unfold safe_numeric. destruct (is_none v); [discriminate|].
  destruct (py_float v) as [f|y] eqn:E; [discriminate|].
  destruct (py_float_raises v y E) as [Hc|[-> Hz]].
  - rewrite Hc. discriminate.
  - simpl. intros [= <-]. auto.
Qed.

Lemma safe_int_raises (v : pyval) (x : exn) :
  safe_int v = Raise x -> x = OverflowError /\ exists s, v = VFloat (S754_infinity s).
Proof.
  unfold safe_int. destruct (is_none v); [discriminate|].
  destruct (py_int v) as [z|y] eqn:E; [discriminate|].
  destruct (py_int_raises v y E) as [Hc|[-> Hz]].
  - rewrite Hc. discriminate.
  - simpl. intros [= <-]. auto.
Qed.

Lemma safe_numeric_cases (v : pyval) :
  (exists f, safe_numeric v = Ok (VFloat f)) \/ safe_numeric v = Ok VNone
  \/ safe_numeric v = Raise OverflowError.
Proof.
  destruct (safe_numeric v) as [r|x] eqn:E.
  - unfold safe_numeric in E. destruct (is_none v); [injection E as <-; auto|].
    destruct (py_float v) as [f|y]; [injection E as <-; eauto|].
    destruct (value_or_type_error y); [injection E as <-; auto | discriminate].
  - destruct (safe_numeric_raises v x E) as [-> _]. auto.
Qed.

Lemma safe_int_cases (v : pyval) :
  (exists z, safe_int v = Ok (VInt z)) \/ safe_int v = Ok VNone
  \/ safe_int v = Raise OverflowError.
Proof.
  destruct (safe_int v) as [r|x] eqn:E.
  - unfold safe_int in E. destruct (is_none v); [injection E as <-; auto|].
    destruct (py_int v) as [z|y]; [injection E as <-; eauto|].
    destruct (value_or_type_error y); [injection E as <-; auto | discriminate].
  - destruct (safe_int_raises v x E) as [-> _]. auto.
Qed.
End CoercionFacts.

Lemma safe_bool_None (v : pyval) : safe_bool v = VNone <-> v = VNone.
Proof.
  destruct v; simpl; split; congruence.
Qed.

(** C6, as the code has it.  [safe_bool] returns None for None only: a
    bool is returned as it is, a string is True when its lower-case form is
    "true", "1" or "yes" and False otherwise, and any other value gives its
    truth value: a number is True unless it is zero, a list or a dict
    unless it is empty.  [safe_numeric] and [safe_int] return the converted
    number when [float] / [int] converts, and None when it raises
    ValueError or TypeError; neither raises on any value that is not a
    number of the other kind. *)
Theorem safe_coercions_by_design `{PyBuiltins} (v : pyval) :
  (safe_bool v = VNone <-> v = VNone) /\
  (exists b, safe_bool v = VNone \/ safe_bool v = VBool b) /\
  (forall s, v = VStr s -> safe_bool v = VBool (str_in (lower s) ["true"; "1"; "yes"])) /\
  (forall f, py_float v = Ok f -> safe_numeric v = Ok (VFloat f)) /\
  (forall x, py_float v = Raise x -> value_or_type_error x = true ->
             safe_numeric v = Ok VNone) /\
  ((forall z, v <> VInt z) -> returns (safe_numeric v)) /\
  (forall z, py_int v = Ok z -> safe_int v = Ok (VInt z)) /\
  (forall x, py_int v = Raise x -> value_or_type_error x = true ->
             safe_int v = Ok VNone) /\
  ((forall f, v <> VFloat f) -> returns (safe_int v)) /\
  (forall b, v = VBool b -> safe_bool v = VBool b) /\
  (v <> VNone -> (forall s, v <> VStr s) -> safe_bool v = VBool (truthy v)) /\
  (forall z, v = VInt z -> safe_bool v = VBool (negb (z =? 0))) /\
  (forall f, v = VFloat f -> safe_bool v = VBool (negb (float_is_zero f))) /\
  (forall l, v = VList l -> safe_bool v = VBool (negb (Nat.eqb (length l) 0))) /\
  (forall d, v = VDict d -> safe_bool v = VBool (negb (Nat.eqb (length d) 0))) /\
  (v = VNone -> safe_numeric v = Ok VNone /\ safe_int v = Ok VNone).
Proof.
  split; [apply safe_bool_None|].
  split. { destruct v; simpl; try (eexists; right; reflexivity). exists true. now left. }
  split. { intros s ->. reflexivity. }
  split. { intros f E. unfold safe_numeric. rewrite E. destruct v; try reflexivity; discriminate. }
  split. { intros x E Hx. unfold safe_numeric. rewrite E, Hx. now destruct (is_none v). }
  split.
  { intros Hv. destruct (safe_numeric v) as [r|x] eqn:E; [now exists r|].
    destruct (safe_numeric_raises v x E) as [_ [z ->]]. now destruct (Hv z). }
  split. { intros z E. unfold safe_int. rewrite E. destruct v; try reflexivity; discriminate. }
  split. { intros x E Hx. unfold safe_int. rewrite E, Hx. now destruct (is_none v). }
  split.
  { intros Hv. destruct (safe_int v) as [r|x] eqn:E; [now exists r|].
    destruct (safe_int_raises v x E) as [_ [s ->]]. now destruct (Hv (S754_infinity s)). }
  split. { intros b ->. reflexivity. }
  split.
  { intros Hnone Hstr. destruct v as [|b|z|f|s|l|d|o]; try reflexivity;
      [now destruct Hnone | now destruct (Hstr s)]. }
  split. { intros z ->. reflexivity. }
  split. { intros f ->. reflexivity. }
  split. { intros l ->. now destruct l. }
  split. { intros d ->. now destruct d. }
  intros ->. split; reflexivity.
Qed.

(** The text "12" converts, the text "12a" does not and gives None; the
    text "Yes" is True, a bool is itself, and the number 0 is False. *)
Lemma safe_coercions_witness :
  @safe_numeric decimal_builtins (VStr "12") = Ok (VFloat (float_of_Z 12)) /\
  @safe_int decimal_builtins (VStr "12") = Ok (VInt 12) /\
  @safe_numeric decimal_builtins (VStr "12a") = Ok VNone /\
  @safe_int decimal_builtins (VStr "12a") = Ok VNone /\
  safe_bool (VStr "Yes") = VBool true /\
  safe_bool (VBool false) = VBool false /\
  safe_bool (VInt 0) = VBool false /\
  safe_bool (VInt 2) = VBool true.
Proof.
  destruct (@safe_coercions_by_design decimal_builtins (VStr "12"))
    as [_ [_ [_ [Hfloat [_ [_ [Hint _]]]]]]].
  destruct (@safe_coercions_by_design decimal_builtins (VStr "12a"))
    as [_ [_ [_ [_ [Hnofloat [_ [_ [Hnoint _]]]]]]]].
  destruct (@safe_coercions_by_design decimal_builtins (VStr "Yes"))
    as [_ [_ [Hbool _]]].
  destruct (@safe_coercions_by_design decimal_builtins (VBool false))
    as [_ [_ [_ [_ [_ [_ [_ [_ [_ [Hsame _]]]]]]]]]].
  destruct (@safe_coercions_by_design decimal_builtins (VInt 0))
    as [_ [_ [_ [_ [_ [_ [_ [_ [_ [_ [_ [Hzero _]]]]]]]]]]]].
  destruct (@safe_coercions_by_design decimal_builtins (VInt 2))
    as [_ [_ [_ [_ [_ [_ [_ [_ [_ [_ [Htruth _]]]]]]]]]]].
  split; [apply Hfloat; reflexivity|].
  split; [apply Hint; reflexivity|].
  split; [apply (Hnofloat ValueError); reflexivity|].
  split; [apply (Hnoint ValueError); reflexivity|].
  split; [apply (Hbool "Yes"); reflexivity|].
  split; [apply (Hsame false); reflexivity|].
  split; [apply (Hzero 0); reflexivity|].
  apply Htruth; discriminate.
Defined.

(** The textual forms [safe_bool] accepts, whatever their case. *)
Example safe_bool_accepts :
  map safe_bool [VStr "true"; VStr "TRUE"; VStr "1"; VStr "Yes"; VStr "yes"]
  = [VBool true; VBool true; VBool true; VBool true; VBool true].
Proof. reflexivity. Qed.

(** C6 fails as stated: a string that is no boolean literal does not give
    None but the fabricated value False. *)
Lemma safe_bool_unparseable_gives_False :
  safe_bool (VStr "maybe") = VBool false /\ safe_bool (VStr "maybe") <> VNone.
Proof. split; [reflexivity | discriminate]. Qed.

(** The coercions catch ValueError and TypeError only: an int beyond the
    range of a double leaves [safe_numeric], and an infinite float leaves
    [safe_int], as an OverflowError. *)
Lemma safe_coercions_overflow `{PyBuiltins} :
  safe_numeric (VInt (2 ^ 1024)) = Raise OverflowError /\
  (forall s, safe_int (VFloat (S754_infinity s)) = Raise OverflowError).
Proof.
  split; [|reflexivity].
  unfold safe_numeric, py_float. simpl is_none. cbv iota.
  replace (float_of_Z (2 ^ 1024)) with (S754_infinity false) by (vm_compute; reflexivity).
  reflexivity.
Qed.

(** ** json.dumps keeps every member *)

Lemma append_assoc (a b c : string) : (a +:+ b) +:+ c = a +:+ (b +:+ c).
Proof.
  induction a as [|ch a IH]; [reflexivity|].
  change (String ch ((a +:+ b) +:+ c) = String ch (a +:+ (b +:+ c))). now rewrite IH.
Qed.

Lemma append_nil_r (s : string) : s +:+ "" = s.
Proof.
  induction s as [|c s IH]; [reflexivity|].
  change (String c (s +:+ "") = String c s). now rewrite IH.
Qed.

(** [s] occurs in [t]. *)
Definition occurs_in (s t : string) : Prop :=
  exists pre post, t = pre +:+ s +:+ post.

Lemma occurs_in_refl (s : string) : occurs_in s s.
Proof.
  exists "", "". symmetry. apply append_nil_r.
Qed.

Lemma occurs_in_left (s t u : string) : occurs_in s t -> occurs_in s (t +:+ u).
Proof.
  intros [pre [post ->]]. exists pre, (post +:+ u). now rewrite !append_assoc.
Qed.

Lemma occurs_in_right (s t u : string) : occurs_in s t -> occurs_in s (u +:+ t).
Proof.
  intros [pre [post ->]]. exists (u +:+ pre), post. now rewrite !append_assoc.
Qed.

Lemma join_occurs (sep p : string) (parts : list string) :
  In p parts -> occurs_in p (join sep parts).
Proof.
  induction parts as [|q parts IH]; [intros []|].
  intros [->|Hp].
  - destruct parts; simpl; [apply occurs_in_refl | apply occurs_in_left, occurs_in_refl].
  - destruct parts as [|q' parts]; [destruct Hp|].
    change (join sep (q :: q' :: parts)) with (q +:+ sep +:+ join sep (q' :: parts)).
    apply occurs_in_right, occurs_in_right, IH, Hp.
Qed.

Section DumpsFacts.
Context `{PyBuiltins}.

Lemma json_dumps_dict (d : pydict) :
  json_dumps (VDict d)
  = "{" +:+ join ", " (map (fun kv => json_member (fst kv) (snd kv)) d) +:+ "}".
Proof. reflexivity. Qed.

(** Every member of a dict, whatever its key, stands in the text. *)
Lemma json_dumps_member (d : pydict) (k : string) (v : pyval) :
  In (k, v) d -> occurs_in (json_member k v) (json_dumps (VDict d)).
Proof.
  intros Hkv. rewrite json_dumps_dict.
  apply occurs_in_right, occurs_in_left, join_occurs.
  apply in_map_iff. exists (k, v). split; [reflexivity | exact Hkv].
Qed.
End DumpsFacts.

(** ** transform.py: flattening *)

(** The row both flatten functions give for a payload they do not read. *)
Definition input_all_none : pydict :=
  [ ("inp_value", VNone); ("inp_unit", VNone); ("inp_start_year", VNone);
    ("inp_end_year", VNone); ("inp_input_type", VNone); ("inp_timeframe", VNone);
    ("inp_dosing_type", VNone); ("inp_actuals_flag", VNone); ("inp_curve_type", VNone);
    ("inp_selected_output", VNone); ("inp_pfs_flag", VNone); ("inp_ppc_flag", VNone);
    ("input_data_full_text", VNone) ].

Definition event_all_none : pydict :=
  [ ("evt_year", VNone); ("evt_share_value", VNone); ("evt_entry_quarter", VNone);
    ("evt_erosion_rate", VNone); ("evt_launch_date", VNone); ("evt_steady_state", VNone);
    ("evt_sob_value", VNone); ("event_data_full_text", VNone) ].

Definition is_dict_or_str (v : pyval) : bool :=
  match v with
  | VDict _ | VStr _ => true
  | _ => false
  end.

Section FlattenFacts.
Context `{PyBuiltins}.

Lemma flatten_input_data_raises (p : pyval) (x : exn) :
  flatten_input_data p = Raise x -> x = OverflowError.
Proof.
  unfold flatten_input_data.
  repeat (bind_cases; [|intros [= <-];
    first [eapply safe_numeric_raises; eassumption | eapply safe_int_raises; eassumption]]).
  discriminate.
Qed.

Lemma flatten_event_data_raises (p : pyval) (x : exn) :
  flatten_event_data p = Raise x -> x = OverflowError.
Proof.
  unfold flatten_event_data.
  repeat (bind_cases; [|intros [= <-];
    first [eapply safe_numeric_raises; eassumption | eapply safe_int_raises; eassumption]]).
  discriminate.
Qed.

(** The entries of a flat row are named after the keys of config.py. *)
Lemma flatten_keys (p : pyval) (flat : pydict) :
  (flatten_input_data p = Ok flat ->
   map fst flat = (map (String.append "inp_") INPUT_DATA_KEYS ++ ["input_data_full_text"])%list)
  /\
  (flatten_event_data p = Ok flat ->
   map fst flat = (map (String.append "evt_") EVENT_DATA_KEYS ++ ["event_data_full_text"])%list).
Proof.
  split.
  - unfold flatten_input_data. repeat (bind_cases; [|discriminate]).
    intros [= <-]. reflexivity.
  - unfold flatten_event_data. repeat (bind_cases; [|discriminate]).
    intros [= <-]. reflexivity.
Qed.

(** A payload that is neither a dict nor a string is not read at all. *)
Lemma flatten_unread (p : pyval) :
  is_dict_or_str p = false ->
  flatten_input_data p = Ok input_all_none /\ flatten_event_data p = Ok event_all_none.
Proof.
  destruct p; simpl; try discriminate; intros _; split; reflexivity.
Qed.

(** A string is read as the value [json.loads] gives, and as the empty
    dict when it raises. *)
Lemma flatten_string (s : string) :
  (json_loads s = None ->
   flatten_input_data (VStr s) = Ok input_all_none /\
   flatten_event_data (VStr s) = Ok event_all_none) /\
  (forall d, json_loads s = Some (VDict d) ->
   flatten_input_data (VStr s) = flatten_input_data (VDict d) /\
   flatten_event_data (VStr s) = flatten_event_data (VDict d)).
Proof.
  split.
  - intros E. unfold flatten_input_data, flatten_event_data, as_payload. rewrite E.
    split; reflexivity.
  - intros d E. unfold flatten_input_data, flatten_event_data, as_payload. rewrite E.
    split; reflexivity.
Qed.
End FlattenFacts.

(** C4, as the code has it.  For a dict payload on which the numeric
    coercions of the known keys return, [flatten_input_data] and
    [flatten_event_data] return a row whose typed entries are the coerced
    values of the known keys and whose fallback entry is [full_text] of the
    payload; for a non-empty dict that is the text [json.dumps] gives, in
    which every member stands, known key or not; for the empty dict the
    fallback is None.  A string that [json.loads] parses to a dict is
    flattened as that dict.  A payload that is neither a dict nor a
    string, and a string that [json.loads] does not parse, give a row in
    which every entry is None, the fallback included. *)
Theorem flatten_keeps_dict_payload `{PyBuiltins} (d : pydict) :
  (returns (safe_numeric (get d "value")) ->
   returns (safe_int (get d "start_year")) ->
   returns (safe_int (get d "end_year")) ->
   exists flat, flatten_input_data (VDict d) = Ok flat /\
     safe_numeric (get d "value") = Ok (get flat "inp_value") /\
     get flat "inp_unit" = get d "unit" /\
     safe_int (get d "start_year") = Ok (get flat "inp_start_year") /\
     safe_int (get d "end_year") = Ok (get flat "inp_end_year") /\
     get flat "inp_input_type" = get d "input_type" /\
     get flat "inp_timeframe" = get d "timeframe" /\
     get flat "inp_dosing_type" = get d "dosing_type" /\
     get flat "inp_actuals_flag" = safe_bool (get d "actuals_flag") /\
     get flat "inp_curve_type" = get d "curve_type" /\
     get flat "inp_selected_output" = get d "selected_output" /\
     get flat "inp_pfs_flag" = safe_bool (get d "pfs_flag") /\
     get flat "inp_ppc_flag" = safe_bool (get d "ppc_flag") /\
     get flat "input_data_full_text" = full_text (VDict d)) /\
  (returns (safe_int (get d "year")) ->
   returns (safe_numeric (get d "share_value")) ->
   returns (safe_numeric (get d "erosion_rate")) ->
   returns (safe_numeric (get d "steady_state")) ->
   returns (safe_numeric (get d "sob_value")) ->
   exists flat, flatten_event_data (VDict d) = Ok flat /\
     safe_int (get d "year") = Ok (get flat "evt_year") /\
     safe_numeric (get d "share_value") = Ok (get flat "evt_share_value") /\
     get flat "evt_entry_quarter" = get d "entry_quarter" /\
     safe_numeric (get d "erosion_rate") = Ok (get flat "evt_erosion_rate") /\
     get flat "evt_launch_date" = get d "launch_date" /\
     safe_numeric (get d "steady_state") = Ok (get flat "evt_steady_state") /\
     safe_numeric (get d "sob_value") = Ok (get flat "evt_sob_value") /\
     get flat "event_data_full_text" = full_text (VDict d)) /\
  (d <> [] ->
   full_text (VDict d) = VStr (json_dumps (VDict d)) /\
   forall k v, In (k, v) d -> occurs_in (json_member k v) (json_dumps (VDict d))) /\
  full_text (VDict []) = VNone /\
  (forall s, json_loads s = Some (VDict d) ->
     flatten_input_data (VStr s) = flatten_input_data (VDict d) /\
     flatten_event_data (VStr s) = flatten_event_data (VDict d)) /\
  (forall p, is_dict_or_str p = false ->
     flatten_input_data p = Ok input_all_none /\ flatten_event_data p = Ok event_all_none) /\
  (forall s, json_loads s = None ->
     flatten_input_data (VStr s) = Ok input_all_none /\
     flatten_event_data (VStr s) = Ok event_all_none) /\
  Forall (fun entry => snd entry = VNone) input_all_none /\
  Forall (fun entry => snd entry = VNone) event_all_none.
Proof.
  split; [|split; [|split; [|split; [|split; [|split; [|split; [|split]]]]]]].
  - intros [a Ea] [b Eb] [c Ec]. eexists. split.
    + unfold flatten_input_data, as_payload, safe_get. rewrite Ea, Eb, Ec. cbn [bind].
      reflexivity.
    + repeat split; try reflexivity; assumption.
  - intros [a Ea] [b Eb] [c Ec] [f Ef] [g Eg]. eexists. split.
    + unfold flatten_event_data, as_payload, safe_get. rewrite Ea, Eb, Ec, Ef, Eg.
      cbn [bind]. reflexivity.
    + repeat split; try reflexivity; assumption.
  - intros Hd. split.
    + destruct d; [congruence | reflexivity].
    + intros k v. apply json_dumps_member.
  - reflexivity.
  - intros s. apply flatten_string.
  - apply flatten_unread.
  - intros s. apply flatten_string.
  - repeat constructor.
  - repeat constructor.
Qed.

(** The payload of the examples: two known keys and one the flatten set
    does not name. *)
Definition sample_payload : pydict :=
  [ ("value", VInt 5); ("unit", VStr "mg"); ("note", VStr "as agreed") ].

(** The sample payload: its known keys are extracted and its unknown key
    stands in the fallback text; a text that is no JSON and a number give
    the row of Nones. *)
Lemma flatten_keeps_dict_payload_witness :
  (exists flat,
     @flatten_input_data decimal_builtins (VDict sample_payload) = Ok flat /\
     @safe_numeric decimal_builtins (VInt 5) = Ok (get flat "inp_value") /\
     get flat "inp_unit" = VStr "mg" /\
     get flat "input_data_full_text"
       = VStr (@json_dumps decimal_builtins (VDict sample_payload)) /\
     occurs_in (@json_member decimal_builtins "note" (VStr "as agreed"))
       (@json_dumps decimal_builtins (VDict sample_payload))) /\
  @flatten_input_data decimal_builtins (VStr "not json") = Ok input_all_none /\
  @flatten_event_data decimal_builtins (VInt 7) = Ok event_all_none.
Proof.
  destruct (@flatten_keeps_dict_payload decimal_builtins sample_payload)
    as [Hinput [_ [Htext [_ [_ [Hother [Hbroken _]]]]]]].
  split; [|split; [apply (Hbroken "not json"); reflexivity
                  | apply (Hother (VInt 7)); reflexivity]].
  destruct Hinput as [flat [Hflat [Hvalue [Hunit Hrest]]]];
    [eexists; reflexivity | eexists; reflexivity | eexists; reflexivity |].
  destruct Htext as [Hfull Hmember]; [discriminate|].
  exists flat. split; [exact Hflat|].
  split; [exact Hvalue|].
  split; [exact Hunit|].
  split.
  - rewrite <- Hfull. apply Hrest.
  - apply Hmember. simpl. auto.
Defined.

(** C4 fails as stated: a payload that is a JSON array is replaced by the
    empty dict, so neither its known key nor the rest of it reaches the
    row, and the fallback entry is None. *)
Lemma flatten_drops_array_payload :
  exists flat,
    @flatten_input_data decimal_builtins (VList [VDict sample_payload]) = Ok flat /\
    get flat "inp_unit" = VNone /\
    get flat "input_data_full_text" = VNone.
Proof.
  exists input_all_none. repeat split.
Qed.

(** ** transform.py: the row transforms *)

Lemma for_each_raised {A B : Type} (f : A -> result B) (rows : list A) (x : exn) :
  for_each f rows = Raise x -> exists r, In r rows /\ f r = Raise x.
Proof.
  induction rows as [|r rows IH]; simpl; [discriminate|].
  destruct (f r) as [t|y] eqn:E; cbn [bind].
  - destruct (for_each f rows) as [ts|y]; cbn [bind]; [discriminate|].
    intros [= <-]. destruct (IH eq_refl) as [r' [Hr' E']]. eauto.
  - intros [= <-]. eauto.
Qed.

(** A transform made of one tuple display returns one tuple per record of
    its query. *)
Lemma plain_transform_total (cols : list string) (fs : list field) (rows : list pydict) :
  forallb (fun k => str_in k cols) (items fs) = true ->
  Forall (has_columns cols) rows ->
  exists ts, for_each (tuple_of fs) rows = Ok ts /\ length ts = length rows /\
             Forall (fun t => length t = length fs) ts.
Proof.
  intros Hfs Hrows. induction Hrows as [|r rows Hr _ IH]; simpl.
  - exists []. repeat split. constructor.
  - destruct (tuple_of_returns cols fs r Hr Hfs) as [t [-> Ht]].
    destruct IH as [ts [-> [Hlen Hall]]]. exists (t :: ts). simpl.
    repeat split; [now rewrite Hlen | now constructor].
Qed.

(** The four transforms without a payload return one tuple per record of
    their extraction query. *)
Lemma plain_transforms_total (rows : list pydict) :
  (Forall (has_columns scenario_columns) rows ->
   exists ts, transform_scenarios rows = Ok ts /\ length ts = length rows) /\
  (Forall (has_columns run_columns) rows ->
   exists ts, transform_runs rows = Ok ts /\ length ts = length rows) /\
  (Forall (has_columns node_calc_columns) rows ->
   exists ts, transform_node_calc rows = Ok ts /\ length ts = length rows) /\
  (Forall (has_columns timeline_columns) rows ->
   exists ts, transform_timeline rows = Ok ts /\ length ts = length rows).
Proof.
  repeat split; intros Hrows.
  - destruct (plain_transform_total scenario_columns scenario_fields rows eq_refl Hrows)
      as [ts [E [Hlen _]]]. eauto.
  - destruct (plain_transform_total run_columns run_fields rows eq_refl Hrows)
      as [ts [E [Hlen _]]]. eauto.
  - destruct (plain_transform_total node_calc_columns node_calc_fields rows eq_refl Hrows)
      as [ts [E [Hlen _]]]. eauto.
  - destruct (plain_transform_total timeline_columns timeline_fields rows eq_refl Hrows)
      as [ts [E [Hlen _]]]. eauto.
Qed.

Section NodeDataFacts.
Context `{PyBuiltins}.

(** On a record of [extract_node_data] the subscript
    [r["validation_message"]] names a column the query does not select. *)
Lemma node_validation_message_raises (r : pydict) :
  has_columns node_data_columns r ->
  truthy (get r "input_validation_message") = true ->
  node_validation_message r = Raise (KeyError "validation_message").
Proof.
  intros Hr Hmsg. unfold node_validation_message. rewrite Hmsg.
  rewrite (getitem_absent node_data_columns r "validation_message" Hr eq_refl).
  reflexivity.
Qed.

Lemma node_data_tuple_raises (r : pydict) :
  has_columns node_data_columns r ->
  truthy (get r "input_validation_message") = true ->
  node_data_tuple r = Raise (KeyError "validation_message")
  \/ node_data_tuple r = Raise OverflowError.
Proof.
  intros Hr Hmsg. unfold node_data_tuple.
  rewrite (getitem_present node_data_columns r "input_data" Hr eq_refl). cbn [bind].
  destruct (flatten_input_data (get r "input_data")) as [flat|x] eqn:Eflat; cbn [bind].
  2: { right. now rewrite (flatten_input_data_raises _ _ Eflat). }
  rewrite (getitem_present node_data_columns r "version_ended_at" Hr eq_refl). cbn [bind].
  match goal with |- context [bind (tuple_of ?fs r) _] =>
    destruct (tuple_of_returns node_data_columns fs r Hr eq_refl) as [hd [-> _]] end.
  cbn [bind].
  match goal with |- context [bind (tuple_of ?fs r) _] =>
    destruct (tuple_of_returns node_data_columns fs r Hr eq_refl) as [mid [-> _]] end.
  cbn [bind].
  rewrite (node_validation_message_raises r Hr Hmsg). now left.
Qed.
End NodeDataFacts.

(** C1, at the input on which the code breaks it.  A batch of records of
    [extract_node_data] in which one record carries a validation message is
    not transformed: [transform_node_data] raises, so every record of the
    batch is dropped. *)
Theorem transform_node_data_raises_on_validation_message `{PyBuiltins}
    (rows : list pydict) (r : pydict) :
  In r rows ->
  has_columns node_data_columns r ->
  truthy (get r "input_validation_message") = true ->
  exists x, transform_node_data rows = Raise x.
Proof.
  intros Hin Hr Hmsg. unfold transform_node_data.
  apply (for_each_raises node_data_tuple rows r Hin).
  destruct (node_data_tuple_raises r Hr Hmsg) as [E|E]; rewrite E; eauto.
Qed.

(** A record of [extract_node_data] whose validation failed. *)
Definition failing_node_record : pydict :=
  [ ("id", VStr "7f3c"); ("scenario_id", VStr "a001"); ("model_node_id", VStr "b002");
    ("input_data", VDict sample_payload); ("input_hash", VStr "h1");
    ("input_validated", VBool false);
    ("input_validation_message", VStr "Value out of range");
    ("source", VStr "ui"); ("version_started_at", VInt 1700000000000000);
    ("version_ended_at", VNone); ("edited_by", VStr "ann");
    ("node_display_name", VStr "Dose"); ("node_type", VStr "input");
    ("node_seq", VInt 1); ("flow", VStr "main"); ("group_name", VStr "G");
    ("group_type", VStr "std"); ("group_seq", VInt 1); ("tab_name", VStr "T");
    ("tab_level", VInt 1); ("tab_seq", VInt 1) ].

(** The batch of that one record is not transformed. *)
Lemma transform_node_data_raises_witness :
  exists x, @transform_node_data decimal_builtins [failing_node_record] = Raise x.
Proof.
  apply (@transform_node_data_raises_on_validation_message decimal_builtins
           [failing_node_record] failing_node_record).
  - left. reflexivity.
  - reflexivity.
  - reflexivity.
Defined.

Example transform_node_data_KeyError :
  @transform_node_data decimal_builtins [failing_node_record]
  = Raise (KeyError "validation_message").
Proof. vm_compute. reflexivity. Qed.

(** ** extract.py: the watermark store *)

(** Reading the watermark writes nothing. *)
Lemma get_watermark_frame (E : env) (e : entity) (name : string) (w w' : world)
    (r : result Z) :
  get_watermark E e name w = (w', r) ->
  clock w <= clock w' /\ etl_watermark w' = etl_watermark w /\ tables w' = tables w /\
  log w' = log w.
Proof.
  unfold get_watermark. destruct (fault E e OpReadWatermark).
  - intros [= <- _]. simpl. repeat split. lia.
  - simpl. destruct (etl_watermark w !! name); intros [= <- _]; simpl; repeat split; lia.
Qed.

(** C5.  When the read of the watermark table does not fail,
    [get_watermark] returns the stored [last_fetched_at] less the overlap
    window of OVERLAP_SEC = 90 seconds if the entity has a row, and
    2020-01-01 00:00:00 if it has none. *)
Theorem get_watermark_overlap_or_epoch (E : env) (e : entity) (name : string) (w : world) :
  fault E e OpReadWatermark = None ->
  snd (get_watermark E e name w)
  = match etl_watermark w !! name with
    | Some row => Ok (last_fetched_at row - seconds OVERLAP_SEC)
    | None => Ok datetime_2020_1_1
    end
  /\ seconds OVERLAP_SEC = 90 * 1000000
  /\ datetime_2020_1_1 = 1577836800 * 1000000.
Proof.
  intros Hfault. unfold get_watermark. rewrite Hfault. simpl.
  split; [|split; reflexivity].
  destruct (etl_watermark w !! name); reflexivity.
Qed.

(** ** The surroundings and the state of the examples *)

(** The target after [setup_target.py]: the seeded watermark rows and the
    empty tables, at 12:00:00 on 2024-01-01. *)
Definition seeded_row : wm_row := mk_wm datetime_2020_1_1 0 None 0.

Definition provisioned : world :=
  mk_world (seconds 1704110400)
    (list_to_map
       [ ("public.fc_scenario", seeded_row); ("public.fc_scenario_node_data", seeded_row);
         ("public.fc_scenario_run", seeded_row); ("public.fc_scenario_node_calc", seeded_row);
         ("public.fc_scenario_event_data", seeded_row);
         ("public.fc_scenario_run_branch", seeded_row); ("timeline", seeded_row) ])
    (list_to_map
       [ ("dim_scenario", mk_table [] 0); ("fact_node_input_history", mk_table [] 0);
         ("fact_run_summary", mk_table [] 0); ("fact_node_calc_results", mk_table [] 0);
         ("fact_event_input_history", mk_table [] 0);
         ("fact_scenario_timeline", mk_table [] 0) ])
    [] [].

(** Stores that answer every request within 2 ms and refuse nothing, and
    a source whose extraction queries answer [rows_of]. *)
Definition calm (rows_of : entity -> result (list pydict)) : env :=
  mk_env (fun e _ => rows_of e) (fun _ _ => None) (fun _ _ => true) (fun _ => 2000%N).

Definition nothing_new : env := calm (fun _ => Ok []).

(** A seeded row gives the epoch less the overlap; a name without a row
    gives the epoch. *)
Lemma get_watermark_witness :
  snd (get_watermark nothing_new Timeline "timeline" provisioned)
  = Ok (datetime_2020_1_1 - 90 * 1000000)
  /\ snd (get_watermark nothing_new Timeline "unknown" provisioned)
     = Ok (1577836800 * 1000000).
Proof.
  split.
  - apply (proj1 (get_watermark_overlap_or_epoch nothing_new Timeline "timeline"
                    provisioned eq_refl)).
  - apply (proj1 (get_watermark_overlap_or_epoch nothing_new Timeline "unknown"
                    provisioned eq_refl)).
Defined.

(** ** db.py: what a call of the batch writer does *)

Lemma executemany_target_empty (E : env) (e : entity) (T : target_table) (w : world) :
  executemany_target E e T [] w = (w, Ok 0).
Proof. reflexivity. Qed.

(** The batch writer unfolded for a batch that is not empty. *)
Lemma executemany_target_cases (E : env) (e : entity) (T : target_table)
    (rows : list (list pyval)) (w w' : world) (r : result Z) :
  rows <> [] ->
  executemany_target E e T rows w = (w', r) ->
  let w1 := tick (latency E e) (emit (TargetConnect "pool") w) in
  (exists x, fault E e OpWrite = Some x /\ w' = w1 /\ r = Raise x)
  \/ (fault E e OpWrite = None /\ tables w !! into T = None /\
      w' = emit TxRollback w1 /\ r = Raise (DatabaseError "relation does not exist"))
  \/ (exists tb tb' evs,
        fault E e OpWrite = None /\ tables w !! into T = Some tb /\
        ((exists x, (execute_pages T (accepts E e) (clock w1) tb (pages 500 rows)
                     = (tb', evs, Raise x)
                     \/ (execute_pages T (accepts E e) (clock w1) tb (pages 500 rows)
                         = (tb', evs, Ok tt) /\ fault E e OpCommit = Some x)) /\
                    w' = emit TxRollback
                           (set_table (into T) (rolled_back tb tb') (emits evs w1)) /\
                    r = Raise x)
         \/ (execute_pages T (accepts E e) (clock w1) tb (pages 500 rows) = (tb', evs, Ok tt) /\
             fault E e OpCommit = None /\
             w' = emit TxCommit (set_table (into T) tb' (emits evs w1)) /\
             r = Ok (Z.of_nat (length rows))))).
Proof.
  intros Hrows Hcall. unfold executemany_target in Hcall.
  destruct rows as [|t rows]; [congruence|]. cbv zeta in Hcall.
  destruct (fault E e OpWrite) as [x|].
  { injection Hcall as <- <-. left. eauto. }
  right. change (tables (tick (latency E e) (emit (TargetConnect "pool") w)))
    with (tables w) in Hcall.
  destruct (tables w !! into T) as [tb|].
  2: { injection Hcall as <- <-. left. auto. }
  right.
  destruct (execute_pages T (accepts E e) _ tb (pages 500 (t :: rows)))
    as [[tb' evs] [[]|x]] eqn:Epages.
  - destruct (fault E e OpCommit) as [x|] eqn:Ecommit; injection Hcall as <- <-;
      exists tb, tb', evs; repeat split; eauto 10.
  - injection Hcall as <- <-. exists tb, tb', evs. repeat split. left. exists x. eauto.
Qed.

(** The count a call returns is the length of its batch. *)
Lemma executemany_target_count (E : env) (e : entity) (T : target_table)
    (rows : list (list pyval)) (w w' : world) (n : Z) :
  executemany_target E e T rows w = (w', Ok n) -> n = Z.of_nat (length rows).
Proof.
  destruct rows as [|t rows]; [intros [= _ <-]; reflexivity|].
  intros Hcall. apply executemany_target_cases in Hcall; [|discriminate].
  destruct Hcall as [[x [_ [_ Hr]]] | [[_ [_ [_ Hr]]] | [tb [tb' [evs [_ [_ Hr]]]]]]];
    try discriminate.
  destruct Hr as [[x [_ [_ Hr]]] | [_ [_ [_ Hr]]]]; [discriminate|].
  congruence.
Qed.

Lemma lookup_set_table_ne (name other : string) (t : table) (w : world) :
  other <> name -> tables (set_table name t w) !! other = tables w !! other.
Proof.
  intros Hne. unfold set_table. simpl. apply lookup_insert_ne. congruence.
Qed.

Lemma lookup_set_table (name : string) (t : table) (w : world) :
  tables (set_table name t w) !! name = Some t.
Proof.
  unfold set_table. simpl. apply lookup_insert_eq.
Qed.

(** A call touches no table but its own, never the watermarks, never the
    log, and the clock only moves forward. *)
Lemma executemany_target_frame (E : env) (e : entity) (T : target_table)
    (rows : list (list pyval)) (w w' : world) (r : result Z) :
  executemany_target E e T rows w = (w', r) ->
  clock w <= clock w' /\ etl_watermark w' = etl_watermark w /\ log w' = log w /\
  forall other, other <> into T -> tables w' !! other = tables w !! other.
Proof.
  destruct rows as [|t rows]; [intros [= <- _]; repeat split; lia|].
  intros Hcall. apply executemany_target_cases in Hcall; [|discriminate].
  destruct Hcall as [[x [_ [-> _]]] | [[_ [_ [-> _]]] | [tb [tb' [evs [_ [_ Hr]]]]]]].
  - simpl. repeat split; lia.
  - simpl. repeat split; lia.
  - destruct Hr as [[x [_ [-> _]]] | [_ [_ [-> _]]]]; simpl;
      (repeat split; [lia|]); intros other Hne; apply lookup_insert_ne; congruence.
Qed.

(** A call that raises leaves the rows of every table as they were. *)
Lemma executemany_target_rollback (E : env) (e : entity) (T : target_table)
    (rows : list (list pyval)) (w w' : world) (x : exn) :
  executemany_target E e T rows w = (w', Raise x) ->
  forall name tb, tables w !! name = Some tb ->
  exists tb', tables w' !! name = Some tb' /\ trows tb' = trows tb.
Proof.
  destruct rows as [|t rows]; [discriminate|].
  intros Hcall name tb Hname. apply executemany_target_cases in Hcall; [|discriminate].
  destruct Hcall as [[y [_ [-> _]]] | [[_ [_ [-> _]]] | [tb0 [tb' [evs [_ [Htb Hr]]]]]]].
  - exists tb. split; [exact Hname | reflexivity].
  - exists tb. split; [exact Hname | reflexivity].
  - destruct Hr as [[y [_ [-> _]]] | [_ [_ [_ Hr]]]]; [|discriminate].
    destruct (String.eqb_spec name (into T)) as [->|Hne].
    + exists (rolled_back tb0 tb'). split.
      * simpl. apply lookup_insert_eq.
      * simpl. congruence.
    + exists tb. split; [|reflexivity].
      simpl. rewrite lookup_insert_ne by congruence. exact Hname.
Qed.

(** ** Equality of keys *)

Lemma float_eqb_eq (f g : spec_float) : float_eqb f g = true <-> f = g.
Proof.
  destruct f, g; simpl; try (split; [discriminate | congruence]); try tauto.
  - rewrite Bool.eqb_true_iff. split; congruence.
  - rewrite Bool.eqb_true_iff. split; congruence.
  - rewrite !andb_true_iff, Bool.eqb_true_iff, Pos.eqb_eq, Z.eqb_eq.
    split; [intros [[-> ->] ->]; reflexivity | intros [= -> -> ->]; auto].
Qed.

(** The induction principle that reaches inside lists and dicts. *)
Section PyvalInd.
Variable P : pyval -> Prop.
Hypothesis HNone : P VNone.
Hypothesis HBool : forall b, P (VBool b).
Hypothesis HInt : forall z, P (VInt z).
Hypothesis HFloat : forall f, P (VFloat f).
Hypothesis HStr : forall s, P (VStr s).
Hypothesis HOpaque : forall s, P (VOpaque s).
Hypothesis HList : forall l, Forall P l -> P (VList l).
Hypothesis HDict : forall d, Forall (fun kv => P (snd kv)) d -> P (VDict d).

Fixpoint pyval_nested_ind (v : pyval) : P v :=
  match v with
  | VNone => HNone
  | VBool b => HBool b
  | VInt z => HInt z
  | VFloat f => HFloat f
  | VStr s => HStr s
  | VOpaque s => HOpaque s
  | VList l =>
      HList l ((fix go (l : list pyval) : Forall P l :=
                  match l with
                  | [] => @List.Forall_nil _ P
                  | x :: xs => @List.Forall_cons _ P x xs (pyval_nested_ind x) (go xs)
                  end) l)
  | VDict d =>
      HDict d ((fix go (d : pydict) : Forall (fun kv => P (snd kv)) d :=
                  match d with
                  | [] => @List.Forall_nil _ _
                  | kv :: xs => @List.Forall_cons _ _ kv xs (pyval_nested_ind (snd kv)) (go xs)
                  end) d)
  end.
End PyvalInd.

(** [pyval_eqb] decides equality. *)
Lemma pyval_eqb_eq (a : pyval) : forall b, pyval_eqb a b = true <-> a = b.
Proof.
  induction a using pyval_nested_ind; intros other; destruct other; simpl;
    try (split; [discriminate | congruence]); try tauto.
  - rewrite Bool.eqb_true_iff. split; congruence.
  - rewrite Z.eqb_eq. split; congruence.
  - rewrite float_eqb_eq. split; congruence.
  - rewrite String.eqb_eq. split; congruence.
  - rewrite String.eqb_eq. split; congruence.
  - revert l0. induction H as [|x xs Hx _ IH]; intros [|y ys];
      try (split; [discriminate | congruence]); try tauto.
    rewrite andb_true_iff, Hx, IH.
    split; [intros [-> [= ->]]; reflexivity | intros [= -> ->]; auto].
  - revert d0. induction H as [|[k x] xs Hx _ IH]; intros [|[k' y] ys];
      try (split; [discriminate | congruence]); try tauto.
    simpl in Hx. rewrite !andb_true_iff, String.eqb_eq, Hx, IH.
    split; [intros [[-> ->] [= ->]]; reflexivity | intros [= -> -> ->]; auto].
Qed.

(** A stored row conflicts with a key exactly when the key is not null
    and is the value of the row's key column. *)
Lemma conflicts_iff (T : target_table) (k : pyval) (row : pydict) :
  conflicts T k row = true <-> k <> VNone /\ get row (conflict_key T) = k.
Proof.
  unfold conflicts. rewrite andb_true_iff, pyval_eqb_eq, negb_true_iff.
  destruct k; simpl; intuition congruence.
Qed.

(** ** The INSERT statement: what it keeps *)

(** The columns a statement may overwrite on a stored row. *)
Definition updated_columns (T : target_table) : list string :=
  match action T with
  | DoNothing => []
  | DoUpdate cols stamp => stamp :: cols
  end.

(** [new] is [old] but for the columns of [U]. *)
Definition kept (U : list string) (old new : pydict) : Prop :=
  map fst new = map fst old /\
  forall c, str_in c U = false -> dict_get new c = dict_get old c.

(** The rows of [rows] are all in [rows'], each at its place and kept but
    for the columns of [U]; [rows'] may have more rows after them. *)
Definition evolves (U : list string) (rows rows' : list pydict) : Prop :=
  exists upd app, rows' = (upd ++ app)%list /\ Forall2 (kept U) rows upd.

Lemma kept_refl (U : list string) (row : pydict) : kept U row row.
Proof. split; auto. Qed.

Lemma kept_trans (U : list string) (a b c : pydict) : kept U a b -> kept U b c -> kept U a c.
Proof.
  intros [Hk1 Hv1] [Hk2 Hv2]. split; [congruence|].
  intros col Hcol. rewrite Hv2, Hv1; auto.
Qed.

Lemma Forall2_kept_refl (U : list string) (rows : list pydict) : Forall2 (kept U) rows rows.
Proof. induction rows; constructor; auto using kept_refl. Qed.

Lemma evolves_refl (U : list string) (rows : list pydict) : evolves U rows rows.
Proof.
  exists rows, []. split; [now rewrite app_nil_r | apply Forall2_kept_refl].
Qed.

Lemma evolves_trans (U : list string) (a b c : list pydict) :
  evolves U a b -> evolves U b c -> evolves U a c.
Proof.
  intros [u1 [a1 [-> H1]]] [u2 [a2 [-> H2]]].
  apply Forall2_app_inv_l in H2. destruct H2 as [u2a [u2b [H2a [H2b ->]]]].
  exists u2a, (u2b ++ a2)%list. split; [now rewrite <- app_assoc|].
  clear H2b. revert u2a H2a. induction H1 as [|x y xs ys Hxy _ IH]; intros u2a H2a.
  - inversion H2a. constructor.
  - inversion H2a as [|y' z ys' zs Hyz Hrest]; subst. constructor.
    + eapply kept_trans; eauto.
    + apply IH, Hrest.
Qed.

Lemma evolves_app (U : list string) (rows more : list pydict) :
  evolves U rows (rows ++ more)%list.
Proof.
  exists rows, more. split; [reflexivity | apply Forall2_kept_refl].
Qed.

Lemma dict_get_set_col (col : string) (v : pyval) (row : pydict) (c : string) :
  dict_get (set_col col v row) c
  = if String.eqb c col then option_map (fun _ => v) (dict_get row c) else dict_get row c.
Proof.
  unfold set_col. induction row as [|[k x] row IH]; simpl.
  - now destruct (String.eqb c col).
  - destruct (String.eqb k col) eqn:Ek; simpl; destruct (String.eqb k c) eqn:Ekc;
      rewrite ?IH; simpl.
    + apply String.eqb_eq in Ek, Ekc. subst. now rewrite String.eqb_refl.
    + reflexivity.
    + apply String.eqb_eq in Ekc. subst. rewrite Ek. reflexivity.
    + reflexivity.
Qed.

Lemma dict_get_set_excluded (cols : list string) (p row : pydict) (c : string) :
  dict_get (set_excluded cols p row) c
  = if str_in c cols then option_map (fun _ => get p c) (dict_get row c) else dict_get row c.
Proof.
  unfold set_excluded. induction row as [|[k x] row IH]; simpl.
  - now destruct (str_in c cols).
  - destruct (str_in k cols) eqn:Ek; simpl; destruct (String.eqb k c) eqn:Ekc;
      rewrite ?IH; simpl.
    + apply String.eqb_eq in Ekc. subst. now rewrite Ek.
    + reflexivity.
    + apply String.eqb_eq in Ekc. subst. now rewrite Ek.
    + reflexivity.
Qed.

Lemma map_fst_set_col (col : string) (v : pyval) (row : pydict) :
  map fst (set_col col v row) = map fst row.
Proof.
  unfold set_col. induction row as [|[k x] row IH]; simpl; [reflexivity|].
  rewrite IH. now destruct (String.eqb k col).
Qed.

Lemma map_fst_set_excluded (cols : list string) (p row : pydict) :
  map fst (set_excluded cols p row) = map fst row.
Proof.
  unfold set_excluded. induction row as [|[k x] row IH]; simpl; [reflexivity|].
  rewrite IH. now destruct (str_in k cols).
Qed.

(** The row DO UPDATE writes keeps every column the SET list does not name. *)
Lemma updated_row_kept (cols : list string) (stamp : string) (now : Z) (p row : pydict) :
  kept (stamp :: cols) row (set_col stamp (VInt now) (set_excluded cols p row)).
Proof.
  split.
  - now rewrite map_fst_set_col, map_fst_set_excluded.
  - intros c Hc. unfold str_in in Hc. simpl in Hc. apply orb_false_iff in Hc.
    destruct Hc as [Hstamp Hcols].
    rewrite dict_get_set_col, Hstamp, dict_get_set_excluded.
    fold (str_in c cols) in Hcols. now rewrite Hcols.
Qed.

Lemma do_update_kept (T : target_table) (cols : list string) (stamp : string) (now : Z)
    (p : pydict) (k : pyval) (rows : list pydict) :
  Forall2 (kept (stamp :: cols)) rows (do_update T cols stamp now p k rows).
Proof.
  unfold do_update. induction rows as [|row rows IH]; simpl; constructor; [|exact IH].
  destruct (conflicts T k row); [apply updated_row_kept | apply kept_refl].
Qed.

Lemma insert_one_evolves (T : target_table) (ok : list pyval -> bool) (now : Z)
    (tb tb' : table) (wr wr' : list pyval) (t : list pyval) (r : result unit) :
  insert_one T ok now (tb, wr) t = ((tb', wr'), r) ->
  evolves (updated_columns T) (trows tb) (trows tb').
Proof.
  unfold insert_one, updated_columns.
  destruct (negb (ok t)); [intros [= <- _ _]; apply evolves_refl|].
  destruct (primary_key T && is_none _); [intros [= <- _ _]; apply evolves_refl|].
  destruct (existsb _ (trows tb)).
  - destruct (action T) as [|cols stamp]; [intros [= <- _ _]; apply evolves_refl|].
    destruct (key_in _ wr); intros [= <- _ _]; [apply evolves_refl|].
    simpl. eexists _, []. split; [now rewrite app_nil_r | apply do_update_kept].
  - intros [= <- _ _]. apply evolves_app.
Qed.

Lemma insert_rows_evolves (T : target_table) (ok : list pyval -> bool) (now : Z)
    (page : list (list pyval)) (st st' : stmt_state) (r : result unit) :
  insert_rows T ok now st page = (st', r) ->
  evolves (updated_columns T) (trows (fst st)) (trows (fst st')).
Proof.
  revert st st' r. induction page as [|t page IH]; simpl; intros st st' r.
  - intros [= <- _]. apply evolves_refl.
  - destruct st as [tb wr].
    destruct (insert_one T ok now (tb, wr) t) as [[tb1 wr1] [[]|x]] eqn:Eone.
    + intros Hrest. eapply evolves_trans; [eapply insert_one_evolves; eauto|].
      apply (IH _ _ _ Hrest).
    + intros [= <- _]. eapply insert_one_evolves; eauto.
Qed.

Lemma insert_page_evolves (T : target_table) (ok : list pyval -> bool) (now : Z)
    (tb tb' : table) (page : list (list pyval)) (r : result unit) :
  insert_page T ok now tb page = (tb', r) ->
  evolves (updated_columns T) (trows tb) (trows tb').
Proof.
  unfold insert_page. destruct (forallb _ page); [|intros [= <- _]; apply evolves_refl].
  destruct (insert_rows T ok now (tb, []) page) as [[tb1 wr1] r1] eqn:Erows.
  intros [= <- _]. apply (insert_rows_evolves _ _ _ _ _ _ _ Erows).
Qed.

Lemma execute_pages_evolves (T : target_table) (ok : list pyval -> bool) (now : Z)
    (ps : list (list (list pyval))) (tb tb' : table) (evs : list event) (r : result unit) :
  execute_pages T ok now tb ps = (tb', evs, r) ->
  evolves (updated_columns T) (trows tb) (trows tb').
Proof.
  revert tb tb' evs r. induction ps as [|p ps IH]; simpl; intros tb tb' evs r.
  - intros [= <- _ _]. apply evolves_refl.
  - destruct (insert_page T ok now tb p) as [tb1 [[]|x]] eqn:Epage.
    + destruct (execute_pages T ok now tb1 ps) as [[tb2 evs2] r2] eqn:Erest.
      intros [= <- _ _]. eapply evolves_trans; [eapply insert_page_evolves; eauto|].
      eapply IH; eauto.
    + intros [= <- _ _]. eapply insert_page_evolves; eauto.
Qed.

(** ** The INSERT statement: records offered again *)

(** The key a tuple proposes. *)
Definition key_of (T : target_table) (t : list pyval) : pyval :=
  get (proposed T t) (conflict_key T).

(** The tuple's key is that of a stored row. *)
Definition reoffered (T : target_table) (rows : list pydict) (t : list pyval) : Prop :=
  existsb (conflicts T (key_of T t)) rows = true.

Lemma Forall2_kept_trans (U : list string) (a b c : list pydict) :
  Forall2 (kept U) a b -> Forall2 (kept U) b c -> Forall2 (kept U) a c.
Proof.
  intros Hab. revert c. induction Hab as [|x y xs ys Hxy _ IH]; intros c Hbc.
  - inversion Hbc. constructor.
  - inversion Hbc as [|y' z ys' zs Hyz Hrest]; subst. constructor.
    + eapply kept_trans; eauto.
    + apply IH, Hrest.
Qed.

Lemma conflicts_kept (T : target_table) (U : list string) (k : pyval) (old new : pydict) :
  str_in (conflict_key T) U = false -> kept U old new ->
  conflicts T k new = conflicts T k old.
Proof.
  intros Hkey [_ Hsame]. unfold conflicts, get. now rewrite (Hsame _ Hkey).
Qed.

Lemma existsb_conflicts_kept (T : target_table) (U : list string) (k : pyval)
    (rows rows' : list pydict) :
  str_in (conflict_key T) U = false -> Forall2 (kept U) rows rows' ->
  existsb (conflicts T k) rows' = existsb (conflicts T k) rows.
Proof.
  intros Hkey Hrows. induction Hrows as [|x y xs ys Hxy _ IH]; simpl; [reflexivity|].
  now rewrite IH, (conflicts_kept T U k x y Hkey Hxy).
Qed.

(** A tuple offered again adds no row: the stored rows stay in place, kept
    but for the columns of the SET list; under DO NOTHING they stay as
    they are. *)
Lemma insert_one_reoffered (T : target_table) (ok : list pyval -> bool) (now : Z)
    (tb tb' : table) (wr wr' : list pyval) (t : list pyval) :
  reoffered T (trows tb) t ->
  insert_one T ok now (tb, wr) t = ((tb', wr'), Ok tt) ->
  Forall2 (kept (updated_columns T)) (trows tb) (trows tb') /\
  (action T = DoNothing -> trows tb' = trows tb).
Proof.
  unfold reoffered, key_of, insert_one, updated_columns. intros ->.
  destruct (negb (ok t)); [discriminate|].
  destruct (primary_key T && is_none _); [discriminate|].
  destruct (action T) as [|cols stamp].
  - intros [= <- _]. split; [apply Forall2_kept_refl | reflexivity].
  - destruct (key_in _ wr); [discriminate|]. intros [= <- _]. simpl.
    split; [apply do_update_kept | discriminate].
Qed.

Lemma insert_rows_reoffered (T : target_table) (ok : list pyval -> bool) (now : Z)
    (page : list (list pyval)) (st st' : stmt_state) :
  str_in (conflict_key T) (updated_columns T) = false ->
  Forall (reoffered T (trows (fst st))) page ->
  insert_rows T ok now st page = (st', Ok tt) ->
  Forall2 (kept (updated_columns T)) (trows (fst st)) (trows (fst st')) /\
  (action T = DoNothing -> trows (fst st') = trows (fst st)).
Proof.
  intros Hkey. revert st st'. induction page as [|t page IH]; simpl; intros st st' Hpage.
  - intros [= <-]. split; [apply Forall2_kept_refl | reflexivity].
  - destruct st as [tb wr]. inversion Hpage as [|t' page' Ht Hrest]; subst.
    destruct (insert_one T ok now (tb, wr) t) as [[tb1 wr1] [[]|x]] eqn:Eone; [|discriminate].
    intros Hrows. destruct (insert_one_reoffered _ _ _ _ _ _ _ _ Ht Eone) as [Hkept Hsame].
    assert (Hpage1 : Forall (reoffered T (trows (fst (tb1, wr1)))) page).
    { eapply Forall_impl; [exact Hrest|]. intros t0. unfold reoffered. simpl.
      now rewrite (existsb_conflicts_kept T _ _ _ _ Hkey Hkept). }
    destruct (IH _ _ Hpage1 Hrows) as [Hkept' Hsame']. simpl in *. split.
    + eapply Forall2_kept_trans; eauto.
    + intros Ha. now rewrite Hsame', Hsame.
Qed.

Lemma execute_pages_reoffered (T : target_table) (ok : list pyval -> bool) (now : Z)
    (ps : list (list (list pyval))) (tb tb' : table) (evs : list event) :
  str_in (conflict_key T) (updated_columns T) = false ->
  Forall (Forall (reoffered T (trows tb))) ps ->
  execute_pages T ok now tb ps = (tb', evs, Ok tt) ->
  Forall2 (kept (updated_columns T)) (trows tb) (trows tb') /\
  (action T = DoNothing -> trows tb' = trows tb).
Proof.
  intros Hkey. revert tb tb' evs. induction ps as [|p ps IH]; simpl; intros tb tb' evs Hps.
  - intros [= <- _]. split; [apply Forall2_kept_refl | reflexivity].
  - inversion Hps as [|p' ps' Hp Hrest]; subst.
    destruct (insert_page T ok now tb p) as [tb1 [[]|x]] eqn:Epage; [|discriminate].
    destruct (execute_pages T ok now tb1 ps) as [[tb2 evs2] r2] eqn:Erest.
    intros [= <- _ ->]. unfold insert_page in Epage.
    destruct (forallb _ p); [|discriminate].
    destruct (insert_rows T ok now (tb, []) p) as [[tb1' wr1] r1] eqn:Erows.
    injection Epage as -> ->.
    destruct (insert_rows_reoffered T ok now p (tb, []) (tb1, wr1) Hkey Hp Erows)
      as [Hkept Hsame].
    simpl in Hkept, Hsame.
    assert (Hps1 : Forall (Forall (reoffered T (trows tb1))) ps).
    { eapply Forall_impl; [exact Hrest|]. intros q Hq.
      eapply Forall_impl; [exact Hq|]. intros t0. unfold reoffered.
      now rewrite (existsb_conflicts_kept T _ _ _ _ Hkey Hkept). }
    destruct (IH _ _ _ Hps1 Erest) as [Hkept' Hsame']. split.
    + eapply Forall2_kept_trans; eauto.
    + intros Ha. now rewrite Hsame', Hsame.
Qed.

(** ** Paging *)

Lemma pages_fuel_Forall {A : Type} (P : A -> Prop) (fuel size : nat) (rows : list A) :
  Forall P rows -> Forall (Forall P) (pages_fuel fuel size rows).
Proof.
  revert rows. induction fuel as [|fuel IH]; intros rows Hrows.
  - destruct rows; constructor.
  - destruct rows as [|r rows]; [constructor|].
    change (Forall (Forall P) (take size (r :: rows)
                               :: pages_fuel fuel size (drop size (r :: rows)))).
    constructor; [now apply Forall_take | apply IH; now apply Forall_drop].
Qed.

(** The pages are the batch, cut in order: the fuel of [pages] is enough. *)
Lemma pages_fuel_concat {A : Type} (fuel size : nat) (rows : list A) :
  (0 < size)%nat -> (length rows <= fuel)%nat ->
  concat (pages_fuel fuel size rows) = rows.
Proof.
  intros Hsize. revert rows. induction fuel as [|fuel IH]; intros rows Hlen.
  - destruct rows; [reflexivity | simpl in Hlen; lia].
  - destruct rows as [|r rows]; [reflexivity|].
    change (take size (r :: rows) ++ concat (pages_fuel fuel size (drop size (r :: rows)))
            = r :: rows)%list.
    rewrite IH; [apply take_drop|].
    rewrite length_drop. simpl in *. lia.
Qed.

Lemma pages_concat {A : Type} (size : nat) (rows : list A) :
  (0 < size)%nat -> concat (pages size rows) = rows.
Proof.
  intros Hsize. apply pages_fuel_concat; [exact Hsize | reflexivity].
Qed.

Lemma pages_single {A : Type} (t : A) : pages 500 [t] = [[t]].
Proof. reflexivity. Qed.

(** ** The INSERT statement under DO NOTHING *)

Lemma insert_rows_DoNothing (T : target_table) (ok : list pyval -> bool) (now : Z)
    (page : list (list pyval)) (st : stmt_state) :
  action T = DoNothing -> primary_key T = false ->
  Forall (fun t => ok t = true) page ->
  exists st', insert_rows T ok now st page = (st', Ok tt).
Proof.
  intros Ha Hpk. revert st. induction page as [|t page IH]; simpl; intros st Hok.
  - eauto.
  - inversion Hok as [|t' page' Ht Hrest]; subst. destruct st as [tb wr].
    unfold insert_one. rewrite Ht, Hpk, Ha. simpl.
    destruct (existsb _ (trows tb)); apply IH, Hrest.
Qed.

Lemma execute_pages_DoNothing (T : target_table) (ok : list pyval -> bool) (now : Z)
    (ps : list (list (list pyval))) (tb : table) :
  action T = DoNothing -> primary_key T = false ->
  Forall (Forall (fun t => ok t = true /\ length t = length (insert_columns T))) ps ->
  exists tb' evs, execute_pages T ok now tb ps = (tb', evs, Ok tt).
Proof.
  intros Ha Hpk. revert tb. induction ps as [|p ps IH]; simpl; intros tb Hps.
  - eauto.
  - inversion Hps as [|p' ps' Hp Hrest]; subst. unfold insert_page.
    assert (Hw : forallb (fun t => Nat.eqb (length t) (length (insert_columns T))) p = true).
    { apply forallb_forall. intros t Ht. rewrite Forall_forall in Hp.
      apply Nat.eqb_eq, Hp, list_elem_of_In, Ht. }
    rewrite Hw.
    destruct (insert_rows_DoNothing T ok now p (tb, []) Ha Hpk) as [[tb1 wr1] ->].
    { eapply Forall_impl; [exact Hp|]. now intros t [Ht _]. }
    destruct (IH tb1 Hrest) as [tb' [evs ->]]. eauto.
Qed.

(** ** load.py: the six loaders *)

Definition loader (E : env) (e : entity) : list (list pyval) -> M world Z :=
  match e with
  | Scenarios => load_scenarios E
  | NodeData => load_node_data E
  | Runs => load_runs E
  | NodeCalc => load_node_calc E
  | EventData => load_event_data E
  | Timeline => load_timeline E
  end.

Lemma loader_load_into (E : env) (e : entity) : loader E e = load_into E e (target_of e).
Proof. destruct e; reflexivity. Qed.

(** A loader is its statement, then one line in the log. *)
Lemma load_into_cases (E : env) (e : entity) (T : target_table)
    (rows : list (list pyval)) (w w' : world) (r : result Z) :
  load_into E e T rows w = (w', r) ->
  exists w1, executemany_target E e T rows w = (w1, r) /\
    clock w' = clock w1 /\ etl_watermark w' = etl_watermark w1 /\ tables w' = tables w1 /\
    trace w' = trace w1 /\
    (rows = [] -> w' = w) /\
    (forall x, r = Raise x -> w' = w1).
Proof.
  destruct rows as [|t rows].
  - intros [= <- <-]. exists w. repeat split; auto.
  - unfold load_into, bindM.
    destruct (executemany_target E e T (t :: rows) w) as [w1 [n|x]].
    + intros [= <- <-]. exists w1. repeat split; try discriminate.
    + intros [= <- <-]. exists w1. repeat split; try discriminate.
Qed.

Lemma DoNothing_no_primary_key (e : entity) :
  action (target_of e) = DoNothing -> primary_key (target_of e) = false.
Proof. destruct e; simpl; intros Ha; try discriminate; reflexivity. Qed.

(** C10.  For each of the six loaders, the empty batch returns 0 and
    leaves the world as it is, trace of connections and statements
    included; whenever a loader returns, it returns the length of its
    batch; and under DO NOTHING a batch of tuples whose keys are all stored
    already returns its full length while the stored rows stay as they
    are. *)
Theorem loader_returns_batch_size (E : env) (e : entity) (rows : list (list pyval))
    (w : world) :
  loader E e [] w = (w, Ok 0) /\
  executemany_target E e (target_of e) [] w = (w, Ok 0) /\
  (forall w' n, executemany_target E e (target_of e) rows w = (w', Ok n) ->
                n = Z.of_nat (length rows)) /\
  (forall w' n, loader E e rows w = (w', Ok n) -> n = Z.of_nat (length rows)) /\
  (forall tb,
     action (target_of e) = DoNothing ->
     tables w !! into (target_of e) = Some tb ->
     fault E e OpWrite = None -> fault E e OpCommit = None ->
     Forall (fun t => accepts E e t = true /\
                      length t = length (insert_columns (target_of e))) rows ->
     Forall (reoffered (target_of e) (trows tb)) rows ->
     exists w' tb',
       loader E e rows w = (w', Ok (Z.of_nat (length rows))) /\
       tables w' !! into (target_of e) = Some tb' /\ trows tb' = trows tb).
Proof.
  split; [destruct e; reflexivity|]. split; [reflexivity|].
  split; [intros w' n; apply executemany_target_count|].
  split.
  { intros w' n. rewrite loader_load_into. intros Hload.
    apply load_into_cases in Hload. destruct Hload as [w1 [Hcall _]].
    eapply executemany_target_count; eauto. }
  intros tb Ha Htb Hwrite Hcommit Hrows Hre. rewrite loader_load_into.
  destruct rows as [|t rows].
  { exists w, tb. repeat split; assumption. }
  set (T := target_of e) in *. set (batch := t :: rows) in *.
  set (w1 := tick (latency E e) (emit (TargetConnect "pool") w)).
  destruct (execute_pages_DoNothing T (accepts E e) (clock w1) (pages 500 batch) tb Ha
              (DoNothing_no_primary_key e Ha)) as [tb' [evs Hpages]].
  { apply pages_fuel_Forall, Hrows. }
  assert (Hkey : str_in (conflict_key T) (updated_columns T) = false).
  { unfold updated_columns. now rewrite Ha. }
  destruct (execute_pages_reoffered T (accepts E e) (clock w1) (pages 500 batch) tb tb' evs
              Hkey) as [_ Hsame]; [apply pages_fuel_Forall, Hre | exact Hpages |].
  exists (logger (InfoLoaded (into T) (Z.of_nat (length batch)))
            (emit TxCommit (set_table (into T) tb' (emits evs w1)))), tb'.
  split; [|split; [apply lookup_insert_eq | auto]].
  unfold load_into, bindM, executemany_target. subst batch.
  rewrite Hwrite. change (tables (tick (latency E e) (emit (TargetConnect "pool") w)))
    with (tables w). rewrite Htb. fold w1. rewrite Hpages, Hcommit. reflexivity.
Qed.

(** A timeline event, as a tuple of [transform_timeline]. *)
Definition timeline_tuple : list pyval :=
  [ VStr "a001"; VInt 1700000000000000; VStr "SCENARIO_CREATED"; VStr "LIFECYCLE";
    VStr "ann"; VStr "Scenario created"; VNone; VNone; VNone; VStr "SC_a001" ].

(** The world once that event is loaded. *)
Definition timeline_loaded : world :=
  fst (load_timeline nothing_new [timeline_tuple] provisioned).

(** The stored event offered twice in one batch: the loader returns 2 and
    the table keeps its one row. *)
Lemma loader_returns_batch_size_witness :
  exists w' tb tb',
    tables timeline_loaded !! "fact_scenario_timeline" = Some tb /\
    load_timeline nothing_new [timeline_tuple; timeline_tuple] timeline_loaded
    = (w', Ok 2) /\
    tables w' !! "fact_scenario_timeline" = Some tb' /\
    trows tb' = trows tb /\ length (trows tb) = 1%nat.
Proof.
  destruct (loader_returns_batch_size nothing_new Timeline
              [timeline_tuple; timeline_tuple] timeline_loaded)
    as [_ [_ [_ [_ Hdup]]]].
  destruct (tables timeline_loaded !! "fact_scenario_timeline") as [tb|] eqn:Etb;
    [|vm_compute in Etb; discriminate].
  destruct (Hdup tb) as [w' [tb' [Hload [Htb' Hsame]]]].
  - reflexivity.
  - exact Etb.
  - reflexivity.
  - reflexivity.
  - repeat constructor.
  - vm_compute in Etb. injection Etb as <-. repeat constructor.
  - exists w', tb, tb'. repeat split; try assumption.
    vm_compute in Etb. injection Etb as <-. reflexivity.
Defined.

(** ** load.py: the versioned policy *)


(** One offered tuple whose key is stored, under DO UPDATE: the table is
    the old one with the SET list applied to the rows of that key. *)
Lemma execute_pages_reoffer_one (T : target_table) (ok : list pyval -> bool) (now : Z)
    (cols : list string) (stamp : string) (tb tb' : table) (evs : list event)
    (t : list pyval) :
  action T = DoUpdate cols stamp ->
  reoffered T (trows tb) t ->
  execute_pages T ok now tb [[t]] = (tb', evs, Ok tt) ->
  trows tb' = do_update T cols stamp now (proposed T t) (key_of T t) (trows tb).
Proof.
  intros Ha Hre. unfold reoffered, key_of in Hre. simpl. unfold insert_page. simpl.
  destruct (Nat.eqb _ _); simpl; [|discriminate].
  unfold insert_one. rewrite Hre, Ha. simpl.
  destruct (negb (ok t)); [discriminate|].
  destruct (primary_key T && is_none _); [discriminate|].
  intros [= <- _]. reflexivity.
Qed.

Lemma do_update_rows (T : target_table) (cols : list string) (stamp : string) (now : Z)
    (p : pydict) (k : pyval) (rows : list pydict) :
  Forall2 (fun old new =>
             if conflicts T k old
             then new = set_col stamp (VInt now) (set_excluded cols p old)
             else new = old)
    rows (do_update T cols stamp now p k rows).
Proof.
  unfold do_update. induction rows as [|row rows IH]; simpl; constructor; [|exact IH].
  now destruct (conflicts T k row).
Qed.

Lemma get_present (d : pydict) (c : string) :
  In c (map fst d) -> exists v, dict_get d c = Some v /\ get d c = v.
Proof.
  intros Hc. destruct (dict_get_Some d c Hc) as [v E]. exists v. unfold get. now rewrite E.
Qed.

(** The columns of the row DO UPDATE writes. *)
Lemma updated_row_columns (cols : list string) (stamp : string) (now : Z) (p old : pydict) :
  str_in stamp cols = false ->
  let new := set_col stamp (VInt now) (set_excluded cols p old) in
  (forall c, In c cols -> In c (map fst old) -> get new c = get p c) /\
  (In stamp (map fst old) -> get new stamp = VInt now).
Proof.
  intros Hstamp new. split.
  - intros c Hc Hold. unfold new, get.
    rewrite dict_get_set_col, dict_get_set_excluded.
    apply str_in_In in Hc. rewrite Hc.
    destruct (get_present old c Hold) as [v [-> _]].
    destruct (String.eqb c stamp) eqn:E; [|reflexivity].
    apply String.eqb_eq in E. subst. congruence.
  - intros Hold. unfold new, get. rewrite dict_get_set_col, String.eqb_refl.
    rewrite dict_get_set_excluded, Hstamp.
    destruct (get_present old stamp Hold) as [v [-> _]]. reflexivity.
Qed.

(** *** A batch of records offered again *)










(** *** A version opened, then closed *)

(** A record of [extract_node_data] for an open version, and the same
    record once the source has set its [end_at]. *)
Definition open_node_record : pydict :=
  set_col "input_validation_message" VNone failing_node_record.

Definition closed_node_record : pydict :=
  set_col "version_ended_at" (VInt 1700000500000000) open_node_record.

Definition node_tuples (r : pydict) : list (list pyval) :=
  match @transform_node_data decimal_builtins [r] with
  | Ok ts => ts
  | Raise _ => []
  end.

Definition closed_node_tuple : list pyval := hd [] (node_tuples closed_node_record).

(** The world after the open version is loaded, and after the closed one
    is offered. *)
Definition version_opened : world :=
  fst (load_node_data nothing_new (node_tuples open_node_record) provisioned).

Definition version_closed : world :=
  fst (load_node_data nothing_new [closed_node_tuple] version_opened).

Definition stored_versions (w : world) : list pydict :=
  match tables w !! "fact_node_input_history" with
  | Some tb => trows tb
  | None => []
  end.

(** Versioned convergence on this record: one row before and after, whose
    [is_current_version] turns false and whose [version_ended_at] is set. *)
Example version_converges :
  map (fun row => (get row "source_id", get row "is_current_version",
                   get row "version_ended_at")) (stored_versions version_opened)
  = [(VStr "7f3c", VBool true, VNone)] /\
  map (fun row => (get row "source_id", get row "is_current_version",
                   get row "version_ended_at")) (stored_versions version_closed)
  = [(VStr "7f3c", VBool false, VInt 1700000500000000)].
Proof. split; vm_compute; reflexivity. Qed.



(** ** pipeline.py: the units of a cycle *)

(** The surroundings raise nothing but [Exception]s: no interrupt and no
    exit request arrives during the cycle. *)
Definition raises_only_Exceptions (E : env) : Prop :=
  (forall e o x, fault E e o = Some x -> is_Exception x = true) /\
  (forall e since x, source E e since = Raise x -> is_Exception x = true).

Definition all_entities : list entity :=
  [Scenarios; NodeData; Runs; NodeCalc; EventData; Timeline].

Definition finish : M cycle_state Z :=
  fun s => ((logger (InfoCycleComplete (snd s)) (fst s), snd s), Ok (snd s)).

Section Units.
Context `{PyBuiltins}.

Definition transform_of (e : entity) : list pydict -> result (list (list pyval)) :=
  match e with
  | Scenarios => transform_scenarios
  | NodeData => transform_node_data
  | Runs => transform_runs
  | NodeCalc => transform_node_calc
  | EventData => transform_event_data
  | Timeline => transform_timeline
  end.

(** The [try] block of an entity, and the block under its [except]. *)
Definition unit_body (E : env) (e : entity) : M cycle_state unit :=
  try_block E e (extract E e) (transform_of e) (loader E e).

Definition etl_unit (E : env) (e : entity) : M cycle_state unit :=
  except_Exception (unit_label e) (unit_body E e).

Fixpoint run_units {A : Type} (E : env) (es : list entity) (k : M cycle_state A)
    : M cycle_state A :=
  match es with
  | [] => k
  | e :: es' => _ <~ etl_unit E e ;; run_units E es' k
  end.

(** [run_cycle] is its six units in their fixed order. *)
Lemma run_cycle_units (E : env) (w : world) :
  run_cycle E w = let '(s', r) := run_units E all_entities finish (w, 0) in (fst s', r).
Proof. reflexivity. Qed.
End Units.

(** *** What raises what *)

Lemma getitem_raises (d : pydict) (k : string) (x : exn) :
  getitem d k = Raise x -> is_Exception x = true.
Proof.
  unfold getitem. destruct (dict_get d k); [discriminate|]. now intros [= <-].
Qed.

Lemma tuple_of_raises (fs : list field) (r : pydict) (x : exn) :
  tuple_of fs r = Raise x -> is_Exception x = true.
Proof.
  induction fs as [|f fs IH]; simpl; [discriminate|].
  destruct (eval_field r f) as [v|y] eqn:Ef; cbn [bind].
  - destruct (tuple_of fs r) as [vs|y]; cbn [bind]; [discriminate|].
    intros [= <-]. now apply IH.
  - intros [= <-]. destruct f; simpl in Ef; try discriminate.
    eapply getitem_raises, Ef.
Qed.

Section TransformRaises.
Context `{PyBuiltins}.

Lemma node_validation_message_raises_Exception (r : pydict) (x : exn) :
  node_validation_message r = Raise x -> is_Exception x = true.
Proof.
  unfold node_validation_message. destruct (truthy _); [|discriminate].
  destruct (getitem r "validation_message") eqn:E; cbn [bind]; [discriminate|].
  intros [= <-]. eapply getitem_raises, E.
Qed.

Ltac raised_Exception :=
  intros [= <-];
  first [ eapply getitem_raises; eassumption
        | eapply tuple_of_raises; eassumption
        | eapply node_validation_message_raises_Exception; eassumption
        | match goal with
          | E : flatten_input_data _ = Raise _ |- _ =>
              now rewrite (flatten_input_data_raises _ _ E)
          | E : flatten_event_data _ = Raise _ |- _ =>
              now rewrite (flatten_event_data_raises _ _ E)
          end ].

Lemma node_data_tuple_raises_Exception (r : pydict) (x : exn) :
  node_data_tuple r = Raise x -> is_Exception x = true.
Proof.
  unfold node_data_tuple.
  repeat (bind_cases; [|raised_Exception]). discriminate.
Qed.

Lemma event_data_tuple_raises_Exception (r : pydict) (x : exn) :
  event_data_tuple r = Raise x -> is_Exception x = true.
Proof.
  unfold event_data_tuple.
  repeat (bind_cases; [|raised_Exception]). discriminate.
Qed.

(** A transform raises nothing but [Exception]s. *)
Lemma transform_of_raises (e : entity) (rows : list pydict) (x : exn) :
  transform_of e rows = Raise x -> is_Exception x = true.
Proof.
  destruct e; simpl; intros Hx; apply for_each_raised in Hx;
    destruct Hx as [r [_ Hr]];
    first [ eapply tuple_of_raises; eassumption
          | eapply node_data_tuple_raises_Exception; eassumption
          | eapply event_data_tuple_raises_Exception; eassumption ].
Qed.
End TransformRaises.

(** The statements themselves raise database errors only. *)
Lemma insert_rows_raises (T : target_table) (ok : list pyval -> bool) (now : Z)
    (page : list (list pyval)) (st st' : stmt_state) (x : exn) :
  insert_rows T ok now st page = (st', Raise x) -> is_Exception x = true.
Proof.
  revert st. induction page as [|t page IH]; simpl; intros st; [discriminate|].
  destruct (insert_one T ok now st t) as [st1 [[]|y]] eqn:Eone; [apply IH|].
  intros [= _ <-]. unfold insert_one in Eone. destruct st as [tb wr].
  destruct (negb (ok t)); [now injection Eone as _ <-|].
  destruct (primary_key T && is_none _); [now injection Eone as _ <-|].
  destruct (existsb _ (trows tb)); [|discriminate].
  destruct (action T); [discriminate|].
  destruct (key_in _ wr); [now injection Eone as _ <- | discriminate].
Qed.

Lemma execute_pages_raises (T : target_table) (ok : list pyval -> bool) (now : Z)
    (ps : list (list (list pyval))) (tb tb' : table) (evs : list event) (x : exn) :
  execute_pages T ok now tb ps = (tb', evs, Raise x) -> is_Exception x = true.
Proof.
  revert tb tb' evs. induction ps as [|p ps IH]; simpl; intros tb tb' evs; [discriminate|].
  destruct (insert_page T ok now tb p) as [tb1 [[]|y]] eqn:Epage.
  - destruct (execute_pages T ok now tb1 ps) as [[tb2 evs2] r2] eqn:Erest.
    intros [= _ _ ->]. eapply IH, Erest.
  - intros [= _ _ <-]. unfold insert_page in Epage.
    destruct (forallb _ p); [|now injection Epage as _ <-].
    destruct (insert_rows T ok now (tb, []) p) as [[tb1' wr1] r1] eqn:Erows.
    injection Epage as _ ->. eapply insert_rows_raises, Erows.
Qed.

Lemma loader_raises (E : env) (e : entity) (ts : list (list pyval)) (w w' : world)
    (x : exn) :
  raises_only_Exceptions E ->
  loader E e ts w = (w', Raise x) -> is_Exception x = true.
Proof.
  intros [Hfault _]. rewrite loader_load_into. intros Hload.
  apply load_into_cases in Hload. destruct Hload as [w1 [Hcall _]].
  destruct ts as [|t ts]; [discriminate|].
  apply executemany_target_cases in Hcall; [|discriminate].
  destruct Hcall as [[y [Hy [_ [= ->]]]] | [[_ [_ [_ [= ->]]]] | [tb [tb' [evs [_ [_ Hr]]]]]]].
  - eapply Hfault, Hy.
  - reflexivity.
  - destruct Hr as [[y [Hy [_ [= ->]]]] | [_ [_ [_ Hr]]]]; [|discriminate].
    destruct Hy as [Hy | [_ Hy]]; [eapply execute_pages_raises, Hy | eapply Hfault, Hy].
Qed.

(** *** The steps of a unit *)

Lemma extract_frame (E : env) (e : entity) (since : Z) (w w' : world)
    (r : result (list pydict)) :
  extract E e since w = (w', r) ->
  clock w <= clock w' /\ etl_watermark w' = etl_watermark w /\ tables w' = tables w /\
  r = source E e since.
Proof.
  unfold extract. destruct (source E e since); intros [= <- <-]; simpl; repeat split; lia.
Qed.

Lemma loader_frame (E : env) (e : entity) (ts : list (list pyval)) (w w' : world)
    (r : result Z) :
  loader E e ts w = (w', r) ->
  clock w <= clock w' /\ etl_watermark w' = etl_watermark w /\
  forall other, other <> into (target_of e) -> tables w' !! other = tables w !! other.
Proof.
  rewrite loader_load_into. intros Hload. apply load_into_cases in Hload.
  destruct Hload as [w1 [Hcall [-> [-> [-> _]]]]].
  apply executemany_target_frame in Hcall. tauto.
Qed.

(** The commit of a watermark: on success the row of [name], if there is
    one, is rewritten with the time of the statement; on failure nothing
    is written. *)
Lemma update_watermark_cases (E : env) (e : entity) (name : string) (k : Z)
    (w w' : world) (r : result unit) :
  update_watermark E e name k w = (w', r) ->
  clock w <= clock w' /\ tables w' = tables w /\
  match r with
  | Raise x =>
      etl_watermark w' = etl_watermark w /\
      (fault E e OpUpdateWatermark = Some x \/ is_Exception x = true)
  | Ok _ =>
      fault E e OpUpdateWatermark = None /\
      match etl_watermark w !! name with
      | None => etl_watermark w' = etl_watermark w
      | Some row =>
          etl_watermark w'
          = <[name := mk_wm (clock w') k (Some (clock w')) (total_rows_ever row + k)]>
              (etl_watermark w)
      end
  end.
Proof.
  unfold update_watermark. destruct (fault E e OpUpdateWatermark) as [x|].
  { intros [= <- <-]. simpl. repeat split; auto; lia. }
  simpl. destruct (etl_watermark w !! name) as [row|] eqn:Erow.
  - destruct ((k <=? INT_MAX) && (total_rows_ever row + k <=? BIGINT_MAX));
      intros [= <- <-]; simpl; rewrite ?Erow; repeat split; auto; lia.
  - intros [= <- <-]. simpl. repeat split; auto; lia.
Qed.

Section UnitSteps.
Context `{PyBuiltins}.

(** The transform and the load of a unit, skipped for no rows. *)
Definition transform_and_load (E : env) (e : entity) (rows : list pydict)
    : M cycle_state unit :=
  match rows with
  | [] => ret tt
  | _ =>
      transformed <~ lift (transform_of e rows) ;;
      n <~ on_world (loader E e transformed) ;;
      add_total n
  end.

Lemma unit_body_steps (E : env) (e : entity) (s : cycle_state) :
  unit_body E e s
  = (since <~ on_world (get_watermark E e (watermark_name e)) ;;
     rows <~ on_world (extract E e since) ;;
     _ <~ transform_and_load E e rows ;;
     on_world (update_watermark E e (watermark_name e) (Z.of_nat (length rows)))) s.
Proof. reflexivity. Qed.

(** Up to the commit, a unit writes nothing but its own table. *)
Definition before_commit (e : entity) (w w' : world) : Prop :=
  clock w <= clock w' /\ etl_watermark w' = etl_watermark w /\
  forall other, other <> into (target_of e) -> tables w' !! other = tables w !! other.

Lemma before_commit_refl (e : entity) (w : world) : before_commit e w w.
Proof. repeat split; auto; lia. Qed.

Lemma before_commit_trans (e : entity) (a b c : world) :
  before_commit e a b -> before_commit e b c -> before_commit e a c.
Proof.
  intros [H1 [H2 H3]] [H4 [H5 H6]]. repeat split; [lia | congruence|].
  intros other Hne. rewrite H6, H3; auto.
Qed.

Lemma transform_and_load_frame (E : env) (e : entity) (rows : list pydict)
    (s s' : cycle_state) (r : result unit) :
  transform_and_load E e rows s = (s', r) -> before_commit e (fst s) (fst s').
Proof.
  unfold transform_and_load. destruct rows as [|row rows].
  - intros [= <- _]. apply before_commit_refl.
  - unfold bindM, lift, on_world, add_total.
    destruct (transform_of e (row :: rows)) as [ts|x].
    + destruct (loader E e ts (fst s)) as [w1 [n|x]] eqn:Eload;
        intros [= <- _]; simpl; apply (loader_frame _ _ _ _ _ _ Eload).
    + intros [= <- _]. apply before_commit_refl.
Qed.

(** The outcomes of a [try] block: it raises and the watermark table is
    as it was, or it returns and the commit was the last thing it did. *)
Lemma unit_body_outcome (E : env) (e : entity) (s s' : cycle_state) (r : result unit) :
  unit_body E e s = (s', r) ->
  clock (fst s) <= clock (fst s') /\
  (forall other, other <> into (target_of e) ->
                 tables (fst s') !! other = tables (fst s) !! other) /\
  match r with
  | Raise x => etl_watermark (fst s') = etl_watermark (fst s)
  | Ok _ =>
      exists (w3 : world) (k : Z),
        before_commit e (fst s) w3 /\ clock w3 <= clock (fst s') /\ 0 <= k /\
        fault E e OpUpdateWatermark = None /\
        match etl_watermark (fst s) !! watermark_name e with
        | None => etl_watermark (fst s') = etl_watermark (fst s)
        | Some row =>
            etl_watermark (fst s')
            = <[watermark_name e :=
                  mk_wm (clock (fst s')) k (Some (clock (fst s')))
                    (total_rows_ever row + k)]> (etl_watermark (fst s))
        end
  end.
Proof.
  rewrite unit_body_steps. unfold bindM at 1. unfold on_world at 1.
  destruct (get_watermark E e (watermark_name e) (fst s)) as [w1 [since|x]] eqn:Eget;
    pose proof (get_watermark_frame _ _ _ _ _ _ Eget) as [Hc1 [Hw1 [Ht1 _]]].
  2: { intros [= <- <-]. simpl. repeat split; auto. now rewrite Ht1. }
  unfold bindM at 1. unfold on_world at 1. simpl fst. simpl snd.
  destruct (extract E e since w1) as [w2 [rows|x]] eqn:Eext;
    pose proof (extract_frame _ _ _ _ _ _ Eext) as [Hc2 [Hw2 [Ht2 _]]].
  2: { intros [= <- <-]. simpl. repeat split; [lia | now rewrite Ht2, Ht1 | congruence]. }
  unfold bindM at 1.
  destruct (transform_and_load E e rows (w2, snd s)) as [[w3 tot3] [[]|x]] eqn:Etl;
    pose proof (transform_and_load_frame _ _ _ _ _ _ Etl) as [Hc3 [Hw3 Ht3]];
    simpl in Hc3, Hw3, Ht3.
  2: { intros [= <- <-]. simpl. repeat split; [lia | | congruence].
       intros other Hne. now rewrite Ht3, Ht2, Ht1. }
  unfold on_world. simpl fst. simpl snd.
  destruct (update_watermark E e (watermark_name e) (Z.of_nat (length rows)) w3)
    as [w4 r4] eqn:Eupd.
  pose proof (update_watermark_cases _ _ _ _ _ _ _ Eupd) as [Hc4 [Ht4 Hr4]].
  intros [= <- <-]. simpl.
  split; [lia|]. split; [intros other Hne; now rewrite Ht4, Ht3, Ht2, Ht1|].
  destruct r4 as [[]|x].
  - destruct Hr4 as [Hfault Hr4]. exists w3, (Z.of_nat (length rows)).
    split; [repeat split; [lia | congruence | intros other Hne; now rewrite Ht3, Ht2, Ht1]|].
    split; [exact Hc4|]. split; [lia|]. split; [exact Hfault|].
    replace (etl_watermark (fst s)) with (etl_watermark w3) by congruence.
    exact Hr4.
  - destruct Hr4 as [Hr4 _]. congruence.
Qed.
End UnitSteps.

(** *** A unit under its [except] *)

Definition wm_le_clock (w : world) : Prop :=
  forall name row, etl_watermark w !! name = Some row -> last_fetched_at row <= clock w.

(** Every row of [m] is in [m'], with a [last_fetched_at] that is not
    earlier. *)
Definition wm_le (m m' : gmap string wm_row) : Prop :=
  forall name row, m !! name = Some row ->
    exists row', m' !! name = Some row' /\ last_fetched_at row <= last_fetched_at row'.

Lemma wm_le_refl (m : gmap string wm_row) : wm_le m m.
Proof. intros name row Hrow. exists row. split; [exact Hrow | lia]. Qed.

Lemma wm_le_trans (a b c : gmap string wm_row) : wm_le a b -> wm_le b c -> wm_le a c.
Proof.
  intros Hab Hbc name row Hrow. destruct (Hab name row Hrow) as [row1 [H1 Hle1]].
  destruct (Hbc name row1 H1) as [row2 [H2 Hle2]]. exists row2. split; [exact H2 | lia].
Qed.

Lemma get_watermark_raises (E : env) (e : entity) (name : string) (w w' : world) (x : exn) :
  get_watermark E e name w = (w', Raise x) -> fault E e OpReadWatermark = Some x.
Proof.
  unfold get_watermark. destruct (fault E e OpReadWatermark); [now intros [= _ <-]|].
  destruct (etl_watermark _ !! name); discriminate.
Qed.

Section GuardedUnits.
Context `{PyBuiltins}.

Lemma etl_unit_cases (E : env) (e : entity) (s s' : cycle_state) (r : result unit) :
  etl_unit E e s = (s', r) ->
  exists s1 r1, unit_body E e s = (s1, r1) /\
    clock (fst s') = clock (fst s1) /\ etl_watermark (fst s') = etl_watermark (fst s1) /\
    tables (fst s') = tables (fst s1) /\ snd s' = snd s1 /\
    match r1 with
    | Ok _ => r = Ok tt /\ s' = s1
    | Raise x =>
        if is_Exception x
        then r = Ok tt /\ log (fst s') = (log (fst s1) ++ [ErrorUnitFailed (unit_label e) x])%list
        else r = Raise x /\ s' = s1
    end.
Proof.
  unfold etl_unit, except_Exception.
  destruct (unit_body E e s) as [s1 [[]|x]].
  - intros [= <- <-]. exists s1, (Ok tt). repeat split.
  - destruct (is_Exception x) eqn:Ex; intros [= <- <-]; exists s1, (Raise x);
      rewrite Ex; repeat split.
Qed.

(** An exception that leaves a unit is no [Exception]. *)
Lemma etl_unit_raises (E : env) (e : entity) (s s' : cycle_state) (x : exn) :
  etl_unit E e s = (s', Raise x) -> is_Exception x = false.
Proof.
  intros Hunit. apply etl_unit_cases in Hunit.
  destruct Hunit as [s1 [[[]|y] [_ [_ [_ [_ [_ Hr]]]]]]].
  - destruct Hr; discriminate.
  - destruct (is_Exception y) eqn:Ey; destruct Hr as [Hr _]; congruence.
Qed.

Lemma transform_and_load_raises (E : env) (e : entity) (rows : list pydict)
    (s s' : cycle_state) (x : exn) :
  raises_only_Exceptions E ->
  transform_and_load E e rows s = (s', Raise x) -> is_Exception x = true.
Proof.
  intros HE. unfold transform_and_load. destruct rows as [|row rows]; [discriminate|].
  unfold bindM, lift, on_world, add_total.
  destruct (transform_of e (row :: rows)) as [ts|y] eqn:Etr.
  - destruct (loader E e ts (fst s)) as [w1 [n|y]] eqn:Eload; [discriminate|].
    intros [= _ <-]. eapply loader_raises; eauto.
  - intros [= _ <-]. eapply transform_of_raises; eauto.
Qed.

Lemma unit_body_raises (E : env) (e : entity) (s s' : cycle_state) (x : exn) :
  raises_only_Exceptions E ->
  unit_body E e s = (s', Raise x) -> is_Exception x = true.
Proof.
  intros HE. rewrite unit_body_steps. unfold bindM at 1. unfold on_world at 1.
  destruct (get_watermark E e (watermark_name e) (fst s)) as [w1 [since|y]] eqn:Eget.
  2: { intros [= _ <-]. eapply (proj1 HE), get_watermark_raises, Eget. }
  unfold bindM at 1. unfold on_world at 1. simpl fst. simpl snd.
  destruct (extract E e since w1) as [w2 [rows|y]] eqn:Eext.
  2: { intros [= _ <-]. apply extract_frame in Eext.
       destruct Eext as [_ [_ [_ Hsrc]]]. eapply (proj2 HE). symmetry. exact Hsrc. }
  unfold bindM at 1.
  destruct (transform_and_load E e rows (w2, snd s)) as [[w3 tot3] [[]|y]] eqn:Etl.
  2: { intros [= _ <-]. eapply transform_and_load_raises; eauto. }
  unfold on_world. simpl fst. simpl snd.
  destruct (update_watermark E e (watermark_name e) (Z.of_nat (length rows)) w3)
    as [w4 r4] eqn:Eupd.
  intros [= _ ->]. apply update_watermark_cases in Eupd.
  destruct Eupd as [_ [_ [_ [Hf|Hx]]]]; [eapply (proj1 HE), Hf | exact Hx].
Qed.

(** Failure isolation, one unit: when the surroundings raise nothing but
    [Exception]s, a unit returns, whatever happens inside. *)
Lemma etl_unit_returns (E : env) (e : entity) (s : cycle_state) :
  raises_only_Exceptions E -> exists s', etl_unit E e s = (s', Ok tt).
Proof.
  intros HE. destruct (etl_unit E e s) as [s' [[]|x]] eqn:Hunit; [eauto|].
  pose proof (etl_unit_raises _ _ _ _ _ Hunit) as Hx.
  apply etl_unit_cases in Hunit. destruct Hunit as [s1 [[[]|y] [Hbody [_ [_ [_ [_ Hr]]]]]]].
  - destruct Hr; discriminate.
  - pose proof (unit_body_raises _ _ _ _ _ HE Hbody) as Hy. rewrite Hy in Hr.
    destruct Hr; discriminate.
Qed.

(** What a unit may have written: its own table, and, by a commit that
    ended its [try] block, its own watermark row. *)
Lemma etl_unit_outcome (E : env) (e : entity) (s s' : cycle_state) (r : result unit) :
  etl_unit E e s = (s', r) ->
  clock (fst s) <= clock (fst s') /\
  (forall other, other <> into (target_of e) ->
                 tables (fst s') !! other = tables (fst s) !! other) /\
  (etl_watermark (fst s') = etl_watermark (fst s) \/
   exists row k,
     etl_watermark (fst s) !! watermark_name e = Some row /\ 0 <= k /\
     etl_watermark (fst s')
     = <[watermark_name e :=
           mk_wm (clock (fst s')) k (Some (clock (fst s'))) (total_rows_ever row + k)]>
         (etl_watermark (fst s))).
Proof.
  intros Hunit. apply etl_unit_cases in Hunit.
  destruct Hunit as [s1 [r1 [Hbody [Hc [Hw [Ht [_ _]]]]]]].
  apply unit_body_outcome in Hbody. destruct Hbody as [Hc1 [Ht1 Hr1]].
  rewrite Hc, Hw, Ht. split; [exact Hc1|]. split; [exact Ht1|].
  destruct r1 as [[]|x]; [|now left].
  destruct Hr1 as [w3 [k [_ [_ [Hk [_ Hrow]]]]]].
  destruct (etl_watermark (fst s) !! watermark_name e) as [row|] eqn:Erow; [|now left].
  right. exists row, k. auto.
Qed.

(** Monotonicity, one unit. *)
Lemma etl_unit_monotone (E : env) (e : entity) (s s' : cycle_state) (r : result unit) :
  wm_le_clock (fst s) -> etl_unit E e s = (s', r) ->
  wm_le (etl_watermark (fst s)) (etl_watermark (fst s')) /\ wm_le_clock (fst s').
Proof.
  intros Hinv Hunit. apply etl_unit_outcome in Hunit.
  destruct Hunit as [Hc [_ [Hsame | [row [k [Hrow [_ Hnew]]]]]]];
    unfold wm_le_clock in *.
  - rewrite Hsame. split; [apply wm_le_refl|].
    intros name r0 Hr0. specialize (Hinv name r0 Hr0). lia.
  - rewrite Hnew. split.
    + intros name r0 Hr0. destruct (String.eqb_spec name (watermark_name e)) as [->|Hne].
      * rewrite lookup_insert_eq. eexists. split; [reflexivity|]. simpl.
        assert (r0 = row) as -> by congruence. specialize (Hinv _ _ Hrow). lia.
      * rewrite lookup_insert_ne by congruence. exists r0. split; [exact Hr0 | lia].
    + intros name r0. destruct (String.eqb_spec name (watermark_name e)) as [->|Hne].
      * rewrite lookup_insert_eq. intros [= <-]. simpl. lia.
      * rewrite lookup_insert_ne by congruence. intros Hr0.
        specialize (Hinv name r0 Hr0). lia.
Qed.
End GuardedUnits.

(** *** The units in sequence *)

(** The entity types that come before, and after, an entity type in the
    fixed order of [run_cycle]. *)
Definition units_before (e : entity) : list entity :=
  match e with
  | Scenarios => []
  | NodeData => [Scenarios]
  | Runs => [Scenarios; NodeData]
  | NodeCalc => [Scenarios; NodeData; Runs]
  | EventData => [Scenarios; NodeData; Runs; NodeCalc]
  | Timeline => [Scenarios; NodeData; Runs; NodeCalc; EventData]
  end.

Definition units_after (e : entity) : list entity :=
  match e with
  | Scenarios => [NodeData; Runs; NodeCalc; EventData; Timeline]
  | NodeData => [Runs; NodeCalc; EventData; Timeline]
  | Runs => [NodeCalc; EventData; Timeline]
  | NodeCalc => [EventData; Timeline]
  | EventData => [Timeline]
  | Timeline => []
  end.

Lemma all_entities_split (e : entity) :
  all_entities = (units_before e ++ e :: units_after e)%list.
Proof. destruct e; reflexivity. Qed.

Lemma entity_eqb_eq (a b : entity) : entity_eqb a b = true <-> a = b.
Proof. destruct a, b; simpl; split; congruence. Qed.

Lemma not_before_itself (e : entity) : ~ In e (units_before e).
Proof. destruct e; simpl; intuition discriminate. Qed.

Lemma not_after_itself (e : entity) : ~ In e (units_after e).
Proof. destruct e; simpl; intuition discriminate. Qed.

Lemma watermark_name_inj (a b : entity) : watermark_name a = watermark_name b -> a = b.
Proof. destruct a, b; simpl; intros Hab; try reflexivity; discriminate. Qed.

Lemma target_into_inj (a b : entity) :
  into (target_of a) = into (target_of b) -> a = b.
Proof. destruct a, b; simpl; intros Hab; try reflexivity; discriminate. Qed.

Section Sequence.
Context `{PyBuiltins}.

(** The state in which the unit of [e] starts, in a cycle started in [w]. *)
Definition state_before (E : env) (e : entity) (w : world) : cycle_state :=
  fst (run_units E (units_before e) (ret tt) (w, 0)).

Lemma run_units_then {A : Type} (E : env) (es : list entity) (k : M cycle_state A)
    (s : cycle_state) :
  run_units E es k s
  = match run_units E es (ret tt) s with
    | (s1, Ok _) => k s1
    | (s1, Raise x) => (s1, Raise x)
    end.
Proof.
  revert s. induction es as [|e es IH]; intros s; [reflexivity|].
  simpl. unfold bindM. destruct (etl_unit E e s) as [s1 [[]|x]]; [apply IH | reflexivity].
Qed.

Lemma run_units_app {A : Type} (E : env) (es es' : list entity) (k : M cycle_state A)
    (s : cycle_state) :
  run_units E (es ++ es') k s = run_units E es (run_units E es' k) s.
Proof.
  revert s. induction es as [|e es IH]; intros s; [reflexivity|].
  simpl. unfold bindM. destruct (etl_unit E e s) as [s1 [[]|x]]; [apply IH | reflexivity].
Qed.

Lemma run_units_returns (E : env) (es : list entity) (s : cycle_state) :
  raises_only_Exceptions E -> exists s', run_units E es (ret tt) s = (s', Ok tt).
Proof.
  intros HE. revert s. induction es as [|e es IH]; intros s; [now exists s|].
  simpl. unfold bindM. destruct (etl_unit_returns E e s HE) as [s1 ->]. apply IH.
Qed.

(** The units of the other entity types leave the watermark row and the
    table of [e] alone. *)
Lemma run_units_others (E : env) (e : entity) (es : list entity) (s s' : cycle_state)
    (r : result unit) :
  ~ In e es ->
  run_units E es (ret tt) s = (s', r) ->
  clock (fst s) <= clock (fst s') /\
  etl_watermark (fst s') !! watermark_name e = etl_watermark (fst s) !! watermark_name e /\
  tables (fst s') !! into (target_of e) = tables (fst s) !! into (target_of e).
Proof.
  revert s. induction es as [|e' es IH]; intros s Hin.
  - intros [= <- _]. repeat split; lia.
  - simpl. unfold bindM. destruct (etl_unit E e' s) as [s1 r1] eqn:Hunit.
    assert (Hne : e <> e') by (intros ->; apply Hin; now left).
    assert (Hrest : ~ In e es) by (intros Hes; apply Hin; now right).
    pose proof (etl_unit_outcome _ _ _ _ _ Hunit) as [Hc [Ht Hw]].
    assert (Hrow : etl_watermark (fst s1) !! watermark_name e
                   = etl_watermark (fst s) !! watermark_name e).
    { destruct Hw as [-> | [row [k [_ [_ ->]]]]]; [reflexivity|].
      apply lookup_insert_ne. intros Hname. apply Hne.
      symmetry. now apply watermark_name_inj. }
    assert (Htab : tables (fst s1) !! into (target_of e)
                   = tables (fst s) !! into (target_of e)).
    { apply Ht. intros Hname. apply Hne. now apply target_into_inj. }
    destruct r1 as [[]|x].
    + intros Hes. destruct (IH s1 Hrest Hes) as [Hc' [Hw' Ht']].
      repeat split; [lia | congruence | congruence].
    + intros [= <- _]. auto.
Qed.

Lemma run_units_monotone (E : env) (es : list entity) (s s' : cycle_state)
    (r : result unit) :
  wm_le_clock (fst s) ->
  run_units E es (ret tt) s = (s', r) ->
  clock (fst s) <= clock (fst s') /\
  wm_le (etl_watermark (fst s)) (etl_watermark (fst s')) /\ wm_le_clock (fst s').
Proof.
  revert s. induction es as [|e es IH]; intros s Hinv.
  - intros [= <- _]. split; [lia|]. split; [apply wm_le_refl | exact Hinv].
  - simpl. unfold bindM. destruct (etl_unit E e s) as [s1 r1] eqn:Hunit.
    pose proof (etl_unit_monotone _ _ _ _ _ Hinv Hunit) as [Hle Hinv1].
    pose proof (etl_unit_outcome _ _ _ _ _ Hunit) as [Hc _].
    destruct r1 as [[]|x].
    + intros Hes. destruct (IH s1 Hinv1 Hes) as [Hc' [Hle' Hinv']].
      split; [lia|]. split; [eapply wm_le_trans; eauto | exact Hinv'].
    + intros [= <- _]. auto.
Qed.

(** What [run_cycle] does, in terms of its units. *)
Lemma run_cycle_cases (E : env) (w w' : world) (r : result Z) :
  run_cycle E w = (w', r) ->
  exists s1 r1, run_units E all_entities (ret tt) (w, 0) = (s1, r1) /\
    clock w' = clock (fst s1) /\ etl_watermark w' = etl_watermark (fst s1) /\
    tables w' = tables (fst s1) /\
    match r1 with
    | Ok _ => r = Ok (snd s1)
    | Raise x => r = Raise x /\ is_Exception x = false
    end.
Proof.
  rewrite run_cycle_units, run_units_then.
  destruct (run_units E all_entities (ret tt) (w, 0)) as [s1 [[]|x]] eqn:Hunits.
  - intros [= <- <-]. exists s1, (Ok tt). repeat split.
  - intros [= <- <-]. exists s1, (Raise x). repeat split.
    clear - Hunits. revert Hunits. generalize (w, 0). generalize all_entities.
    induction l as [|e es IH]; intros s; [discriminate|].
    simpl. unfold bindM. destruct (etl_unit E e s) as [s2 [[]|y]] eqn:Hunit.
    + apply IH.
    + intros [= _ <-]. eapply etl_unit_raises, Hunit.
Qed.

(** Monotonicity, one cycle. *)
Lemma run_cycle_monotone (E : env) (w w' : world) (r : result Z) :
  wm_le_clock w -> run_cycle E w = (w', r) ->
  clock w <= clock w' /\ wm_le (etl_watermark w) (etl_watermark w') /\ wm_le_clock w'.
Proof.
  intros Hinv Hcycle. apply run_cycle_cases in Hcycle.
  destruct Hcycle as [s1 [r1 [Hunits [Hc [Hw [_ _]]]]]].
  apply run_units_monotone in Hunits; [|exact Hinv].
  destruct Hunits as [Hc1 [Hle Hinv1]]. unfold wm_le_clock in *.
  rewrite Hc, Hw. auto.
Qed.
End Sequence.

Section CycleOfUnit.
Context `{PyBuiltins}.

(** The cycle around one unit: the units before it leave its row and its
    table as the cycle found them, the unit runs, and the units after it
    leave its row and its table as the unit left them. *)
Lemma cycle_around_unit (E : env) (e : entity) (w : world) :
  raises_only_Exceptions E ->
  exists s2 total,
    etl_unit E e (state_before E e w) = (s2, Ok tt) /\
    run_cycle E w = (fst (run_cycle E w), Ok total) /\
    clock w <= clock (fst (state_before E e w)) /\
    etl_watermark (fst (state_before E e w)) !! watermark_name e
    = etl_watermark w !! watermark_name e /\
    tables (fst (state_before E e w)) !! into (target_of e)
    = tables w !! into (target_of e) /\
    clock (fst s2) <= clock (fst (run_cycle E w)) /\
    etl_watermark (fst (run_cycle E w)) !! watermark_name e
    = etl_watermark (fst s2) !! watermark_name e /\
    tables (fst (run_cycle E w)) !! into (target_of e)
    = tables (fst s2) !! into (target_of e).
Proof.
  intros HE. unfold state_before.
  destruct (run_units_returns E (units_before e) (w, 0) HE) as [s1 Hbefore].
  rewrite Hbefore. simpl fst.
  destruct (etl_unit_returns E e s1 HE) as [s2 Hunit].
  destruct (run_units_returns E (units_after e) s2 HE) as [s3 Hafter].
  exists s2, (snd s3).
  pose proof (run_units_others E e _ _ _ _ (not_before_itself e) Hbefore)
    as [Hc1 [Hw1 Ht1]].
  pose proof (run_units_others E e _ _ _ _ (not_after_itself e) Hafter)
    as [Hc3 [Hw3 Ht3]].
  assert (Hcycle : run_cycle E w = (logger (InfoCycleComplete (snd s3)) (fst s3),
                                    Ok (snd s3))).
  { rewrite run_cycle_units, (all_entities_split e), run_units_app, run_units_then.
    rewrite Hbefore. simpl run_units. unfold bindM at 1. rewrite Hunit.
    rewrite run_units_then, Hafter. reflexivity. }
  rewrite Hcycle. simpl in *. repeat split; auto.
Qed.
End CycleOfUnit.

(** ** scheduler.py: the loop *)

(** A cycle function that keeps the watermarks monotone. *)
Definition monotone_cycle (cycle : M world Z) : Prop :=
  forall w w' r, wm_le_clock w -> cycle w = (w', r) ->
    clock w <= clock w' /\ wm_le (etl_watermark w) (etl_watermark w') /\ wm_le_clock w'.

Lemma sleep_frame (signal : option (N * exn)) (w w' : world) (st : status) :
  sleep signal w = (w', st) ->
  clock w <= clock w' /\ etl_watermark w' = etl_watermark w /\ tables w' = tables w.
Proof.
  unfold sleep. destruct signal as [[after x]|]; intros [= <- _]; simpl; repeat split; lia.
Qed.

Lemma iteration_monotone (cycle : M world Z) (signal : option (N * exn))
    (cf cf' : Z) (w w' : world) (st : status) :
  monotone_cycle cycle -> wm_le_clock w ->
  iteration cycle signal cf w = (w', cf', st) ->
  clock w <= clock w' /\ wm_le (etl_watermark w) (etl_watermark w') /\ wm_le_clock w'.
Proof.
  intros Hcycle Hinv. unfold iteration.
  destruct (cycle w) as [w1 r1] eqn:Ecycle.
  destruct (Hcycle _ _ _ Hinv Ecycle) as [Hc1 [Hle1 Hinv1]].
  assert (Hsleep : forall w2 w3 st3,
            clock w2 = clock w1 -> etl_watermark w2 = etl_watermark w1 ->
            sleep signal w2 = (w3, st3) ->
            clock w <= clock w3 /\ wm_le (etl_watermark w) (etl_watermark w3) /\
            wm_le_clock w3).
  { intros w2 w3 st3 Hc2 Hw2 Hs. apply sleep_frame in Hs. destruct Hs as [Hc3 [Hw3 _]].
    unfold wm_le_clock in *. rewrite Hw3, Hw2. split; [lia|]. split; [exact Hle1|].
    intros name row Hrow. specialize (Hinv1 name row Hrow). lia. }
  destruct r1 as [n|x].
  - destruct (sleep signal w1) as [w2 st2] eqn:Es. intros [= <- _ _].
    eapply Hsleep; eauto.
  - assert (Hstop : forall l, clock w <= clock (logger l w1) /\
              wm_le (etl_watermark w) (etl_watermark (logger l w1)) /\
              wm_le_clock (logger l w1)) by (intros l; simpl; auto).
    destruct x; simpl;
      try (match goal with
           | |- context [sleep signal ?w2] =>
               destruct (sleep signal w2) as [w3 st3] eqn:Es; intros [= <- _ _];
               eapply (Hsleep w2); [| |exact Es];
               destruct (MAX_CONSECUTIVE_FAILURES <=? cf + 1); reflexivity
           end);
      intros [= <- _ _]; auto.
Qed.

Lemma loop_monotone (its : list (M world Z * option (N * exn))) (cf cf' : Z)
    (w w' : world) (st : status) :
  Forall (fun it => monotone_cycle (fst it)) its -> wm_le_clock w ->
  loop its cf w = (w', cf', st) ->
  clock w <= clock w' /\ wm_le (etl_watermark w) (etl_watermark w') /\ wm_le_clock w'.
Proof.
  intros Hits. revert cf w. induction Hits as [|[cycle signal] its Hit _ IH]; intros cf w Hinv.
  - intros [= <- _ _]. split; [lia|]. split; [apply wm_le_refl | exact Hinv].
  - simpl. destruct (iteration cycle signal cf w) as [[w1 cf1] st1] eqn:Eit.
    destruct (iteration_monotone _ _ _ _ _ _ _ Hit Hinv Eit) as [Hc1 [Hle1 Hinv1]].
    destruct st1.
    + intros Hrest. destruct (IH _ _ Hinv1 Hrest) as [Hc2 [Hle2 Hinv2]].
      split; [lia|]. split; [eapply wm_le_trans; eauto | exact Hinv2].
    + intros [= <- _ _]. auto.
    + intros [= <- _ _]. auto.
Qed.

Lemma main_monotone `{PyBuiltins} (run : list (env * option (N * exn))) (w : world) :
  wm_le_clock w ->
  clock w <= clock (fst (fst (main run w))) /\
  wm_le (etl_watermark w) (etl_watermark (fst (fst (main run w)))) /\
  wm_le_clock (fst (fst (main run w))).
Proof.
  intros Hinv. unfold main.
  destruct (loop _ 0 w) as [[w' cf'] st] eqn:Eloop. simpl.
  eapply loop_monotone; [|exact Hinv | exact Eloop].
  apply Forall_forall. intros it Hit. apply list_elem_of_In, in_map_iff in Hit.
  destruct Hit as [[E signal] [<- _]]. simpl.
  intros w0 w1 r Hinv0. apply run_cycle_monotone, Hinv0.
Qed.

(** ** The watermark over the life of the process *)

(** C2.  From a state in which no watermark is ahead of the clock:
    however many cycles [main] runs and whatever fails in them, every
    watermark row is still there with a [last_fetched_at] that is not
    earlier; in a cycle, when the [try] block of an entity raises at any
    step, the row of that entity at the end of the cycle is the row at its
    start, and when the block returns, the row holds the time of the
    commit that ended the block; and a [try] block that raises, from any
    state, leaves the whole watermark table as it was. *)
Theorem watermark_monotone_commit_only `{PyBuiltins}
    (run : list (env * option (N * exn))) (w : world) :
  wm_le_clock w ->
  wm_le (etl_watermark w) (etl_watermark (fst (fst (main run w)))) /\
  (forall E e s2 r,
     raises_only_Exceptions E ->
     unit_body E e (state_before E e w) = (s2, r) ->
     match r with
     | Raise _ =>
         etl_watermark (fst (run_cycle E w)) !! watermark_name e
         = etl_watermark w !! watermark_name e
     | Ok _ =>
         match etl_watermark w !! watermark_name e with
         | None => etl_watermark (fst (run_cycle E w)) !! watermark_name e = None
         | Some row =>
             exists k, 0 <= k /\ last_fetched_at row <= clock (fst s2) /\
               etl_watermark (fst (run_cycle E w)) !! watermark_name e
               = Some (mk_wm (clock (fst s2)) k (Some (clock (fst s2)))
                         (total_rows_ever row + k))
         end
     end) /\
  (forall E e s s' x,
     unit_body E e s = (s', Raise x) -> etl_watermark (fst s') = etl_watermark (fst s)).
Proof.
  intros Hinv. split; [apply main_monotone, Hinv|]. split.
  - intros E e s2 r HE Hbody.
    destruct (cycle_around_unit E e w HE)
      as [s2' [total [Hunit [_ [Hc1 [Hw1 [_ [_ [Hw3 _]]]]]]]]].
    apply etl_unit_cases in Hunit.
    destruct Hunit as [s1 [r1 [Hbody' [_ [Hw2 _]]]]].
    rewrite Hbody in Hbody'. injection Hbody' as <- <-.
    rewrite Hw3, Hw2. pose proof (unit_body_outcome _ _ _ _ _ Hbody) as [Hc2 [_ Hr]].
    destruct r as [[]|x].
    + destruct Hr as [w3 [k [_ [_ [Hk [_ Hrow]]]]]]. rewrite Hw1 in Hrow.
      destruct (etl_watermark w !! watermark_name e) as [row|] eqn:Erow.
      * exists k. split; [exact Hk|]. split; [specialize (Hinv _ _ Erow); lia|].
        rewrite Hrow. apply lookup_insert_eq.
      * rewrite Hrow. exact Hw1.
    + rewrite Hr. exact Hw1.
  - intros E e s s' x Hbody. apply unit_body_outcome in Hbody. tauto.
Qed.

(** The source is down for the scenarios, and has one new event for the
    timeline. *)
Definition timeline_record : pydict :=
  [ ("event_time", VInt 1700000000000000); ("event_type", VStr "SCENARIO_CREATED");
    ("event_category", VStr "LIFECYCLE"); ("actor", VStr "ann");
    ("description", VStr "Scenario created"); ("run_id", VNone); ("node_name", VNone);
    ("event_type_name", VNone); ("scenario_id", VStr "a001");
    ("source_key", VStr "SC_a001") ].

Definition scenarios_down : env :=
  calm (fun e => match e with
                 | Scenarios => Raise (DatabaseError "connection refused")
                 | Timeline => Ok [timeline_record]
                 | _ => Ok []
                 end).

Lemma provisioned_wm_le_clock : wm_le_clock provisioned.
Proof.
  intros name row Hrow. apply elem_of_list_to_map_2 in Hrow.
  repeat (apply elem_of_cons in Hrow; destruct Hrow as [[= _ ->] | Hrow];
          [vm_compute; discriminate|]).
  inversion Hrow.
Qed.

Lemma calm_raises_only_Exceptions (rows_of : entity -> result (list pydict)) :
  (forall e x, rows_of e = Raise x -> is_Exception x = true) ->
  raises_only_Exceptions (calm rows_of).
Proof.
  intros Hrows. split; [discriminate|]. intros e since x. apply Hrows.
Qed.

Lemma scenarios_down_Exceptions : raises_only_Exceptions scenarios_down.
Proof.
  apply calm_raises_only_Exceptions. intros [] x; simpl; try discriminate.
  now intros [= <-].
Qed.

(** Two cycles from the provisioned target, the first with the source
    down for the scenarios. *)
Lemma watermark_monotone_witness :
  wm_le (etl_watermark provisioned)
    (etl_watermark
       (fst (fst (@main decimal_builtins [(scenarios_down, None); (nothing_new, None)]
                    provisioned)))).
Proof.
  apply (@watermark_monotone_commit_only decimal_builtins
           [(scenarios_down, None); (nothing_new, None)] provisioned).
  exact provisioned_wm_le_clock.
Defined.

(** ** Failure isolation *)

(** The unit of [e] has nothing to fail on, in a cycle started in [w]: its
    stores answer, its watermark row [row] and its table [tb] are there,
    the source answers [rows], which transform to [ts], which the target
    takes, and the counters of the row have room. *)
Definition healthy `{PyBuiltins} (E : env) (e : entity) (w : world)
    (rows : list pydict) (ts : list (list pyval)) (row : wm_row) (tb : table) : Prop :=
  (forall o, fault E e o = None) /\
  etl_watermark w !! watermark_name e = Some row /\
  source E e (last_fetched_at row - seconds OVERLAP_SEC) = Ok rows /\
  transform_of e rows = Ok ts /\
  tables w !! into (target_of e) = Some tb /\
  (forall now, exists tb' evs,
     execute_pages (target_of e) (accepts E e) now tb (pages 500 ts) = (tb', evs, Ok tt)) /\
  Z.of_nat (length rows) <= INT_MAX /\
  total_rows_ever row + Z.of_nat (length rows) <= BIGINT_MAX.

Lemma loader_healthy (E : env) (e : entity) (ts : list (list pyval)) (w : world)
    (tb tb' : table) (evs : list event) :
  fault E e OpWrite = None -> fault E e OpCommit = None ->
  tables w !! into (target_of e) = Some tb ->
  execute_pages (target_of e) (accepts E e) (clock w + Z.of_N (latency E e)) tb
    (pages 500 ts) = (tb', evs, Ok tt) ->
  exists w', loader E e ts w = (w', Ok (Z.of_nat (length ts))) /\
    clock w <= clock w' <= clock w + Z.of_N (latency E e) /\
    etl_watermark w' = etl_watermark w /\
    tables w' !! into (target_of e) = Some tb'.
Proof.
  intros Hwrite Hcommit Htb Hpages. rewrite loader_load_into.
  destruct ts as [|t ts].
  - injection Hpages as <- _. exists w. repeat split; auto; lia.
  - unfold load_into, bindM, executemany_target. rewrite Hwrite.
    change (tables (tick (latency E e) (emit (TargetConnect "pool") w))) with (tables w).
    rewrite Htb.
    change (clock (tick (latency E e) (emit (TargetConnect "pool") w)))
      with (clock w + Z.of_N (latency E e)).
    rewrite Hpages, Hcommit. eexists. split; [reflexivity|]. simpl.
    repeat split; try lia. apply lookup_insert_eq.
Qed.

Section Isolation.
Context `{PyBuiltins}.

(** A healthy unit returns, with its rows loaded and its watermark
    committed, from any state that holds its row and its table. *)
Lemma unit_body_healthy (E : env) (e : entity) (w : world) (rows : list pydict)
    (ts : list (list pyval)) (row : wm_row) (tb : table) (s : cycle_state) :
  healthy E e w rows ts row tb ->
  etl_watermark (fst s) !! watermark_name e = Some row ->
  tables (fst s) !! into (target_of e) = Some tb ->
  exists s' now tb' evs,
    unit_body E e s = (s', Ok tt) /\
    clock (fst s) <= now <= clock (fst s') /\
    execute_pages (target_of e) (accepts E e) now tb (pages 500 ts) = (tb', evs, Ok tt) /\
    tables (fst s') !! into (target_of e) = Some tb' /\
    etl_watermark (fst s') !! watermark_name e
    = Some (mk_wm (clock (fst s')) (Z.of_nat (length rows)) (Some (clock (fst s')))
              (total_rows_ever row + Z.of_nat (length rows))).
Proof.
  intros [Hfault [_ [Hsrc [Htr [_ [Hexec [Hint Hbig]]]]]]] Hrow Htb.
  rewrite unit_body_steps. unfold bindM at 1. unfold on_world at 1.
  unfold get_watermark. rewrite (Hfault OpReadWatermark). cbv zeta.
  match goal with |- context [etl_watermark ?w1 !! _] =>
    change (etl_watermark w1) with (etl_watermark (fst s)) end.
  rewrite Hrow. simpl fst. simpl snd.
  unfold bindM at 1. unfold on_world at 1. unfold extract. rewrite Hsrc.
  cbv zeta. simpl fst. simpl snd.
  match goal with |- context [(logger ?l ?w1, snd s)] =>
    set (w2 := logger l w1) end.
  assert (Hframe2 : clock (fst s) <= clock w2 /\ etl_watermark w2 = etl_watermark (fst s)
                    /\ tables w2 = tables (fst s)) by (subst w2; simpl; repeat split; lia).
  destruct Hframe2 as [Hc2 [Hw2 Ht2]]. clearbody w2.
  destruct (Hexec (clock w2 + Z.of_N (latency E e))) as [tb' [evs Hpages]].
  assert (Hload : exists w3 tot3,
            transform_and_load E e rows (w2, snd s) = ((w3, tot3), Ok tt) /\
            clock w2 <= clock w3 /\ etl_watermark w3 = etl_watermark w2 /\
            tables w3 !! into (target_of e) = Some tb').
  { unfold transform_and_load. destruct rows as [|r0 rows0].
    - assert (ts = []) as -> by (destruct e; cbv in Htr; congruence).
      injection Hpages as <- _.
      exists w2, (snd s). repeat split; [lia | now rewrite Ht2].
    - unfold bindM, lift, on_world, add_total. rewrite Htr. simpl fst.
      destruct (loader_healthy E e ts w2 tb tb' evs (Hfault OpWrite) (Hfault OpCommit))
        as [w3 [-> [Hc3 [Hw3 Ht3]]]]; [now rewrite Ht2 | exact Hpages |].
      eexists _, _. split; [reflexivity|]. cbn [fst snd].
      repeat split; [lia | auto | auto]. }
  destruct Hload as [w3 [tot3 [Hload [Hc3 [Hw3 Ht3]]]]].
  unfold bindM at 1. rewrite Hload. unfold on_world. simpl fst. simpl snd.
  unfold update_watermark. rewrite (Hfault OpUpdateWatermark). cbv zeta.
  match goal with |- context [etl_watermark ?w4 !! _] =>
    change (etl_watermark w4) with (etl_watermark w3) end.
  rewrite Hw3, Hw2, Hrow.
  replace ((Z.of_nat (length rows) <=? INT_MAX)
           && (total_rows_ever row + Z.of_nat (length rows) <=? BIGINT_MAX)) with true.
  2: { symmetry. apply andb_true_iff. split; apply Z.leb_le; assumption. }
  eexists _, (clock w2 + Z.of_N (latency E e)), tb', evs.
  split; [reflexivity|]. simpl.
  split; [lia|].
  split; [exact Hpages|]. split; [exact Ht3|].
  apply lookup_insert_eq.
Qed.
End Isolation.

(** C3.  When the exceptions the stores raise during a cycle are
    [Exception]s, [run_cycle] returns, whichever steps of whichever units
    raised; and every entity type whose own steps have nothing to fail on
    ends the cycle with its rows loaded and its watermark committed,
    whatever happened to the entity types before it.  Whatever the
    surroundings, an exception that does leave [run_cycle] is no
    [Exception]. *)
Theorem failure_isolation `{PyBuiltins} (E : env) (w : world) :
  raises_only_Exceptions E ->
  (exists total, snd (run_cycle E w) = Ok total) /\
  (forall e s, exists s', etl_unit E e s = (s', Ok tt)) /\
  (forall e rows ts row tb,
     healthy E e w rows ts row tb ->
     exists c now tb' evs,
       clock w <= now <= c /\ c <= clock (fst (run_cycle E w)) /\
       etl_watermark (fst (run_cycle E w)) !! watermark_name e
       = Some (mk_wm c (Z.of_nat (length rows)) (Some c)
                 (total_rows_ever row + Z.of_nat (length rows))) /\
       execute_pages (target_of e) (accepts E e) now tb (pages 500 ts) = (tb', evs, Ok tt) /\
       tables (fst (run_cycle E w)) !! into (target_of e) = Some tb') /\
  (forall E' w' x, run_cycle E' w = (w', Raise x) -> is_Exception x = false).
Proof.
  intros HE. split; [|split; [|split]].
  - destruct (cycle_around_unit E Scenarios w HE) as [_ [total [_ [-> _]]]]. now exists total.
  - intros e s. apply etl_unit_returns, HE.
  - intros e rows ts row tb Hhealthy.
    destruct (cycle_around_unit E e w HE)
      as [s2 [total [Hunit [_ [Hc1 [Hw1 [Ht1 [Hc3 [Hw3 Ht3]]]]]]]]].
    pose proof Hhealthy as [_ [Hrow [_ [_ [Htb _]]]]].
    rewrite <- Hw1 in Hrow. rewrite <- Ht1 in Htb.
    destruct (unit_body_healthy E e w rows ts row tb _ Hhealthy Hrow Htb)
      as [s1 [now [tb' [evs [Hbody [Hnow [Hpages [Htb' Hrow']]]]]]]].
    apply etl_unit_cases in Hunit.
    destruct Hunit as [s1' [r1 [Hbody' [Hc2 [Hw2 [Ht2 [_ _]]]]]]].
    rewrite Hbody in Hbody'. injection Hbody' as <- <-.
    exists (clock (fst s1)), now, tb', evs.
    split; [lia|]. split; [lia|].
    split; [now rewrite Hw3, Hw2|]. split; [exact Hpages|]. now rewrite Ht3, Ht2.
  - intros E' w' x Hcycle. apply run_cycle_cases in Hcycle.
    destruct Hcycle as [s1 [[[]|y] [_ [_ [_ [_ Hr]]]]]]; [discriminate|].
    destruct Hr as [[= ->] Hy]. exact Hy.
Qed.

Lemma timeline_healthy_while_scenarios_down :
  @healthy decimal_builtins scenarios_down Timeline provisioned
    [timeline_record] [timeline_tuple] seeded_row (mk_table [] 0).
Proof.
  repeat split; try reflexivity.
  - intros now. eexists. eexists. reflexivity.
  - vm_compute. discriminate.
  - vm_compute. discriminate.
Qed.

(** The scenarios fail to extract; the cycle returns, logs the failure,
    and the timeline is loaded and committed all the same. *)
Lemma failure_isolation_witness :
  (exists total, snd (@run_cycle decimal_builtins scenarios_down provisioned) = Ok total) /\
  In (ErrorUnitFailed "Scenarios" (DatabaseError "connection refused"))
    (log (fst (@run_cycle decimal_builtins scenarios_down provisioned))) /\
  exists c tb',
    etl_watermark (fst (@run_cycle decimal_builtins scenarios_down provisioned)) !! "timeline"
    = Some (mk_wm c 1 (Some c) 1) /\
    tables (fst (@run_cycle decimal_builtins scenarios_down provisioned))
      !! "fact_scenario_timeline" = Some tb' /\
    length (trows tb') = 1%nat.
Proof.
  destruct (@failure_isolation decimal_builtins scenarios_down provisioned
              scenarios_down_Exceptions) as [Hreturns [_ [Hiso _]]].
  split; [exact Hreturns|].
  split; [vm_compute; tauto|].
  destruct (Hiso Timeline _ _ _ _ timeline_healthy_while_scenarios_down)
    as [c [now [tb' [evs [_ [_ [Hrow [Hpages Htb']]]]]]]].
  exists c, tb'. split; [exact Hrow|]. split; [exact Htb'|].
  injection Hpages as <- _. reflexivity.
Defined.

(** ** scheduler.py: failures, escalation, interrupts *)

(** The state in which the sleep of an iteration ends when nothing
    interrupts it. *)
Definition slept (w : world) : world :=
  tick (Z.to_N (seconds POLL_INTERVAL_SEC)) (emit (Sleep POLL_INTERVAL_SEC) w).

Lemma slept_clock (w : world) : clock (slept w) = clock w + 30 * 1000000.
Proof. reflexivity. Qed.

Lemma sleep_None (w : world) : sleep None w = (slept w, Looping).
Proof. reflexivity. Qed.

(** The log lines of a failed cycle: the error, and the critical line once
    the count has reached the threshold. *)
Definition failure_lines (failures : Z) (x : exn) : list log_record :=
  ErrorCycleFailed failures x
  :: (if MAX_CONSECUTIVE_FAILURES <=? failures
      then [CriticalConsecutiveFailures MAX_CONSECUTIVE_FAILURES]
      else []).

Definition logged (lines : list log_record) (w : world) : world :=
  mk_world (clock w) (etl_watermark w) (tables w) (trace w) (log w ++ lines).

Lemma iteration_failed (cycle : M world Z) (signal : option (N * exn)) (cf : Z)
    (w w1 : world) (x : exn) :
  cycle w = (w1, Raise x) -> is_Exception x = true ->
  iteration cycle signal cf w
  = (fst (sleep signal (logged (failure_lines (cf + 1) x) w1)), cf + 1,
     snd (sleep signal (logged (failure_lines (cf + 1) x) w1))).
Proof.
  intros Hcycle Hx. unfold iteration. rewrite Hcycle.
  assert (Hw : (if MAX_CONSECUTIVE_FAILURES <=? cf + 1
                then logger (CriticalConsecutiveFailures MAX_CONSECUTIVE_FAILURES)
                       (logger (ErrorCycleFailed (cf + 1) x) w1)
                else logger (ErrorCycleFailed (cf + 1) x) w1)
               = logged (failure_lines (cf + 1) x) w1).
  { unfold failure_lines, logged, logger.
    destruct (MAX_CONSECUTIVE_FAILURES <=? cf + 1); simpl; [|reflexivity].
    now rewrite <- app_assoc. }
  destruct x; try discriminate; simpl is_Exception; cbv iota; rewrite Hw;
    now destruct (sleep signal _).
Qed.

(** A run of cycles that all fail, with no signal: the count goes up by
    one per cycle and the loop goes on. *)
Lemma loop_all_failing (its : list (M world Z * option (N * exn))) (cf : Z) (w : world) :
  Forall (fun it => snd it = None /\
                    forall w0, exists w1 x, fst it w0 = (w1, Raise x) /\
                                            is_Exception x = true) its ->
  exists w', loop its cf w = (w', cf + Z.of_nat (length its), Looping).
Proof.
  intros Hits. revert cf w. induction Hits as [|[cycle signal] its [Hsig Hfail] _ IH];
    intros cf w.
  - exists w. simpl. now rewrite Z.add_0_r.
  - simpl in Hsig. subst signal. destruct (Hfail w) as [w1 [x [Hcycle Hx]]].
    cbn [loop]. rewrite (iteration_failed _ _ _ _ _ _ Hcycle Hx), sleep_None.
    cbn [fst snd].
    destruct (IH (cf + 1) (slept (logged (failure_lines (cf + 1) x) w1))) as [w' ->].
    exists w'. f_equal. f_equal. rewrite length_cons. lia.
Qed.

(** The body of the loop, for any cycle function, in an iteration whose
    sleep no signal interrupts: when the cycle returns, the count of
    consecutive failures is 0; when it raises an [Exception], the count is
    one more, the failure is logged, and once the count has reached
    MAX_CONSECUTIVE_FAILURES = 10 so is the critical line; either way the
    iteration then sleeps POLL_INTERVAL_SEC = 30 seconds and the loop goes
    on. *)
Lemma scheduler_counts_consecutive_failures (cycle : M world Z) (cf : Z) (w w1 : world) :
  (forall n, cycle w = (w1, Ok n) -> iteration cycle None cf w = (slept w1, 0, Looping)) /\
  (forall x, cycle w = (w1, Raise x) -> is_Exception x = true ->
     iteration cycle None cf w
     = (slept (logged (failure_lines (cf + 1) x) w1), cf + 1, Looping) /\
     (MAX_CONSECUTIVE_FAILURES <= cf + 1 <->
      In (CriticalConsecutiveFailures 10) (failure_lines (cf + 1) x))) /\
  (forall w0, clock (slept w0) = clock w0 + 30 * 1000000 /\
              trace (slept w0) = (trace w0 ++ [Sleep 30])%list) /\
  (forall its,
     Forall (fun it => snd it = None /\
                       forall w0, exists w2 x, fst it w0 = (w2, Raise x) /\
                                               is_Exception x = true) its ->
     exists w', loop its cf w = (w', cf + Z.of_nat (length its), Looping)) /\
  MAX_CONSECUTIVE_FAILURES = 10.
Proof.
  split; [|split; [|split; [|split]]].
  - intros n Hcycle. unfold iteration. now rewrite Hcycle.
  - intros x Hcycle Hx.
    split; [now rewrite (iteration_failed _ _ _ _ _ _ Hcycle Hx), sleep_None|].
    unfold failure_lines. destruct (MAX_CONSECUTIVE_FAILURES <=? cf + 1) eqn:Hmax.
    + apply Z.leb_le in Hmax. split; [intros _; right; now left | auto].
    + apply Z.leb_gt in Hmax. split; [lia|]. intros [Hin|[]]. discriminate.
  - intros w0. split; reflexivity.
  - intros its Hits. apply loop_all_failing, Hits.
  - reflexivity.
Qed.

(** A cycle function that fails as the watermark store being unreachable
    would make it fail, were the failure to leave [run_cycle]. *)
Definition unreachable : M world Z :=
  fun w => (w, Raise (DatabaseError "could not connect to server")).

(** Ten failing cycles in a row: the count is 10, the tenth failure logs
    the critical line, and the loop goes on. *)
Lemma scheduler_counts_witness :
  (exists w', loop (repeat (unreachable, None) 10) 0 provisioned = (w', 10, Looping)) /\
  iteration unreachable None 9 provisioned
  = (slept (logged [ErrorCycleFailed 10 (DatabaseError "could not connect to server");
                    CriticalConsecutiveFailures 10] provisioned), 10, Looping).
Proof.
  destruct (scheduler_counts_consecutive_failures unreachable 9 provisioned provisioned)
    as [_ [Hfail _]].
  destruct (scheduler_counts_consecutive_failures unreachable 0 provisioned provisioned)
    as [_ [_ [_ [Hloop _]]]].
  split.
  - apply (Hloop (repeat (unreachable, None) 10)).
    repeat constructor; intros w0; exists w0; eexists; split; reflexivity.
  - apply (Hfail (DatabaseError "could not connect to server")); reflexivity.
Defined.

(** ** scheduler.py: cycles that fail entirely *)






(** Without interrupts the cycle returns: the count never leaves 0. *)
Lemma run_cycle_returns `{PyBuiltins} (E : env) (w : world) :
  raises_only_Exceptions E -> exists w' total, run_cycle E w = (w', Ok total).
Proof.
  intros HE. destruct (cycle_around_unit E Scenarios w HE) as [_ [total [_ [Hcycle _]]]].
  eauto.
Qed.

(** C8, at the input on which the code breaks it.  A KeyboardInterrupt
    that arrives between two cycles arrives in [time.sleep], which stands
    outside the [try] of the loop: nothing catches it, and the process ends
    with the status of an uncaught interrupt, not 0. *)
Theorem interrupt_between_cycles_is_uncaught `{PyBuiltins} (E : env) (w : world)
    (after : N) :
  raises_only_Exceptions E ->
  snd (main [(E, Some (after, KeyboardInterrupt))] w) = Uncaught KeyboardInterrupt /\
  exit_status (snd (main [(E, Some (after, KeyboardInterrupt))] w)) = Some 130 /\
  exit_status (snd (main [(E, Some (after, KeyboardInterrupt))] w)) <> Some 0.
Proof.
  intros HE. destruct (run_cycle_returns E w HE) as [w1 [total Hcycle]].
  unfold main. cbn [map loop fst snd]. unfold iteration. rewrite Hcycle.
  cbn [sleep fst snd exit_status]. repeat split. discriminate.
Qed.

Lemma nothing_new_Exceptions : raises_only_Exceptions nothing_new.
Proof. apply calm_raises_only_Exceptions. discriminate. Qed.

(** An interrupt five seconds into the first sleep. *)
Lemma interrupt_between_cycles_witness :
  snd (@main decimal_builtins [(nothing_new, Some (5000000%N, KeyboardInterrupt))]
         provisioned) = Uncaught KeyboardInterrupt /\
  exit_status (snd (@main decimal_builtins
                      [(nothing_new, Some (5000000%N, KeyboardInterrupt))] provisioned))
  = Some 130.
Proof.
  destruct (@interrupt_between_cycles_is_uncaught decimal_builtins nothing_new provisioned
              5000000%N nothing_new_Exceptions) as [Hstatus [Hexit _]].
  split; [exact Hstatus | exact Hexit].
Defined.

(** The sibling path: a KeyboardInterrupt that arrives while the cycle
    runs is the one the loop catches, and the process exits with status 0. *)
Lemma interrupt_during_cycle_exits_0 (cycle : M world Z) (signal : option (N * exn))
    (cf : Z) (w w1 : world) :
  cycle w = (w1, Raise KeyboardInterrupt) ->
  iteration cycle signal cf w = (logger InfoStoppedByUser w1, cf, Exited 0) /\
  exit_status (Exited 0) = Some 0.
Proof.
  intros Hcycle. unfold iteration. rewrite Hcycle. split; reflexivity.
Qed.

(** The same surroundings as [nothing_new], but for an interrupt that
    arrives while the unit of the runs reads its watermark. *)
Definition interrupted_at_runs : env :=
  mk_env (fun _ _ => Ok [])
    (fun e o => match e, o with
                | Runs, OpReadWatermark => Some KeyboardInterrupt
                | _, _ => None
                end)
    (fun _ _ => true) (fun _ => 2000%N).

Example interrupt_at_runs_exits_0 :
  snd (@main decimal_builtins [(interrupted_at_runs, None)] provisioned) = Exited 0 /\
  In InfoStoppedByUser
    (log (fst (fst (@main decimal_builtins [(interrupted_at_runs, None)] provisioned)))).
Proof. split; vm_compute; tauto. Qed.

(** The interrupt of [interrupted_at_runs], met by the loop body. *)
Lemma interrupt_during_cycle_witness :
  iteration (@run_cycle decimal_builtins interrupted_at_runs) None 0 provisioned
  = (logger InfoStoppedByUser
       (fst (@run_cycle decimal_builtins interrupted_at_runs provisioned)), 0, Exited 0).
Proof.
  apply (interrupt_during_cycle_exits_0 (@run_cycle decimal_builtins interrupted_at_runs)
           None 0 provisioned
           (fst (@run_cycle decimal_builtins interrupted_at_runs provisioned))).
  vm_compute. reflexivity.
Defined.

(** The timeline record of the examples is transformed into its tuple. *)
Lemma plain_transforms_witness :
  exists ts, transform_timeline [timeline_record] = Ok ts /\ length ts = 1%nat.
Proof.
  destruct (plain_transforms_total [timeline_record]) as [_ [_ [_ Htimeline]]].
  apply Htimeline. repeat constructor.
Defined.

(** * Further properties *)

(** ** transform.py and load.py: the tuples and the column lists *)

Lemma getitem_Ok (d : pydict) (k : string) (v : pyval) : getitem d k = Ok v -> get d k = v.
Proof.
  unfold getitem, get. destruct (dict_get d k); [now intros [= ->] | discriminate].
Qed.

(** The value a field of a tuple display has when the display returns. *)
Definition field_value (r : pydict) (f : field) : pyval :=
  match f with
  | Item k | Get k => get r k
  | GetOr0 k => if truthy (get r k) then get r k else VInt 0
  end.

Lemma tuple_of_values (fs : list field) (r : pydict) (t : list pyval) :
  tuple_of fs r = Ok t -> t = map (field_value r) fs.
Proof.
  revert t. induction fs as [|f fs IH]; simpl; intros t; [now intros [= <-]|].
  destruct (eval_field r f) as [v|x] eqn:Ef; cbn [bind]; [|discriminate].
  destruct (tuple_of fs r) as [vs|x]; cbn [bind]; [|discriminate].
  intros [= <-]. rewrite (IH vs eq_refl). f_equal.
  destruct f; simpl in *; [now apply getitem_Ok in Ef | congruence | congruence].
Qed.

Lemma for_each_Forall2 {A B : Type} (f : A -> result B) (rows : list A) (ts : list B) :
  for_each f rows = Ok ts -> Forall2 (fun r t => f r = Ok t) rows ts.
Proof.
  revert ts. induction rows as [|r rows IH]; simpl; intros ts.
  - intros [= <-]. constructor.
  - destruct (f r) as [t|x] eqn:Er; cbn [bind]; [|discriminate].
    destruct (for_each f rows) as [ts'|x]; cbn [bind]; [|discriminate].
    intros [= <-]. constructor; [exact Er | now apply IH].
Qed.

Section RowTuples.
Context `{PyBuiltins}.

(** The tuple a transform appends for one record. *)
Definition row_tuple (e : entity) : pydict -> result (list pyval) :=
  match e with
  | Scenarios => tuple_of scenario_fields
  | NodeData => node_data_tuple
  | Runs => tuple_of run_fields
  | NodeCalc => tuple_of node_calc_fields
  | EventData => event_data_tuple
  | Timeline => tuple_of timeline_fields
  end.

Lemma transform_of_row_tuple (e : entity) (rows : list pydict) :
  transform_of e rows = for_each (row_tuple e) rows.
Proof. destruct e; reflexivity. Qed.

(** The tuple of a node data record, element by element. *)
Lemma node_data_tuple_elements (r : pydict) (t : list pyval) :
  node_data_tuple r = Ok t ->
  exists flat message,
    flatten_input_data (get r "input_data") = Ok flat /\
    node_validation_message r = Ok message /\
    t = [ get r "id"; get r "scenario_id"; get r "model_node_id";
          get r "node_display_name"; get r "node_type"; get r "tab_name";
          get r "tab_level"; get r "group_name"; get r "group_type"; get r "node_seq";
          get r "flow"; get r "version_started_at"; get r "version_ended_at";
          VBool (is_none (get r "version_ended_at"));
          get r "edited_by"; get r "input_hash"; get r "input_validated";
          message; get r "source";
          get flat "inp_value"; get flat "inp_unit"; get flat "inp_start_year";
          get flat "inp_end_year"; get flat "inp_input_type"; get flat "inp_timeframe";
          get flat "inp_dosing_type"; get flat "inp_actuals_flag";
          get flat "inp_curve_type"; get flat "inp_selected_output";
          get flat "inp_pfs_flag"; get flat "inp_ppc_flag";
          get flat "input_data_full_text" ].
Proof.
  unfold node_data_tuple.
  destruct (getitem r "input_data") as [payload|x] eqn:Epayload; cbn [bind]; [|discriminate].
  apply getitem_Ok in Epayload. subst payload.
  destruct (flatten_input_data (get r "input_data")) as [flat|x]; cbn [bind]; [|discriminate].
  destruct (getitem r "version_ended_at") as [ended|x] eqn:Eended; cbn [bind]; [|discriminate].
  apply getitem_Ok in Eended. subst ended.
  bind_cases; [|discriminate]. apply tuple_of_values in E. subst.
  bind_cases; [|discriminate]. apply tuple_of_values in E. subst.
  destruct (node_validation_message r) as [message|x]; cbn [bind]; [|discriminate].
  bind_cases; [|discriminate]. apply tuple_of_values in E. subst.
  intros [= <-]. exists flat, message. repeat split.
Qed.

Lemma event_data_tuple_elements (r : pydict) (t : list pyval) :
  event_data_tuple r = Ok t ->
  exists flat,
    flatten_event_data (get r "event_data") = Ok flat /\
    t = [ get r "id"; get r "scenario_id"; get r "event_type_name"; get r "is_inherent";
          get r "population_node_name"; get r "parent_product_name";
          get r "version_started_at"; get r "version_ended_at";
          VBool (is_none (get r "version_ended_at"));
          get r "edited_by"; get r "event_data_hash"; get r "is_overridden";
          get r "override_data_text"; get r "is_validated"; get r "validation_message";
          get flat "evt_year"; get flat "evt_share_value"; get flat "evt_entry_quarter";
          get flat "evt_erosion_rate"; get flat "evt_launch_date";
          get flat "evt_steady_state"; get flat "evt_sob_value";
          get flat "event_data_full_text" ].
Proof.
  unfold event_data_tuple.
  destruct (getitem r "event_data") as [payload|x] eqn:Epayload; cbn [bind]; [|discriminate].
  apply getitem_Ok in Epayload. subst payload.
  destruct (flatten_event_data (get r "event_data")) as [flat|x]; cbn [bind]; [|discriminate].
  destruct (getitem r "version_ended_at") as [ended|x] eqn:Eended; cbn [bind]; [|discriminate].
  apply getitem_Ok in Eended. subst ended.
  bind_cases; [|discriminate]. apply tuple_of_values in E. subst.
  bind_cases; [|discriminate]. apply tuple_of_values in E. subst.
  bind_cases; [|discriminate]. apply tuple_of_values in E. subst.
  intros [= <-]. exists flat. repeat split.
Qed.
End RowTuples.

(** The record field whose value a column of the INSERT receives as it is:
    the field of the same name, but for the four columns the target
    renames. *)
Definition field_of_column (e : entity) (c : string) : string :=
  match e with
  | Scenarios =>
      if String.eqb c "scenario_id" then "id"
      else if String.eqb c "scenario_status" then "status" else c
  | NodeData =>
      if String.eqb c "source_id" then "id"
      else if String.eqb c "data_source" then "source" else c
  | NodeCalc | EventData => if String.eqb c "source_id" then "id" else c
  | Runs | Timeline => c
  end.

(** The columns whose value the transform computes. *)
Definition computed_columns (e : entity) : list string :=
  match e with
  | NodeData =>
      "is_current_version" :: "validation_message"
      :: (map (String.append "inp_") INPUT_DATA_KEYS ++ ["input_data_full_text"])%list
  | EventData =>
      "is_current_version"
      :: (map (String.append "evt_") EVENT_DATA_KEYS ++ ["event_data_full_text"])%list
  | Runs =>
      [ "branch_count"; "total_nodes_processed"; "nodes_success"; "nodes_failed";
        "nodes_timeout" ]
  | _ => []
  end.

Ltac each_column Hc Hnc :=
  simpl in Hc;
  repeat (destruct Hc as [<-|Hc];
          [first [reflexivity | vm_compute in Hnc; discriminate]|]);
  destruct Hc.

(** Every transform builds its tuples in the order of the column list of
    the INSERT its loader runs: a tuple has one element per column, and a
    column the transform does not compute receives the field of its name
    (of the renamed field, for the four renamed columns); the counts of a
    run receive the field, or 0 when the field is missing, None or zero.
    The tuples come one per record, in the order of the records. *)
Theorem tuples_fit_insert_columns `{PyBuiltins} (e : entity) (rows : list pydict)
    (ts : list (list pyval)) :
  transform_of e rows = Ok ts ->
  Forall2 (fun r t =>
             length t = length (insert_columns (target_of e)) /\
             (forall c, In c (insert_columns (target_of e)) ->
                        str_in c (computed_columns e) = false ->
                        get (proposed (target_of e) t) c = get r (field_of_column e c)) /\
             (e = Runs -> forall c, In c (computed_columns Runs) ->
                get (proposed fact_run_summary t) c
                = if truthy (get r c) then get r c else VInt 0))
    rows ts.
Proof.
  rewrite transform_of_row_tuple. intros Hts. apply for_each_Forall2 in Hts.
  eapply Forall2_impl; [exact Hts|]. clear Hts. intros r t Ht.
  destruct e; cbn [row_tuple] in Ht.
  - apply tuple_of_values in Ht. subst t.
    split; [reflexivity|]. split; [|discriminate].
    intros c Hc Hnc. each_column Hc Hnc.
  - apply node_data_tuple_elements in Ht. destruct Ht as [flat [message [_ [_ ->]]]].
    split; [reflexivity|]. split; [|discriminate].
    intros c Hc Hnc. each_column Hc Hnc.
  - apply tuple_of_values in Ht. subst t.
    split; [reflexivity|]. split.
    + intros c Hc Hnc. each_column Hc Hnc.
    + intros _ c Hc. simpl in Hc.
      repeat (destruct Hc as [<-|Hc]; [reflexivity|]). destruct Hc.
  - apply tuple_of_values in Ht. subst t.
    split; [reflexivity|]. split; [|discriminate].
    intros c Hc Hnc. each_column Hc Hnc.
  - apply event_data_tuple_elements in Ht. destruct Ht as [flat [_ ->]].
    split; [reflexivity|]. split; [|discriminate].
    intros c Hc Hnc. each_column Hc Hnc.
  - apply tuple_of_values in Ht. subst t.
    split; [reflexivity|]. split; [|discriminate].
    intros c Hc Hnc. each_column Hc Hnc.
Qed.

(** ** transform.py: the computed columns of the two versioned transforms *)

Section VersionedTuples.
Context `{PyBuiltins}.

(** The payload of a record of a versioned entity, flattened. *)
Definition flattened_payload (e : entity) (r : pydict) : result pydict :=
  match e with
  | NodeData => flatten_input_data (get r "input_data")
  | EventData => flatten_event_data (get r "event_data")
  | _ => Ok []
  end.

Lemma versioned_tuple_computed (e : entity) (r : pydict) (t : list pyval) :
  e = NodeData \/ e = EventData ->
  row_tuple e r = Ok t ->
  get (proposed (target_of e) t) "is_current_version"
  = VBool (is_none (get (proposed (target_of e) t) "version_ended_at")) /\
  get (proposed (target_of e) t) "version_ended_at" = get r "version_ended_at" /\
  exists flat, flattened_payload e r = Ok flat /\
    forall c, In c (map fst flat) -> get (proposed (target_of e) t) c = get flat c.
Proof.
  intros [-> | ->]; cbn [row_tuple flattened_payload]; intros Ht.
  - apply node_data_tuple_elements in Ht. destruct Ht as [flat [message [Hflat [_ ->]]]].
    split; [reflexivity|]. split; [reflexivity|].
    exists flat. split; [exact Hflat|].
    rewrite (proj1 (flatten_keys _ flat) Hflat). intros c Hc. simpl in Hc.
    repeat (destruct Hc as [<-|Hc]; [reflexivity|]). destruct Hc.
  - apply event_data_tuple_elements in Ht. destruct Ht as [flat [Hflat ->]].
    split; [reflexivity|]. split; [reflexivity|].
    exists flat. split; [exact Hflat|].
    rewrite (proj2 (flatten_keys _ flat) Hflat). intros c Hc. simpl in Hc.
    repeat (destruct Hc as [<-|Hc]; [reflexivity|]). destruct Hc.
Qed.
End VersionedTuples.

(** In every tuple of [transform_node_data] and [transform_event_data] the
    column [is_current_version] is True exactly when [version_ended_at] is
    None, and the flattened columns hold the entries of the flat row of the
    record's payload, each under the column of its name. *)
Theorem versioned_tuples_computed_columns `{PyBuiltins} (e : entity) (rows : list pydict)
    (ts : list (list pyval)) :
  e = NodeData \/ e = EventData ->
  transform_of e rows = Ok ts ->
  Forall2 (fun r t =>
             get (proposed (target_of e) t) "is_current_version"
             = VBool (is_none (get r "version_ended_at")) /\
             get (proposed (target_of e) t) "version_ended_at" = get r "version_ended_at" /\
             exists flat, flattened_payload e r = Ok flat /\
               forall c, In c (map fst flat) ->
                         get (proposed (target_of e) t) c = get flat c)
    rows ts.
Proof.
  intros He. rewrite transform_of_row_tuple. intros Hts. apply for_each_Forall2 in Hts.
  eapply Forall2_impl; [exact Hts|]. intros r t Ht.
  destruct (versioned_tuple_computed e r t He Ht) as [Hflag [Hend Hflat]].
  rewrite Hend in Hflag. auto.
Qed.

(** ** transform.py: when the versioned transforms return *)

Section VersionedTotal.
Context `{PyBuiltins}.

Lemma flat_row_items (p : pyval) (flat : pydict) (fs : list field) :
  (flatten_input_data p = Ok flat ->
   forallb (fun k => str_in k (map (String.append "inp_") INPUT_DATA_KEYS
                                ++ ["input_data_full_text"])%list) (items fs) = true ->
   returns (tuple_of fs flat)) /\
  (flatten_event_data p = Ok flat ->
   forallb (fun k => str_in k (map (String.append "evt_") EVENT_DATA_KEYS
                                ++ ["event_data_full_text"])%list) (items fs) = true ->
   returns (tuple_of fs flat)).
Proof.
  split; intros Hflat Hfs.
  - destruct (tuple_of_returns _ fs flat (proj1 (flatten_keys p flat) Hflat) Hfs)
      as [t [Ht _]]. now exists t.
  - destruct (tuple_of_returns _ fs flat (proj2 (flatten_keys p flat) Hflat) Hfs)
      as [t [Ht _]]. now exists t.
Qed.

Lemma node_data_tuple_returns (r : pydict) :
  has_columns node_data_columns r ->
  returns (flatten_input_data (get r "input_data")) ->
  truthy (get r "input_validation_message") = false ->
  returns (node_data_tuple r).
Proof.
  intros Hr [flat Hflat] Hmsg. unfold node_data_tuple.
  rewrite (getitem_present node_data_columns r "input_data" Hr eq_refl). cbn [bind].
  rewrite Hflat. cbn [bind].
  rewrite (getitem_present node_data_columns r "version_ended_at" Hr eq_refl). cbn [bind].
  match goal with |- context [bind (tuple_of ?fs r) _] =>
    destruct (tuple_of_returns node_data_columns fs r Hr eq_refl) as [hd [-> _]] end.
  cbn [bind].
  match goal with |- context [bind (tuple_of ?fs r) _] =>
    destruct (tuple_of_returns node_data_columns fs r Hr eq_refl) as [mid [-> _]] end.
  cbn [bind]. unfold node_validation_message. rewrite Hmsg. cbn [bind].
  match goal with |- context [bind (tuple_of ?fs flat) _] =>
    destruct (proj1 (flat_row_items _ flat fs) Hflat eq_refl) as [fl ->] end.
  cbn [bind]. eexists. reflexivity.
Qed.

Lemma event_data_tuple_returns (r : pydict) :
  has_columns event_data_columns r ->
  returns (flatten_event_data (get r "event_data")) ->
  returns (event_data_tuple r).
Proof.
  intros Hr [flat Hflat]. unfold event_data_tuple.
  rewrite (getitem_present event_data_columns r "event_data" Hr eq_refl). cbn [bind].
  rewrite Hflat. cbn [bind].
  rewrite (getitem_present event_data_columns r "version_ended_at" Hr eq_refl). cbn [bind].
  match goal with |- context [bind (tuple_of ?fs r) _] =>
    destruct (tuple_of_returns event_data_columns fs r Hr eq_refl) as [hd [-> _]] end.
  cbn [bind].
  match goal with |- context [bind (tuple_of ?fs r) _] =>
    destruct (tuple_of_returns event_data_columns fs r Hr eq_refl) as [mid [-> _]] end.
  cbn [bind].
  match goal with |- context [bind (tuple_of ?fs flat) _] =>
    destruct (proj2 (flat_row_items _ flat fs) Hflat eq_refl) as [fl ->] end.
  cbn [bind]. eexists. reflexivity.
Qed.

(** On a record of its query, the message element of a node data tuple is
    None whenever the tuple is built at all. *)
Lemma node_message_None (r : pydict) (message : pyval) :
  has_columns node_data_columns r ->
  node_validation_message r = Ok message ->
  truthy (get r "input_validation_message") = false /\ message = VNone.
Proof.
  intros Hr. unfold node_validation_message.
  destruct (truthy (get r "input_validation_message")).
  - rewrite (getitem_absent node_data_columns r "validation_message" Hr eq_refl).
    discriminate.
  - now intros [= <-].
Qed.
End VersionedTotal.

(** [transform_node_data] returns one tuple per record of its query when
    every payload flattens and no record carries a validation message;
    [transform_event_data] returns one tuple per record of its query when
    every payload flattens. *)
Theorem versioned_transforms_return `{PyBuiltins} (rows : list pydict) :
  (Forall (has_columns node_data_columns) rows ->
   Forall (fun r => returns (flatten_input_data (get r "input_data")) /\
                    truthy (get r "input_validation_message") = false) rows ->
   exists ts, transform_node_data rows = Ok ts /\ length ts = length rows) /\
  (Forall (has_columns event_data_columns) rows ->
   Forall (fun r => returns (flatten_event_data (get r "event_data"))) rows ->
   exists ts, transform_event_data rows = Ok ts /\ length ts = length rows).
Proof.
  split; intros Hcols Hrows; apply for_each_returns; intros r Hr;
    rewrite Forall_forall in Hcols, Hrows; apply list_elem_of_In in Hr.
  - destruct (Hrows r Hr) as [Hflat Hmsg]. now apply node_data_tuple_returns; auto.
  - apply event_data_tuple_returns; auto.
Qed.

(** A node data record of the examples with no validation message, and an
    event data record. *)
Definition event_record : pydict :=
  [ ("id", VStr "e9a1"); ("scenario_id", VStr "a001"); ("event_type_name", VStr "LOE");
    ("is_inherent", VBool true); ("population_node_name", VNone);
    ("parent_product_name", VNone); ("version_started_at", VInt 1700000000000000);
    ("version_ended_at", VNone); ("edited_by", VStr "ann");
    ("event_data", VDict [("year", VStr "2031"); ("share_value", VInt 40)]);
    ("event_data_hash", VStr "h2"); ("is_overridden", VBool false);
    ("override_data_text", VNone); ("is_validated", VBool true);
    ("validation_message", VNone) ].

Lemma versioned_transforms_return_witness :
  (exists ts, @transform_node_data decimal_builtins [open_node_record] = Ok ts /\
              length ts = 1%nat) /\
  (exists ts, @transform_event_data decimal_builtins [event_record] = Ok ts /\
              length ts = 1%nat).
Proof.
  destruct (@versioned_transforms_return decimal_builtins [open_node_record]) as [Hnode _].
  destruct (@versioned_transforms_return decimal_builtins [event_record]) as [_ Hevent].
  split.
  - apply Hnode; repeat constructor. eexists. reflexivity.
  - apply Hevent; repeat constructor. eexists. reflexivity.
Defined.

(** Whenever [transform_node_data] returns on records of its query, no
    record carried a validation message that is true, and the
    [validation_message] of every tuple is None: the column is never
    loaded with a message. *)
Theorem node_validation_message_is_never_loaded `{PyBuiltins} (rows : list pydict)
    (ts : list (list pyval)) :
  Forall (has_columns node_data_columns) rows ->
  transform_node_data rows = Ok ts ->
  Forall (fun r => truthy (get r "input_validation_message") = false) rows /\
  Forall (fun t => get (proposed fact_node_input_history t) "validation_message" = VNone) ts.
Proof.
  intros Hcols Hts. unfold transform_node_data in Hts. apply for_each_Forall2 in Hts.
  induction Hts as [|r t rows ts Ht _ IH]; [split; constructor|].
  inversion Hcols as [|r' rows' Hr Hrest]; subst.
  destruct (IH Hrest) as [IH1 IH2].
  apply node_data_tuple_elements in Ht. destruct Ht as [flat [message [_ [Hmsg ->]]]].
  destruct (node_message_None r message Hr Hmsg) as [Hfalsy ->].
  split; constructor; auto.
Qed.

Lemma node_validation_message_witness :
  Forall (fun t => get (proposed fact_node_input_history t) "validation_message" = VNone)
    (node_tuples open_node_record).
Proof.
  apply (@node_validation_message_is_never_loaded decimal_builtins [open_node_record]
           (node_tuples open_node_record)).
  - repeat constructor.
  - vm_compute. reflexivity.
Defined.

(** The timeline event of the examples fits the INSERT of [load_timeline]. *)
Lemma tuples_fit_insert_columns_witness :
  Forall2 (fun r t =>
             length t = length (insert_columns (target_of Timeline)) /\
             (forall c, In c (insert_columns (target_of Timeline)) ->
                        str_in c (computed_columns Timeline) = false ->
                        get (proposed (target_of Timeline) t) c
                        = get r (field_of_column Timeline c)) /\
             (Timeline = Runs -> forall c, In c (computed_columns Runs) ->
                get (proposed fact_run_summary t) c
                = if truthy (get r c) then get r c else VInt 0))
    [timeline_record] [timeline_tuple].
Proof.
  apply (@tuples_fit_insert_columns decimal_builtins Timeline [timeline_record]
           [timeline_tuple]).
  reflexivity.
Defined.

(** The open version of the examples: its tuple is current. *)
Lemma versioned_tuples_computed_columns_witness :
  Forall2 (fun r t =>
             get (proposed (target_of NodeData) t) "is_current_version"
             = VBool (is_none (get r "version_ended_at")) /\
             get (proposed (target_of NodeData) t) "version_ended_at"
             = get r "version_ended_at" /\
             exists flat, @flattened_payload decimal_builtins NodeData r = Ok flat /\
               forall c, In c (map fst flat) ->
                         get (proposed (target_of NodeData) t) c = get flat c)
    [open_node_record] (node_tuples open_node_record).
Proof.
  apply (@versioned_tuples_computed_columns decimal_builtins NodeData [open_node_record]
           (node_tuples open_node_record)).
  - left. reflexivity.
  - vm_compute. reflexivity.
Defined.

(** ** transform.py: the coercions applied twice *)

Lemma lower_ascii_idempotent (c : ascii) : lower_ascii (lower_ascii c) = lower_ascii c.
Proof. destruct c as [[] [] [] [] [] [] [] []]; reflexivity. Qed.

Lemma lower_idempotent (s : string) : lower (lower s) = lower s.
Proof.
  induction s as [|c s IH]; simpl; [reflexivity|].
  now rewrite lower_ascii_idempotent, IH.
Qed.

(** A value a coercion returned is returned as it is when coerced again,
    and [safe_bool] does not tell a string from its lower-case form. *)
Theorem coercions_are_idempotent `{PyBuiltins} (v : pyval) :
  safe_bool (safe_bool v) = safe_bool v /\
  (forall u, safe_numeric v = Ok u -> safe_numeric u = Ok u) /\
  (forall u, safe_int v = Ok u -> safe_int u = Ok u) /\
  (forall s, safe_bool (VStr (lower s)) = safe_bool (VStr s)).
Proof.
  split; [destruct v; reflexivity|]. split; [|split].
  - intros u Hu. destruct (safe_numeric_cases v) as [[f Hf] | [Hn | Hx]];
      rewrite Hu in *; [injection Hf as -> | injection Hn as -> | discriminate];
      reflexivity.
  - intros u Hu. destruct (safe_int_cases v) as [[z Hz] | [Hn | Hx]];
      rewrite Hu in *; [injection Hz as -> | injection Hn as -> | discriminate];
      reflexivity.
  - intros s. simpl. now rewrite lower_idempotent.
Qed.

(** ** transform.py, config.py and load.py: the flattened entries *)

(** The entries of a flat row are, in order, the keys of config.py under
    their prefix, then the fallback text; and these are the last columns
    of the INSERT of the versioned loader. *)
Theorem flat_rows_follow_config `{PyBuiltins} (p : pyval) :
  (forall flat, flatten_input_data p = Ok flat ->
     map fst flat
     = (map (String.append "inp_") INPUT_DATA_KEYS ++ ["input_data_full_text"])%list /\
     map fst flat = skipn 19 (insert_columns fact_node_input_history)) /\
  (forall flat, flatten_event_data p = Ok flat ->
     map fst flat
     = (map (String.append "evt_") EVENT_DATA_KEYS ++ ["event_data_full_text"])%list /\
     map fst flat = skipn 15 (insert_columns fact_event_input_history)).
Proof.
  split; intros flat Hflat.
  - rewrite (proj1 (flatten_keys p flat) Hflat). split; reflexivity.
  - rewrite (proj2 (flatten_keys p flat) Hflat). split; reflexivity.
Qed.

(** ** db.py and load.py: a batch is written whole or not at all *)

Lemma loader_raised (E : env) (e : entity) (ts : list (list pyval)) (w w' : world)
    (x : exn) :
  loader E e ts w = (w', Raise x) ->
  etl_watermark w' = etl_watermark w /\
  forall name tb, tables w !! name = Some tb ->
    exists tb', tables w' !! name = Some tb' /\ trows tb' = trows tb.
Proof.
  rewrite loader_load_into. intros Hload. apply load_into_cases in Hload.
  destruct Hload as [w1 [Hcall [_ [_ [_ [_ [_ Hsame]]]]]]].
  rewrite (Hsame x eq_refl). split.
  - apply executemany_target_frame in Hcall. tauto.
  - eapply executemany_target_rollback, Hcall.
Qed.

(** When a loader raises, whatever the page and the row at which its
    statement failed, every table holds the rows it held before the call,
    and the watermarks are as they were: no part of a failed batch is
    stored. *)
Theorem failed_load_stores_nothing (E : env) (e : entity) (ts : list (list pyval))
    (w w' : world) (x : exn) :
  loader E e ts w = (w', Raise x) ->
  etl_watermark w' = etl_watermark w /\
  forall name tb, tables w !! name = Some tb ->
    exists tb', tables w' !! name = Some tb' /\ trows tb' = trows tb.
Proof. apply loader_raised. Qed.

(** *** One refused row fails the batch *)

Lemma insert_rows_refused (T : target_table) (ok : list pyval -> bool) (now : Z)
    (page : list (list pyval)) (st : stmt_state) (t : list pyval) :
  In t page -> ok t = false ->
  exists st' x, insert_rows T ok now st page = (st', Raise x).
Proof.
  revert st. induction page as [|t' page IH]; intros st Hin Hok; [destruct Hin|].
  simpl. destruct (insert_one T ok now st t') as [st1 [[]|x]] eqn:Eone; [|eauto].
  destruct Hin as [->|Hin]; [|now apply IH].
  unfold insert_one in Eone. destruct st as [tb wr]. rewrite Hok in Eone. discriminate.
Qed.

Lemma execute_pages_refused (T : target_table) (ok : list pyval -> bool) (now : Z)
    (ps : list (list (list pyval))) (tb : table) (t : list pyval) :
  In t (concat ps) -> ok t = false ->
  exists tb' evs x, execute_pages T ok now tb ps = (tb', evs, Raise x).
Proof.
  revert tb. induction ps as [|p ps IH]; intros tb Hin Hok; [destruct Hin|].
  simpl in Hin. apply in_app_or in Hin. simpl.
  destruct (insert_page T ok now tb p) as [tb1 [[]|x]] eqn:Epage; [|eauto].
  destruct Hin as [Hin|Hin].
  - unfold insert_page in Epage. destruct (forallb _ p); [|discriminate].
    destruct (insert_rows_refused T ok now p (tb, []) t Hin Hok) as [[tb2 wr2] [x Hx]].
    rewrite Hx in Epage. discriminate.
  - destruct (IH tb1 Hin Hok) as [tb' [evs [x ->]]]. eauto.
Qed.

(** A batch with one tuple the target refuses is not loaded at all: the
    loader raises, and the other tuples of the batch are not stored
    either. *)
Theorem one_refused_row_fails_the_batch (E : env) (e : entity) (ts : list (list pyval))
    (t : list pyval) (w : world) :
  In t ts -> accepts E e t = false ->
  exists w' x,
    loader E e ts w = (w', Raise x) /\
    forall name tb, tables w !! name = Some tb ->
      exists tb', tables w' !! name = Some tb' /\ trows tb' = trows tb.
Proof.
  intros Hin Hno.
  assert (Hraise : exists w' x, loader E e ts w = (w', Raise x)).
  { rewrite loader_load_into. destruct ts as [|t0 ts]; [destruct Hin|].
    unfold load_into, bindM, executemany_target.
    destruct (fault E e OpWrite); [eauto|].
    change (tables (tick (latency E e) (emit (TargetConnect "pool") w))) with (tables w).
    destruct (tables w !! into (target_of e)) as [tb|]; [|eauto].
    destruct (execute_pages_refused (target_of e) (accepts E e)
                (clock (tick (latency E e) (emit (TargetConnect "pool") w)))
                (pages 500 (t0 :: ts)) tb t) as [tb' [evs [x ->]]]; [|exact Hno|eauto].
    rewrite pages_concat; [exact Hin | lia]. }
  destruct Hraise as [w' [x Hload]]. exists w', x. split; [exact Hload|].
  apply (loader_raised _ _ _ _ _ _ Hload).
Qed.

(** The timeline event of the examples, one copy of which the target
    refuses. *)
Definition refusing (t : list pyval) : env :=
  mk_env (fun _ _ => Ok []) (fun _ _ => None)
    (fun _ t' => negb (forallb (fun vv => pyval_eqb (fst vv) (snd vv)) (combine t t')
                       && Nat.eqb (length t) (length t')))
    (fun _ => 2000%N).

Definition other_timeline_tuple : list pyval :=
  [ VStr "a002"; VInt 1700000000000000; VStr "SCENARIO_CREATED"; VStr "LIFECYCLE";
    VStr "bob"; VStr "Scenario created"; VNone; VNone; VNone; VStr "SC_a002" ].

Lemma one_refused_row_witness :
  exists w' x,
    load_timeline (refusing timeline_tuple) [other_timeline_tuple; timeline_tuple] provisioned
    = (w', Raise x) /\
    exists tb', tables w' !! "fact_scenario_timeline" = Some tb' /\ trows tb' = [].
Proof.
  destruct (one_refused_row_fails_the_batch (refusing timeline_tuple) Timeline
              [other_timeline_tuple; timeline_tuple] timeline_tuple provisioned)
    as [w' [x [Hload Hrows]]].
  - right. left. reflexivity.
  - reflexivity.
  - exists w', x. split; [exact Hload|].
    apply (Hrows "fact_scenario_timeline" (mk_table [] 0)). reflexivity.
Defined.

(** ** load.py: an invariant of a table through a load *)

Section TableInvariant.
Variable T : target_table.
Variable ok : list pyval -> bool.
Variable Inv : list pydict -> Prop.
Variable Q : list pyval -> Prop.

Hypothesis insert_one_keeps :
  forall now tb wr t tb' wr' r,
    Q t -> length t = length (insert_columns T) -> Inv (trows tb) ->
    insert_one T ok now (tb, wr) t = ((tb', wr'), r) -> Inv (trows tb').

Lemma insert_rows_keeps (now : Z) (page : list (list pyval)) (st st' : stmt_state)
    (r : result unit) :
  Forall (fun t => Q t /\ length t = length (insert_columns T)) page ->
  Inv (trows (fst st)) ->
  insert_rows T ok now st page = (st', r) -> Inv (trows (fst st')).
Proof.
  intros Hpage. revert st. induction Hpage as [|t page [Ht Hlen] _ IH]; simpl; intros st Hinv.
  - now intros [= <- _].
  - destruct st as [tb wr].
    destruct (insert_one T ok now (tb, wr) t) as [[tb1 wr1] [[]|x]] eqn:Eone.
    + apply IH. simpl. eapply insert_one_keeps; eauto.
    + intros [= <- _]. simpl. eapply insert_one_keeps; eauto.
Qed.

Lemma insert_page_keeps (now : Z) (page : list (list pyval)) (tb tb' : table)
    (r : result unit) :
  Forall Q page -> Inv (trows tb) ->
  insert_page T ok now tb page = (tb', r) -> Inv (trows tb').
Proof.
  intros Hpage Hinv. unfold insert_page.
  destruct (forallb _ page) eqn:Hlen; [|now intros [= <- _]].
  destruct (insert_rows T ok now (tb, []) page) as [[tb1 wr1] r1] eqn:Erows.
  intros [= <- _].
  apply (insert_rows_keeps now page (tb, []) (tb1, wr1) r1); [|exact Hinv | exact Erows].
  rewrite Forall_forall in Hpage. apply Forall_forall. intros t Ht. split; [auto|].
  rewrite forallb_forall in Hlen. apply Nat.eqb_eq, Hlen, list_elem_of_In, Ht.
Qed.

Lemma execute_pages_keeps (now : Z) (ps : list (list (list pyval))) (tb tb' : table)
    (evs : list event) (r : result unit) :
  Forall (Forall Q) ps -> Inv (trows tb) ->
  execute_pages T ok now tb ps = (tb', evs, r) -> Inv (trows tb').
Proof.
  intros Hps. revert tb tb' evs r.
  induction Hps as [|p ps Hp _ IH]; simpl; intros tb tb' evs r Hinv.
  - now intros [= <- _ _].
  - destruct (insert_page T ok now tb p) as [tb1 [[]|x]] eqn:Epage.
    + destruct (execute_pages T ok now tb1 ps) as [[tb2 evs2] r2] eqn:Erest.
      intros [= <- _ _]. eapply IH; [|exact Erest]. eapply insert_page_keeps; eauto.
    + intros [= <- _ _]. eapply insert_page_keeps; eauto.
Qed.
End TableInvariant.

(** A property of the rows of a table that every INSERT of one tuple
    keeps is kept by a loader, whether it returns or raises. *)
Lemma loader_keeps (E : env) (e : entity) (Inv : list pydict -> Prop)
    (Q : list pyval -> Prop) (ts : list (list pyval)) (w w' : world) (tb : table)
    (r : result Z) :
  (forall now tb0 wr t tb' wr' r0,
     Q t -> length t = length (insert_columns (target_of e)) -> Inv (trows tb0) ->
     insert_one (target_of e) (accepts E e) now (tb0, wr) t = ((tb', wr'), r0) ->
     Inv (trows tb')) ->
  Forall Q ts ->
  tables w !! into (target_of e) = Some tb -> Inv (trows tb) ->
  loader E e ts w = (w', r) ->
  exists tb', tables w' !! into (target_of e) = Some tb' /\ Inv (trows tb').
Proof.
  intros Hstep Hts Htb Hinv. rewrite loader_load_into. intros Hload.
  apply load_into_cases in Hload. destruct Hload as [w1 [Hcall [_ [_ [-> _]]]]].
  destruct ts as [|t ts].
  { injection Hcall as <- _. eauto. }
  apply executemany_target_cases in Hcall; [|discriminate].
  destruct Hcall as [[x [_ [-> _]]] | [[_ [Hnone _]] | [tb0 [tb' [evs [_ [Htb0 Hr]]]]]]].
  - eauto.
  - congruence.
  - assert (tb0 = tb) as -> by congruence.
    destruct Hr as [[x [_ [-> _]]] | [Hpages [_ [-> _]]]].
    + exists (rolled_back tb tb'). split; [apply lookup_insert_eq | exact Hinv].
    + exists tb'. split; [apply lookup_insert_eq|].
      eapply execute_pages_keeps; [exact Hstep | | exact Hinv | exact Hpages].
      apply pages_fuel_Forall, Hts.
Qed.

(** The same batch: what the failed load leaves behind. *)
Lemma failed_load_witness :
  exists tb', tables (fst (load_timeline (refusing timeline_tuple)
                             [other_timeline_tuple; timeline_tuple] provisioned))
                !! "fact_scenario_timeline" = Some tb' /\ trows tb' = [].
Proof.
  destruct (failed_load_stores_nothing (refusing timeline_tuple) Timeline
              [other_timeline_tuple; timeline_tuple] provisioned
              (fst (load_timeline (refusing timeline_tuple)
                      [other_timeline_tuple; timeline_tuple] provisioned))
              (DatabaseError "row rejected")) as [_ Hrows].
  - vm_compute. reflexivity.
  - apply (Hrows "fact_scenario_timeline" (mk_table [] 0)). reflexivity.
Defined.

(** ** load.py: the keys of a loaded batch *)

Lemma dict_get_app (a b : pydict) (k : string) :
  dict_get (a ++ b) k = match dict_get a k with Some v => Some v | None => dict_get b k end.
Proof.
  induction a as [|[k' v] a IH]; simpl; [reflexivity|].
  now destruct (String.eqb k' k).
Qed.

Lemma map_fst_combine (cols : list string) (t : list pyval) :
  length t = length cols -> map fst (combine cols t) = cols.
Proof.
  revert t. induction cols as [|c cols IH]; intros [|v t]; simpl; try discriminate;
    [reflexivity|].
  intros [= Hlen]. now rewrite IH.
Qed.

(** A column of the INSERT is a key of the proposed row. *)
Lemma proposed_column (T : target_table) (t : list pyval) (c : string) :
  length t = length (insert_columns T) -> In c (insert_columns T) ->
  exists v, dict_get (proposed T t) c = Some v.
Proof.
  intros Hlen Hc. apply dict_get_Some. unfold proposed. now rewrite map_fst_combine.
Qed.

(** The stored row of a new tuple holds the tuple's values. *)
Lemma new_row_column (T : target_table) (now id : Z) (t : list pyval) (c : string) :
  length t = length (insert_columns T) -> In c (insert_columns T) -> c <> "id" ->
  dict_get (new_row T now id t) c = dict_get (proposed T t) c.
Proof.
  intros Hlen Hc Hid. unfold new_row.
  destruct (proposed_column T t c Hlen Hc) as [v Hv].
  destruct (serial_id T); cbn [app dict_get].
  - destruct (String.eqb_spec "id" c) as [Heq|_]; [congruence|].
    now rewrite dict_get_app, Hv.
  - now rewrite dict_get_app, Hv.
Qed.

(** The conflict key of a statement is one of its columns, is not the
    serial, and is not in its SET list. *)
Definition well_keyed (T : target_table) : bool :=
  str_in (conflict_key T) (insert_columns T)
  && negb (String.eqb (conflict_key T) "id")
  && negb (str_in (conflict_key T) (updated_columns T)).

Lemma target_well_keyed (e : entity) : well_keyed (target_of e) = true.
Proof. destruct e; reflexivity. Qed.

Lemma well_keyed_facts (T : target_table) :
  well_keyed T = true ->
  In (conflict_key T) (insert_columns T) /\ conflict_key T <> "id" /\
  str_in (conflict_key T) (updated_columns T) = false.
Proof.
  unfold well_keyed. rewrite !andb_true_iff, !negb_true_iff.
  intros [[Hin Hid] Hupd]. split; [now apply str_in_In|]. split; [|exact Hupd].
  now apply String.eqb_neq.
Qed.

(** The keys of the rows of a table, in order. *)
Definition stored_keys (T : target_table) (rows : list pydict) : list pyval :=
  map (fun row => get row (conflict_key T)) rows.

Lemma kept_key (T : target_table) (old new : pydict) :
  str_in (conflict_key T) (updated_columns T) = false ->
  kept (updated_columns T) old new ->
  get new (conflict_key T) = get old (conflict_key T).
Proof.
  intros Hkey [_ Hsame]. unfold get. now rewrite (Hsame _ Hkey).
Qed.

Lemma Forall2_kept_keys (T : target_table) (rows rows' : list pydict) :
  str_in (conflict_key T) (updated_columns T) = false ->
  Forall2 (kept (updated_columns T)) rows rows' ->
  stored_keys T rows' = stored_keys T rows.
Proof.
  intros Hkey Hrows. induction Hrows as [|x y xs ys Hxy _ IH]; simpl; [reflexivity|].
  now rewrite IH, (kept_key T x y Hkey Hxy).
Qed.

(** The rows that were stored keep their keys, whatever is written after
    them. *)
Lemma evolves_keys (T : target_table) (rows rows' : list pydict) :
  str_in (conflict_key T) (updated_columns T) = false ->
  evolves (updated_columns T) rows rows' ->
  exists more, stored_keys T rows' = (stored_keys T rows ++ more)%list.
Proof.
  intros Hkey [upd [app [-> Hupd]]]. exists (stored_keys T app).
  unfold stored_keys at 1. rewrite map_app. fold (stored_keys T upd) (stored_keys T app).
  now rewrite (Forall2_kept_keys T rows upd Hkey Hupd).
Qed.

Lemma existsb_conflicts_key (T : target_table) (k : pyval) (rows : list pydict) :
  existsb (conflicts T k) rows = true <-> k <> VNone /\ In k (stored_keys T rows).
Proof.
  rewrite existsb_exists. unfold stored_keys. rewrite in_map_iff. split.
  - intros [row [Hrow Hc]]. apply conflicts_iff in Hc. destruct Hc as [Hk Hget]. eauto.
  - intros [Hk [row [Hget Hrow]]]. exists row. split; [exact Hrow|].
    apply conflicts_iff. auto.
Qed.

(** One tuple written: its key is stored. *)
Lemma insert_one_stores_key (T : target_table) (ok : list pyval -> bool) (now : Z)
    (tb tb' : table) (wr wr' : list pyval) (t : list pyval) :
  well_keyed T = true -> length t = length (insert_columns T) ->
  insert_one T ok now (tb, wr) t = ((tb', wr'), Ok tt) ->
  In (key_of T t) (stored_keys T (trows tb')).
Proof.
  intros HT Hlen. destruct (well_keyed_facts T HT) as [Hcol [Hid Hupd]].
  unfold insert_one. fold (key_of T t).
  destruct (negb (ok t)); [discriminate|].
  destruct (primary_key T && is_none (key_of T t)); [discriminate|].
  destruct (existsb (conflicts T (key_of T t)) (trows tb)) eqn:Hex.
  - apply existsb_conflicts_key in Hex. destruct Hex as [_ Hin].
    destruct (action T) as [|cols stamp] eqn:Ha.
    + now intros [= <- _].
    + destruct (key_in _ wr); [discriminate|]. intros [= <- _]. simpl.
      rewrite (Forall2_kept_keys T (trows tb)); [exact Hin | exact Hupd|].
      unfold updated_columns. rewrite Ha. apply do_update_kept.
  - intros [= <- _]. simpl. unfold stored_keys. rewrite map_app. apply in_or_app. right.
    simpl. left. unfold key_of, get. now rewrite new_row_column.
Qed.

Lemma insert_rows_stores_keys (T : target_table) (ok : list pyval -> bool) (now : Z)
    (page : list (list pyval)) (st st' : stmt_state) :
  well_keyed T = true ->
  Forall (fun t => length t = length (insert_columns T)) page ->
  insert_rows T ok now st page = (st', Ok tt) ->
  forall t, In t page -> In (key_of T t) (stored_keys T (trows (fst st'))).
Proof.
  intros HT Hpage. revert st. induction Hpage as [|t0 page Hlen _ IH]; intros st;
    [intros _ t []|].
  simpl. destruct st as [tb wr].
  destruct (insert_one T ok now (tb, wr) t0) as [[tb1 wr1] [[]|x]] eqn:Eone; [|discriminate].
  intros Hrest t [<-|Hin]; [|eapply IH; eauto].
  pose proof (insert_one_stores_key T ok now _ _ _ _ _ HT Hlen Eone) as Hkey.
  apply insert_rows_evolves in Hrest. simpl in Hrest.
  destruct (evolves_keys T _ _ (proj2 (proj2 (well_keyed_facts T HT))) Hrest) as [more ->].
  apply in_or_app. now left.
Qed.

Lemma execute_pages_stores_keys (T : target_table) (ok : list pyval -> bool) (now : Z)
    (ps : list (list (list pyval))) (tb tb' : table) (evs : list event) :
  well_keyed T = true ->
  execute_pages T ok now tb ps = (tb', evs, Ok tt) ->
  forall t, In t (concat ps) -> In (key_of T t) (stored_keys T (trows tb')).
Proof.
  intros HT. revert tb tb' evs. induction ps as [|p ps IH]; intros tb tb' evs;
    [intros _ t []|].
  simpl. destruct (insert_page T ok now tb p) as [tb1 [[]|x]] eqn:Epage; [|discriminate].
  destruct (execute_pages T ok now tb1 ps) as [[tb2 evs2] r2] eqn:Erest.
  intros [= <- _ ->] t Hin. apply in_app_or in Hin. destruct Hin as [Hin|Hin].
  - unfold insert_page in Epage. destruct (forallb _ p) eqn:Hlen; [|discriminate].
    destruct (insert_rows T ok now (tb, []) p) as [[tb1' wr1] r1] eqn:Erows.
    injection Epage as -> ->.
    assert (Hkey : In (key_of T t) (stored_keys T (trows tb1))).
    { apply (insert_rows_stores_keys T ok now p (tb, []) (tb1, wr1) HT); auto.
      apply Forall_forall. intros t0 Ht0. rewrite forallb_forall in Hlen.
      apply Nat.eqb_eq, Hlen, list_elem_of_In, Ht0. }
    apply execute_pages_evolves in Erest.
    destruct (evolves_keys T _ _ (proj2 (proj2 (well_keyed_facts T HT))) Erest) as [more ->].
    apply in_or_app. now left.
  - eapply IH; eauto.
Qed.

(** What a loader that returns has done, for a batch that is not empty. *)
Lemma loader_returned (E : env) (e : entity) (ts : list (list pyval)) (w w' : world)
    (n : Z) :
  ts <> [] -> loader E e ts w = (w', Ok n) ->
  exists tb tb' evs now,
    tables w !! into (target_of e) = Some tb /\
    tables w' !! into (target_of e) = Some tb' /\
    execute_pages (target_of e) (accepts E e) now tb (pages 500 ts) = (tb', evs, Ok tt).
Proof.
  intros Hts. rewrite loader_load_into. intros Hload.
  apply load_into_cases in Hload. destruct Hload as [w1 [Hcall [_ [_ [-> _]]]]].
  apply executemany_target_cases in Hcall; [|exact Hts].
  destruct Hcall as [[x [_ [_ Hr]]] | [[_ [_ [_ Hr]]] | [tb [tb' [evs [_ [Htb Hr]]]]]]];
    try discriminate.
  destruct Hr as [[x [_ [_ Hr]]] | [Hpages [_ [-> _]]]]; [discriminate|].
  exists tb, tb', evs. eexists. split; [exact Htb|].
  split; [apply lookup_insert_eq | exact Hpages].
Qed.

(** After a loader has returned, the key of every tuple of its batch is
    the key of a stored row: a row inserted by this call, or the row the
    tuple met. *)
Theorem loaded_keys_are_stored (E : env) (e : entity) (ts : list (list pyval))
    (w w' : world) (n : Z) :
  ts <> [] ->
  loader E e ts w = (w', Ok n) ->
  exists tb', tables w' !! into (target_of e) = Some tb' /\
    forall t, In t ts ->
      exists row, In row (trows tb') /\
                  get row (conflict_key (target_of e)) = key_of (target_of e) t.
Proof.
  intros Hts Hload.
  destruct (loader_returned E e ts w w' n Hts Hload) as [tb [tb' [evs [now [_ [Htb' Hpages]]]]]].
  exists tb'. split; [exact Htb'|]. intros t Hin.
  assert (Hkey : In (key_of (target_of e) t) (stored_keys (target_of e) (trows tb'))).
  { eapply execute_pages_stores_keys; [apply target_well_keyed | exact Hpages|].
    rewrite pages_concat; [exact Hin | lia]. }
  unfold stored_keys in Hkey. apply in_map_iff in Hkey.
  destruct Hkey as [row [Hget Hrow]]. eauto.
Qed.

Lemma loaded_keys_witness :
  exists tb', tables timeline_loaded !! "fact_scenario_timeline" = Some tb' /\
    exists row, In row (trows tb') /\ get row "source_key" = VStr "SC_a001".
Proof.
  destruct (loaded_keys_are_stored nothing_new Timeline [timeline_tuple] provisioned
              timeline_loaded 1) as [tb' [Htb' Hkeys]].
  - discriminate.
  - vm_compute. reflexivity.
  - exists tb'. split; [exact Htb'|]. apply (Hkeys timeline_tuple). now left.
Defined.

(** ** load.py: the same batch loaded again *)

(** A batch that was loaded and is offered again, as the overlap of the
    extraction window offers it, adds no row when none of its keys is
    null: every stored row stays at its place and keeps every column
    outside the SET list of the statement, and under DO NOTHING the rows
    stay as they are. *)
Theorem reload_adds_no_row (E E' : env) (e : entity) (ts : list (list pyval))
    (w w1 w2 : world) (n n' : Z) :
  ts <> [] ->
  Forall (fun t => key_of (target_of e) t <> VNone) ts ->
  loader E e ts w = (w1, Ok n) ->
  loader E' e ts w1 = (w2, Ok n') ->
  exists tb1 tb2,
    tables w1 !! into (target_of e) = Some tb1 /\
    tables w2 !! into (target_of e) = Some tb2 /\
    length (trows tb2) = length (trows tb1) /\
    Forall2 (kept (updated_columns (target_of e))) (trows tb1) (trows tb2) /\
    (action (target_of e) = DoNothing -> trows tb2 = trows tb1).
Proof.
  intros Hts Hkeys Hfirst Hsecond.
  destruct (loader_returned E e ts w w1 n Hts Hfirst)
    as [tb [tb1 [evs [now [_ [Htb1 Hpages]]]]]].
  destruct (loader_returned E' e ts w1 w2 n' Hts Hsecond)
    as [tb1' [tb2 [evs' [now' [Htb1' [Htb2 Hpages']]]]]].
  assert (tb1' = tb1) as -> by congruence.
  exists tb1, tb2. split; [exact Htb1|]. split; [exact Htb2|].
  destruct (well_keyed_facts _ (target_well_keyed e)) as [_ [_ Hupd]].
  destruct (execute_pages_reoffered (target_of e) (accepts E' e) now' (pages 500 ts)
              tb1 tb2 evs' Hupd) as [Hkept Hsame]; [|exact Hpages'|].
  - apply pages_fuel_Forall. rewrite Forall_forall in Hkeys. apply Forall_forall.
    intros t Ht. unfold reoffered. apply existsb_conflicts_key.
    apply list_elem_of_In in Ht. split; [now apply Hkeys, list_elem_of_In|].
    eapply execute_pages_stores_keys; [apply target_well_keyed | exact Hpages|].
    rewrite pages_concat; [exact Ht | lia].
  - split; [symmetry; eapply Forall2_length, Hkept|]. split; [exact Hkept | exact Hsame].
Qed.

Lemma reload_witness :
  exists tb1 tb2,
    tables timeline_loaded !! "fact_scenario_timeline" = Some tb1 /\
    tables (fst (load_timeline nothing_new [timeline_tuple] timeline_loaded))
      !! "fact_scenario_timeline" = Some tb2 /\
    trows tb2 = trows tb1.
Proof.
  destruct (reload_adds_no_row nothing_new nothing_new Timeline [timeline_tuple]
              provisioned timeline_loaded
              (fst (load_timeline nothing_new [timeline_tuple] timeline_loaded)) 1 1)
    as [tb1 [tb2 [Htb1 [Htb2 [_ [_ Hsame]]]]]].
  - discriminate.
  - repeat constructor. discriminate.
  - vm_compute. reflexivity.
  - vm_compute. reflexivity.
  - exists tb1, tb2. split; [exact Htb1|]. split; [exact Htb2|]. now apply Hsame.
Defined.

(** ** load.py: one row per key *)

(** No two of the keys are the same value, nulls apart. *)
Fixpoint distinct_keys (ks : list pyval) : Prop :=
  match ks with
  | [] => True
  | k :: ks' => (k <> VNone -> ~ In k ks') /\ distinct_keys ks'
  end.

Lemma distinct_keys_snoc (ks : list pyval) (k : pyval) :
  distinct_keys ks -> (k <> VNone -> ~ In k ks) -> distinct_keys (ks ++ [k]).
Proof.
  induction ks as [|k0 ks IH]; simpl; intros Hks Hk; [tauto|].
  destruct Hks as [Hk0 Hks]. split.
  - intros Hnone Hin. apply in_app_or in Hin. destruct Hin as [Hin|[<-|[]]].
    + now apply Hk0.
    + apply Hk; auto.
  - apply IH; [exact Hks|]. intros Hnone Hin. apply Hk; auto.
Qed.

Lemma insert_one_distinct_keys (T : target_table) (ok : list pyval -> bool) (now : Z)
    (tb tb' : table) (wr wr' : list pyval) (t : list pyval) (r : result unit) :
  well_keyed T = true -> length t = length (insert_columns T) ->
  distinct_keys (stored_keys T (trows tb)) ->
  insert_one T ok now (tb, wr) t = ((tb', wr'), r) ->
  distinct_keys (stored_keys T (trows tb')).
Proof.
  intros HT Hlen Hinv. destruct (well_keyed_facts T HT) as [Hcol [Hid Hupd]].
  unfold insert_one. fold (key_of T t).
  destruct (negb (ok t)); [now intros [= <- _ _]|].
  destruct (primary_key T && is_none (key_of T t)); [now intros [= <- _ _]|].
  destruct (existsb (conflicts T (key_of T t)) (trows tb)) eqn:Hex.
  - destruct (action T) as [|cols stamp] eqn:Ha; [now intros [= <- _ _]|].
    destruct (key_in _ wr); intros [= <- _ _]; [exact Hinv|]. simpl.
    rewrite (Forall2_kept_keys T (trows tb)); [exact Hinv | exact Hupd|].
    unfold updated_columns. rewrite Ha. apply do_update_kept.
  - intros [= <- _ _]. simpl. unfold stored_keys. rewrite map_app. simpl.
    replace (get (new_row T now _ t) (conflict_key T)) with (key_of T t)
      by (unfold key_of, get; now rewrite new_row_column).
    apply distinct_keys_snoc; [exact Hinv|]. intros Hnone Hin.
    assert (Htrue : existsb (conflicts T (key_of T t)) (trows tb) = true)
      by (apply existsb_conflicts_key; auto).
    congruence.
Qed.

(** In a table in which no two rows have the same key, nulls apart, no
    loader ever makes two: whatever batch it is given, with whatever keys
    repeated in it, and whether it returns or raises. *)
Theorem one_row_per_key (E : env) (e : entity) (ts : list (list pyval)) (w w' : world)
    (tb : table) (r : result Z) :
  tables w !! into (target_of e) = Some tb ->
  distinct_keys (stored_keys (target_of e) (trows tb)) ->
  loader E e ts w = (w', r) ->
  exists tb', tables w' !! into (target_of e) = Some tb' /\
              distinct_keys (stored_keys (target_of e) (trows tb')).
Proof.
  intros Htb Hinv Hload.
  apply (loader_keeps E e (fun rows => distinct_keys (stored_keys (target_of e) rows))
           (fun _ => True) ts w w' tb r); auto.
  - intros now tb0 wr t tb' wr' r0 _ Hlen Hinv0 Hone.
    eapply insert_one_distinct_keys; eauto. apply target_well_keyed.
  - apply Forall_forall. auto.
Qed.

(** The same event offered twice to an empty table, in one batch. *)
Lemma one_row_per_key_witness :
  exists tb',
    tables (fst (load_timeline nothing_new [timeline_tuple; timeline_tuple] provisioned))
      !! "fact_scenario_timeline" = Some tb' /\
    distinct_keys (stored_keys fact_scenario_timeline (trows tb')).
Proof.
  apply (one_row_per_key nothing_new Timeline [timeline_tuple; timeline_tuple] provisioned
           (fst (load_timeline nothing_new [timeline_tuple; timeline_tuple] provisioned))
           (mk_table [] 0) (Ok 2)).
  - reflexivity.
  - exact I.
  - vm_compute. reflexivity.
Defined.

(** ** load.py: the current-version flag of the stored rows *)

(** A stored version is current exactly when it has no end. *)
Definition version_flag_ok (row : pydict) : Prop :=
  In "version_ended_at" (map fst row) /\ In "is_current_version" (map fst row) /\
  get row "is_current_version" = VBool (is_none (get row "version_ended_at")).

Lemma dict_get_In (d : pydict) (c : string) (v : pyval) :
  dict_get d c = Some v -> In c (map fst d).
Proof.
  induction d as [|[k x] d IH]; simpl; [discriminate|].
  destruct (String.eqb_spec k c) as [->|_]; [auto|]. intros Hd. right. now apply IH.
Qed.

Lemma do_update_Forall (T : target_table) (cols : list string) (stamp : string) (now : Z)
    (p : pydict) (k : pyval) (P : pydict -> Prop) (rows : list pydict) :
  (forall row, P row -> P (set_col stamp (VInt now) (set_excluded cols p row))) ->
  Forall P rows -> Forall P (do_update T cols stamp now p k rows).
Proof.
  intros Hupd Hrows. unfold do_update.
  induction Hrows as [|row rows Hrow _ IH]; simpl; constructor; [|exact IH].
  destruct (conflicts T k row); auto.
Qed.

Lemma insert_one_version_flag (e : entity) (ok : list pyval -> bool) (now : Z)
    (tb tb' : table) (wr wr' : list pyval) (t : list pyval) (r : result unit) :
  e = NodeData \/ e = EventData ->
  get (proposed (target_of e) t) "is_current_version"
  = VBool (is_none (get (proposed (target_of e) t) "version_ended_at")) ->
  length t = length (insert_columns (target_of e)) ->
  Forall version_flag_ok (trows tb) ->
  insert_one (target_of e) ok now (tb, wr) t = ((tb', wr'), r) ->
  Forall version_flag_ok (trows tb').
Proof.
  intros He Hflag Hlen Hinv.
  assert (Hcols : In "version_ended_at" (insert_columns (target_of e)) /\
                  In "is_current_version" (insert_columns (target_of e)) /\
                  exists cols, action (target_of e) = DoUpdate cols "etl_loaded_at" /\
                    In "version_ended_at" cols /\ In "is_current_version" cols /\
                    str_in "etl_loaded_at" cols = false).
  { destruct He as [-> | ->]; (split; [simpl; tauto|]); (split; [simpl; tauto|]);
      eexists; (split; [reflexivity|]); simpl; tauto. }
  destruct Hcols as [Hended [Hcurrent [cols [Ha [Hc1 [Hc2 Hstamp]]]]]].
  unfold insert_one.
  destruct (negb (ok t)); [now intros [= <- _ _]|].
  destruct (primary_key _ && is_none _); [now intros [= <- _ _]|].
  destruct (existsb _ (trows tb)).
  - rewrite Ha. destruct (key_in _ wr); intros [= <- _ _]; [exact Hinv|]. simpl.
    apply do_update_Forall; [|exact Hinv]. intros row [Hk1 [Hk2 Hrow]].
    destruct (updated_row_columns cols "etl_loaded_at" now (proposed (target_of e) t) row
                Hstamp) as [Hnew _].
    split; [now rewrite map_fst_set_col, map_fst_set_excluded|].
    split; [now rewrite map_fst_set_col, map_fst_set_excluded|].
    now rewrite (Hnew _ Hc1 Hk1), (Hnew _ Hc2 Hk2).
  - intros [= <- _ _]. simpl. apply Forall_app. split; [exact Hinv|].
    constructor; [|constructor].
    assert (Hget : forall c, In c (insert_columns (target_of e)) -> c <> "id" ->
              In c (map fst (new_row (target_of e) now
                               (if serial_id (target_of e) then tseq tb + 1 else tseq tb) t))
              /\ get (new_row (target_of e) now
                        (if serial_id (target_of e) then tseq tb + 1 else tseq tb) t) c
                 = get (proposed (target_of e) t) c).
    { intros c Hc Hid. pose proof (new_row_column (target_of e) now
                         (if serial_id (target_of e) then tseq tb + 1 else tseq tb)
                         t c Hlen Hc Hid) as Hsame.
      destruct (proposed_column (target_of e) t c Hlen Hc) as [v Hv].
      split; [eapply dict_get_In; rewrite Hsame; exact Hv|].
      unfold get. now rewrite Hsame. }
    destruct (Hget "version_ended_at" Hended) as [Hk1 Hv1]; [discriminate|].
    destruct (Hget "is_current_version" Hcurrent) as [Hk2 Hv2]; [discriminate|].
    split; [exact Hk1|]. split; [exact Hk2|]. now rewrite Hv1, Hv2.
Qed.

(** The two history tables keep their flag: when every stored version is
    current exactly when it has no end, this is still so after
    [load_node_data] (or [load_event_data]) was given the tuples of
    [transform_node_data] (of [transform_event_data]), for new versions
    and for versions closed by the load, and whether the load returns or
    raises. *)
Theorem version_flag_follows_end `{PyBuiltins} (E : env) (e : entity) (rows : list pydict)
    (ts : list (list pyval)) (w w' : world) (tb : table) (r : result Z) :
  e = NodeData \/ e = EventData ->
  transform_of e rows = Ok ts ->
  tables w !! into (target_of e) = Some tb ->
  Forall version_flag_ok (trows tb) ->
  loader E e ts w = (w', r) ->
  exists tb', tables w' !! into (target_of e) = Some tb' /\
              Forall version_flag_ok (trows tb').
Proof.
  intros He Hts Htb Hinv Hload.
  apply (loader_keeps E e (Forall version_flag_ok)
           (fun t => get (proposed (target_of e) t) "is_current_version"
                     = VBool (is_none (get (proposed (target_of e) t) "version_ended_at")))
           ts w w' tb r); auto.
  - intros now tb0 wr t tb' wr' r0 Hflag Hlen Hinv0 Hone.
    eapply insert_one_version_flag; eauto.
  - rewrite transform_of_row_tuple in Hts. apply for_each_Forall2 in Hts.
    clear - He Hts. induction Hts as [|r0 t rows ts Ht _ IH]; constructor; [|exact IH].
    apply (versioned_tuple_computed e r0 t He Ht).
Qed.

(** The open version of the examples is loaded, then closed. *)
Lemma version_flag_witness :
  exists tb', tables version_closed !! "fact_node_input_history" = Some tb' /\
              Forall version_flag_ok (trows tb').
Proof.
  apply (@version_flag_follows_end decimal_builtins nothing_new NodeData
           [closed_node_record] [closed_node_tuple] version_opened version_closed
           (mk_table (stored_versions version_opened) 1) (Ok 1)).
  - left. reflexivity.
  - vm_compute. reflexivity.
  - vm_compute. reflexivity.
  - constructor; [|constructor]. repeat split; simpl; tauto.
  - vm_compute. reflexivity.
Defined.

(** ** extract.py: a watermark committed, then read *)

(** What [update_watermark] commits is what [get_watermark] reads next:
    for a name that has a row, the row holds the time of the UPDATE, the
    count given and the running total, and the next read gives that time
    less the overlap; for a name that has no row the UPDATE matches
    nothing, returns all the same, creates no row, and the next read gives
    2020-01-01 again. *)
Theorem committed_watermark_is_read_back (E E' : env) (e e' : entity) (name : string)
    (k : Z) (w w' : world) :
  update_watermark E e name k w = (w', Ok tt) ->
  fault E' e' OpReadWatermark = None ->
  match etl_watermark w !! name with
  | Some row =>
      etl_watermark w' !! name
      = Some (mk_wm (clock w') k (Some (clock w')) (total_rows_ever row + k)) /\
      snd (get_watermark E' e' name w') = Ok (clock w' - seconds OVERLAP_SEC)
  | None =>
      etl_watermark w' = etl_watermark w /\
      snd (get_watermark E' e' name w') = Ok datetime_2020_1_1
  end.
Proof.
  intros Hupd Hread. apply update_watermark_cases in Hupd.
  destruct Hupd as [_ [_ [_ Hrow]]]. unfold get_watermark. rewrite Hread. cbv zeta.
  match goal with |- context [etl_watermark (tick ?d ?w1) !! name] =>
    change (etl_watermark (tick d w1)) with (etl_watermark w') end.
  destruct (etl_watermark w !! name) as [row|] eqn:Erow.
  - rewrite Hrow, lookup_insert_eq. split; reflexivity.
  - rewrite Hrow, Erow. split; reflexivity.
Qed.

(** The timeline watermark committed with a count of 3, then read. *)
Lemma committed_watermark_witness :
  exists c,
    snd (get_watermark nothing_new Timeline "timeline"
           (fst (update_watermark nothing_new Timeline "timeline" 3 provisioned)))
    = Ok (c - seconds OVERLAP_SEC).
Proof.
  assert (Hupd : update_watermark nothing_new Timeline "timeline" 3 provisioned
                 = (fst (update_watermark nothing_new Timeline "timeline" 3 provisioned),
                    Ok tt)) by (vm_compute; reflexivity).
  pose proof (committed_watermark_is_read_back nothing_new nothing_new Timeline Timeline
                "timeline" 3 provisioned _ Hupd eq_refl) as Hback.
  destruct (etl_watermark provisioned !! "timeline") as [row|] eqn:Erow;
    [|vm_compute in Erow; discriminate].
  eexists. apply Hback.
Defined.

(** ** pipeline.py and scheduler.py: what the loop keeps *)

(** A property of the state and of the count that every iteration keeps
    is kept by the loop. *)
Lemma loop_invariant (P : world -> Z -> Prop)
    (its : list (M world Z * option (N * exn))) (cf : Z) (w : world) :
  Forall (fun it => forall cf0 w0 w1 cf1 st,
            P w0 cf0 -> iteration (fst it) (snd it) cf0 w0 = (w1, cf1, st) -> P w1 cf1) its ->
  P w cf -> P (fst (fst (loop its cf w))) (snd (fst (loop its cf w))).
Proof.
  intros Hits. revert cf w. induction Hits as [|[cycle signal] its Hit _ IH]; intros cf w HP.
  - exact HP.
  - simpl. destruct (iteration cycle signal cf w) as [[w1 cf1] st] eqn:Eit.
    pose proof (Hit _ _ _ _ _ HP Eit) as HP1. destruct st; [apply IH, HP1 | exact HP1 ..].
Qed.

(** An iteration around a cycle that is not left by an [Exception]. *)
Lemma iteration_of_cycle (cycle : M world Z) (signal : option (N * exn)) (cf : Z)
    (w w1 : world) (r : result Z) :
  cycle w = (w1, r) ->
  (forall x, r = Raise x -> is_Exception x = false) ->
  match r with
  | Ok _ => iteration cycle signal cf w = (fst (sleep signal w1), 0, snd (sleep signal w1))
  | Raise KeyboardInterrupt =>
      iteration cycle signal cf w = (logger InfoStoppedByUser w1, cf, Exited 0)
  | Raise x => iteration cycle signal cf w = (w1, cf, Uncaught x)
  end.
Proof.
  intros Hcycle Hx. unfold iteration. rewrite Hcycle. destruct r as [n|x].
  - now destruct (sleep signal w1).
  - specialize (Hx x eq_refl). destruct x; try discriminate; reflexivity.
Qed.

Section LoopOfCycles.
Context `{PyBuiltins}.

Lemma run_cycle_outcome (E : env) (w w1 : world) (r : result Z) :
  run_cycle E w = (w1, r) -> forall x, r = Raise x -> is_Exception x = false.
Proof.
  intros Hcycle x ->. apply run_cycle_cases in Hcycle.
  destruct Hcycle as [s1 [[[]|y] [_ [_ [_ [_ Hr]]]]]]; [discriminate|].
  destruct Hr as [[= ->] Hy]. exact Hy.
Qed.

(** A property that [run_cycle], the sleep and the line of the interrupt
    keep is kept by [main], with the count at 0. *)
Lemma main_invariant (G : env -> Prop) (P : world -> Prop)
    (run : list (env * option (N * exn))) (w : world) :
  (forall E w0 w1 r, G E -> P w0 -> run_cycle E w0 = (w1, r) -> P w1) ->
  (forall signal w0, P w0 -> P (fst (sleep signal w0))) ->
  (forall w0, P w0 -> P (logger InfoStoppedByUser w0)) ->
  Forall (fun it => G (fst it)) run ->
  P w -> P (fst (fst (main run w))) /\ snd (fst (main run w)) = 0.
Proof.
  intros Hcycle Hsleep Hstop Hrun HP. unfold main.
  apply (loop_invariant (fun w0 cf0 => P w0 /\ cf0 = 0)); [|auto].
  apply Forall_forall. intros it Hit. apply list_elem_of_In, in_map_iff in Hit.
  destruct Hit as [[E signal] [<- HE]]. simpl.
  rewrite Forall_forall in Hrun. apply list_elem_of_In, Hrun in HE. simpl in HE.
  intros cf0 w0 w2 cf2 st [HP0 ->] Hit.
  destruct (run_cycle E w0) as [w1 r] eqn:Ecycle.
  pose proof (iteration_of_cycle _ signal 0 _ _ _ Ecycle (run_cycle_outcome _ _ _ _ Ecycle))
    as Hiter.
  pose proof (Hcycle _ _ _ _ HE HP0 Ecycle) as HP1.
  destruct r as [n|x].
  - rewrite Hiter in Hit. injection Hit as <- <- _. auto.
  - destruct x; rewrite Hiter in Hit; injection Hit as <- <- _; auto.
Qed.

Lemma Forall_any_env (run : list (env * option (N * exn))) :
  Forall (fun it => (fun _ : env => True) (fst it)) run.
Proof. apply Forall_forall. auto. Qed.
End LoopOfCycles.

(** *** The watermark rows no unit names *)

Section OtherWatermarks.
Context `{PyBuiltins}.

Lemma run_units_other_watermark (E : env) (es : list entity) (name : string)
    (s s' : cycle_state) (r : result unit) :
  (forall e, watermark_name e <> name) ->
  run_units E es (ret tt) s = (s', r) ->
  etl_watermark (fst s') !! name = etl_watermark (fst s) !! name.
Proof.
  intros Hname. revert s. induction es as [|e es IH]; intros s.
  - now intros [= <- _].
  - simpl. unfold bindM. destruct (etl_unit E e s) as [s1 r1] eqn:Hunit.
    pose proof (etl_unit_outcome _ _ _ _ _ Hunit) as [_ [_ Hw]].
    assert (Hrow : etl_watermark (fst s1) !! name = etl_watermark (fst s) !! name).
    { destruct Hw as [-> | [row [k [_ [_ ->]]]]]; [reflexivity|].
      apply lookup_insert_ne, Hname. }
    destruct r1 as [[]|x].
    + intros Hes. now rewrite (IH s1 Hes).
    + now intros [= <- _].
Qed.
End OtherWatermarks.

(** A watermark row whose name is not that of one of the six units is
    never written, however long [main] runs and whatever happens: so it
    is with the row of public.fc_scenario_run_branch that
    setup_target.py seeds. *)
Theorem unnamed_watermarks_are_never_written `{PyBuiltins}
    (run : list (env * option (N * exn))) (w : world) (name : string) :
  (forall e, watermark_name e <> name) ->
  etl_watermark (fst (fst (main run w))) !! name = etl_watermark w !! name.
Proof.
  intros Hname.
  apply (main_invariant (fun _ => True)
           (fun w0 => etl_watermark w0 !! name = etl_watermark w !! name)).
  - intros E w0 w1 r _ HP Hcycle. apply run_cycle_cases in Hcycle.
    destruct Hcycle as [s1 [r1 [Hunits [_ [-> _]]]]].
    now rewrite (run_units_other_watermark E _ name _ _ _ Hname Hunits).
  - intros signal w0 HP. destruct (sleep signal w0) as [w1 st] eqn:Es.
    apply sleep_frame in Es. simpl. destruct Es as [_ [-> _]]. exact HP.
  - intros w0 HP. exact HP.
  - apply Forall_any_env.
  - reflexivity.
Qed.

Lemma unnamed_watermarks_witness :
  etl_watermark
    (fst (fst (@main decimal_builtins [(scenarios_down, None); (nothing_new, None)]
                 provisioned))) !! "public.fc_scenario_run_branch"
  = Some seeded_row.
Proof.
  rewrite (@unnamed_watermarks_are_never_written decimal_builtins
             [(scenarios_down, None); (nothing_new, None)] provisioned
             "public.fc_scenario_run_branch").
  - reflexivity.
  - intros []; discriminate.
Defined.

(** *** The alarm lines of the scheduler *)

(** The two lines [main] writes for a failed cycle. *)
Definition is_alarm (l : log_record) : bool :=
  match l with
  | ErrorCycleFailed _ _ | CriticalConsecutiveFailures _ => true
  | _ => false
  end.

Definition alarms (w : world) : list log_record := List.filter is_alarm (log w).

Lemma alarms_logger (l : log_record) (w : world) :
  is_alarm l = false -> alarms (logger l w) = alarms w.
Proof.
  intros Hl. unfold alarms, logger. simpl. rewrite List.filter_app. simpl. rewrite Hl.
  apply app_nil_r.
Qed.

Lemma alarms_log (w w' : world) : log w' = log w -> alarms w' = alarms w.
Proof. unfold alarms. now intros ->. Qed.

Lemma loader_alarms (E : env) (e : entity) (ts : list (list pyval)) (w w' : world)
    (r : result Z) :
  loader E e ts w = (w', r) -> alarms w' = alarms w.
Proof.
  rewrite loader_load_into. destruct ts as [|t ts]; [now intros [= <- _]|].
  unfold load_into, bindM.
  destruct (executemany_target E e (target_of e) (t :: ts) w) as [w1 [n|x]] eqn:Ecall;
    apply executemany_target_frame in Ecall; destruct Ecall as [_ [_ [Hlog _]]];
    intros [= <- _].
  - rewrite alarms_logger by reflexivity. now apply alarms_log.
  - now apply alarms_log.
Qed.

Lemma update_watermark_log (E : env) (e : entity) (name : string) (k : Z) (w w' : world)
    (r : result unit) :
  update_watermark E e name k w = (w', r) -> log w' = log w.
Proof.
  unfold update_watermark. destruct (fault E e OpUpdateWatermark); [now intros [= <- _]|].
  cbv zeta. destruct (etl_watermark _ !! name) as [row|]; [|now intros [= <- _]].
  destruct (_ && _); now intros [= <- _].
Qed.

Lemma extract_alarms (E : env) (e : entity) (since : Z) (w w' : world)
    (r : result (list pydict)) :
  extract E e since w = (w', r) -> alarms w' = alarms w.
Proof.
  unfold extract. destruct (source E e since); intros [= <- _]; [|reflexivity].
  now rewrite alarms_logger.
Qed.

Section Alarms.
Context `{PyBuiltins}.

Lemma unit_body_alarms (E : env) (e : entity) (s s' : cycle_state) (r : result unit) :
  unit_body E e s = (s', r) -> alarms (fst s') = alarms (fst s).
Proof.
  rewrite unit_body_steps. unfold bindM at 1. unfold on_world at 1.
  destruct (get_watermark E e (watermark_name e) (fst s)) as [w1 [since|x]] eqn:Eget;
    pose proof (get_watermark_frame _ _ _ _ _ _ Eget) as [_ [_ [_ Hl1]]];
    apply alarms_log in Hl1.
  2: { now intros [= <- _]. }
  unfold bindM at 1. unfold on_world at 1. simpl fst. simpl snd.
  destruct (extract E e since w1) as [w2 [rows|x]] eqn:Eext;
    pose proof (extract_alarms _ _ _ _ _ _ Eext) as Hl2.
  2: { intros [= <- _]. simpl. congruence. }
  unfold bindM at 1.
  assert (Hl3 : forall s3 r3, transform_and_load E e rows (w2, snd s) = (s3, r3) ->
                              alarms (fst s3) = alarms w2).
  { intros s3 r3. unfold transform_and_load. destruct rows as [|row rows].
    - now intros [= <- _].
    - unfold bindM, lift, on_world, add_total.
      destruct (transform_of e (row :: rows)) as [ts|x]; [|now intros [= <- _]].
      destruct (loader E e ts (fst (w2, snd s))) as [w3 [n|x]] eqn:Eload;
        apply loader_alarms in Eload; now intros [= <- _]. }
  destruct (transform_and_load E e rows (w2, snd s)) as [[w3 tot3] [[]|x]] eqn:Etl;
    specialize (Hl3 _ _ eq_refl); simpl in Hl3.
  2: { intros [= <- _]. simpl. congruence. }
  unfold on_world. simpl fst. simpl snd.
  destruct (update_watermark E e (watermark_name e) (Z.of_nat (length rows)) w3)
    as [w4 r4] eqn:Eupd.
  apply update_watermark_log, alarms_log in Eupd.
  intros [= <- _]. simpl. congruence.
Qed.

Lemma etl_unit_alarms (E : env) (e : entity) (s s' : cycle_state) (r : result unit) :
  etl_unit E e s = (s', r) -> alarms (fst s') = alarms (fst s).
Proof.
  unfold etl_unit, except_Exception.
  destruct (unit_body E e s) as [s1 [[]|x]] eqn:Ebody; apply unit_body_alarms in Ebody.
  - now intros [= <- _].
  - destruct (is_Exception x); intros [= <- _]; [|exact Ebody].
    simpl. now rewrite alarms_logger.
Qed.

Lemma run_units_alarms {A : Type} (E : env) (es : list entity) (k : M cycle_state A)
    (s s' : cycle_state) (r : result A) :
  (forall s0 s1 r1, k s0 = (s1, r1) -> alarms (fst s1) = alarms (fst s0)) ->
  run_units E es k s = (s', r) -> alarms (fst s') = alarms (fst s).
Proof.
  intros Hk. revert s. induction es as [|e es IH]; intros s; [apply Hk|].
  simpl. unfold bindM. destruct (etl_unit E e s) as [s1 [[]|x]] eqn:Hunit;
    apply etl_unit_alarms in Hunit.
  - intros Hes. rewrite (IH _ Hes). exact Hunit.
  - now intros [= <- _].
Qed.

Lemma run_cycle_alarms (E : env) (w w' : world) (r : result Z) :
  run_cycle E w = (w', r) -> alarms w' = alarms w.
Proof.
  rewrite run_cycle_units.
  destruct (run_units E all_entities finish (w, 0)) as [s' r'] eqn:Hunits.
  intros [= <- _]. apply run_units_alarms in Hunits; [exact Hunits|].
  intros s0 s1 r1 [= <- _]. simpl. now rewrite alarms_logger.
Qed.
End Alarms.

(** With the [run_cycle] of the repository the failure branch of the loop
    is never taken: whatever the stores do and whatever signal arrives,
    the count of consecutive failures never leaves 0, and [main] writes
    neither the line of a failed cycle nor the critical line of ten
    failures in a row. *)
Theorem escalation_never_fires `{PyBuiltins} (run : list (env * option (N * exn)))
    (w : world) :
  snd (fst (main run w)) = 0 /\
  alarms (fst (fst (main run w))) = alarms w /\
  (forall l, In l (log (fst (fst (main run w)))) -> is_alarm l = true -> In l (log w)).
Proof.
  destruct (main_invariant (fun _ => True) (fun w0 => alarms w0 = alarms w) run w)
    as [Hal Hcf].
  - intros E w0 w1 r _ HP Hcycle. now rewrite (run_cycle_alarms _ _ _ _ Hcycle).
  - intros signal w0 HP. rewrite <- HP. apply alarms_log.
    unfold sleep. now destruct signal as [[after x]|].
  - intros w0 HP. now rewrite alarms_logger.
  - apply Forall_any_env.
  - reflexivity.
  - split; [exact Hcf|]. split; [exact Hal|]. intros l Hl Halarm.
    assert (Hin : In l (alarms (fst (fst (main run w)))))
      by (apply List.filter_In; auto).
    rewrite Hal in Hin. now apply List.filter_In in Hin.
Qed.

(** ** scheduler.py: the loop goes on *)

Section KeepsLooping.
Context `{PyBuiltins}.

Lemma run_units_clock (E : env) (es : list entity) (s s' : cycle_state) (r : result unit) :
  run_units E es (ret tt) s = (s', r) -> clock (fst s) <= clock (fst s').
Proof.
  revert s. induction es as [|e es IH]; intros s.
  - intros [= <- _]. lia.
  - simpl. unfold bindM. destruct (etl_unit E e s) as [s1 [[]|x]] eqn:Hunit;
      apply etl_unit_outcome in Hunit; destruct Hunit as [Hc _].
    + intros Hes. apply IH in Hes. lia.
    + now intros [= <- _].
Qed.

Lemma run_cycle_clock (E : env) (w w' : world) (r : result Z) :
  run_cycle E w = (w', r) -> clock w <= clock w'.
Proof.
  intros Hcycle. apply run_cycle_cases in Hcycle.
  destruct Hcycle as [s1 [r1 [Hunits [-> _]]]]. now apply run_units_clock in Hunits.
Qed.

Lemma loop_keeps_looping (run : list (env * option (N * exn))) (w : world) :
  Forall (fun it => raises_only_Exceptions (fst it) /\ snd it = None) run ->
  exists w', loop (map (fun it => (run_cycle (fst it), snd it)) run) 0 w = (w', 0, Looping) /\
    clock w + Z.of_nat (length run) * seconds POLL_INTERVAL_SEC <= clock w'.
Proof.
  intros Hrun. revert w. induction Hrun as [|[E signal] run [HE Hsig] _ IH]; intros w.
  - exists w. split; [reflexivity | simpl; lia].
  - simpl in HE, Hsig. subst signal. destruct (run_cycle_returns E w HE) as [w1 [total Hcycle]].
    cbn [map loop fst snd]. unfold iteration. rewrite Hcycle, sleep_None.
    destruct (IH (slept w1)) as [w' [-> Hclock]]. exists w'. split; [reflexivity|].
    apply run_cycle_clock in Hcycle. rewrite slept_clock in Hclock.
    rewrite length_cons, Nat2Z.inj_succ. unfold seconds, POLL_INTERVAL_SEC in *. lia.
Qed.
End KeepsLooping.

(** While the stores raise nothing but [Exception]s and no signal
    arrives, [main] never stops: after any number of iterations it is
    still looping, the count of consecutive failures is 0, and every
    iteration has slept its POLL_INTERVAL_SEC = 30 seconds. *)
Theorem main_keeps_looping `{PyBuiltins} (run : list (env * option (N * exn)))
    (w : world) :
  Forall (fun it => raises_only_Exceptions (fst it) /\ snd it = None) run ->
  snd (main run w) = Looping /\
  snd (fst (main run w)) = 0 /\
  clock w + Z.of_nat (length run) * seconds POLL_INTERVAL_SEC
  <= clock (fst (fst (main run w))).
Proof.
  intros Hrun. unfold main. destruct (loop_keeps_looping run w Hrun) as [w' [-> Hclock]].
  auto.
Qed.

(** Two cycles, the first with the source down for the scenarios. *)
Lemma main_keeps_looping_witness :
  snd (@main decimal_builtins [(scenarios_down, None); (nothing_new, None)] provisioned)
  = Looping.
Proof.
  apply (@main_keeps_looping decimal_builtins [(scenarios_down, None); (nothing_new, None)]
           provisioned).
  repeat constructor;
    first [apply scenarios_down_Exceptions | apply nothing_new_Exceptions].
Defined.

(** ** pipeline.py: a record that cannot be transformed *)

(** The unit of [e] meets, at the watermark [row], records its transform
    raises on. *)
Definition blocked `{PyBuiltins} (E : env) (e : entity) (row : wm_row) : Prop :=
  fault E e OpReadWatermark = None /\
  exists rows x,
    source E e (last_fetched_at row - seconds OVERLAP_SEC) = Ok rows /\
    transform_of e rows = Raise x.

Section Blocked.
Context `{PyBuiltins}.

Lemma unit_body_blocked (E : env) (e : entity) (row : wm_row) (s : cycle_state) :
  blocked E e row ->
  etl_watermark (fst s) !! watermark_name e = Some row ->
  exists s' x, unit_body E e s = (s', Raise x) /\
    etl_watermark (fst s') = etl_watermark (fst s) /\ tables (fst s') = tables (fst s).
Proof.
  intros [Hread [rows [x [Hsrc Htr]]]] Hrow.
  rewrite unit_body_steps. unfold bindM at 1. unfold on_world at 1.
  unfold get_watermark. rewrite Hread. cbv zeta.
  match goal with |- context [etl_watermark ?w1 !! _] =>
    change (etl_watermark w1) with (etl_watermark (fst s)) end.
  rewrite Hrow. simpl fst. simpl snd.
  unfold bindM at 1. unfold on_world at 1. unfold extract. rewrite Hsrc.
  cbv zeta. simpl fst. simpl snd.
  unfold bindM at 1. unfold transform_and_load.
  destruct rows as [|r0 rows]; [destruct e; cbv in Htr; discriminate|].
  unfold bindM, lift. rewrite Htr. eexists. exists x. split; [reflexivity|].
  split; reflexivity.
Qed.

Lemma run_cycle_blocked (E : env) (e : entity) (row : wm_row) (w : world) :
  raises_only_Exceptions E -> blocked E e row ->
  etl_watermark w !! watermark_name e = Some row ->
  etl_watermark (fst (run_cycle E w)) !! watermark_name e = Some row /\
  tables (fst (run_cycle E w)) !! into (target_of e) = tables w !! into (target_of e).
Proof.
  intros HE Hblocked Hrow.
  destruct (cycle_around_unit E e w HE)
    as [s2 [total [Hunit [_ [_ [Hw1 [Ht1 [_ [Hw3 Ht3]]]]]]]]].
  apply etl_unit_cases in Hunit.
  destruct Hunit as [s1 [r1 [Hbody [_ [Hw2 [Ht2 _]]]]]].
  rewrite <- Hw1 in Hrow.
  destruct (unit_body_blocked E e row _ Hblocked Hrow) as [s1' [x [Hbody' [Hw Ht]]]].
  rewrite Hbody in Hbody'. injection Hbody' as <- ->.
  rewrite Hw3, Hw2, Hw, Ht3, Ht2, Ht. auto.
Qed.
End Blocked.

(** An entity type whose extraction keeps returning records its transform
    raises on makes no progress at all: after any number of cycles its
    watermark row is the row it started with and its table is as it was,
    so every cycle meets the same records again.  One node data record
    with a validation message is enough. *)
Theorem failing_transform_blocks_its_entity `{PyBuiltins}
    (run : list (env * option (N * exn))) (e : entity) (row : wm_row) (w : world) :
  etl_watermark w !! watermark_name e = Some row ->
  Forall (fun it => raises_only_Exceptions (fst it) /\ blocked (fst it) e row) run ->
  etl_watermark (fst (fst (main run w))) !! watermark_name e = Some row /\
  tables (fst (fst (main run w))) !! into (target_of e) = tables w !! into (target_of e).
Proof.
  intros Hrow Hrun.
  apply (main_invariant (fun E => raises_only_Exceptions E /\ blocked E e row)
           (fun w0 => etl_watermark w0 !! watermark_name e = Some row /\
                      tables w0 !! into (target_of e) = tables w !! into (target_of e))).
  - intros E w0 w1 r [HE Hblocked] [Hrow0 Htab0] Hcycle.
    destruct (run_cycle_blocked E e row w0 HE Hblocked Hrow0) as [Hrow1 Htab1].
    rewrite Hcycle in Hrow1, Htab1. simpl in *. split; congruence.
  - intros signal w0 HP. destruct (sleep signal w0) as [w1 st] eqn:Es.
    apply sleep_frame in Es. simpl. destruct Es as [_ [-> ->]]. exact HP.
  - intros w0 HP. exact HP.
  - exact Hrun.
  - auto.
Qed.

(** The source keeps returning the node data record whose validation
    failed. *)
Definition poisoned : env :=
  calm (fun e => match e with
                 | NodeData => Ok [failing_node_record]
                 | _ => Ok []
                 end).

Lemma poisoned_Exceptions : raises_only_Exceptions poisoned.
Proof. apply calm_raises_only_Exceptions. intros [] x; discriminate. Qed.

Lemma poisoned_blocked : @blocked decimal_builtins poisoned NodeData seeded_row.
Proof.
  split; [reflexivity|].
  exists [failing_node_record], (KeyError "validation_message").
  split; [reflexivity | vm_compute; reflexivity].
Qed.

(** Three cycles later the node data watermark is the seeded one and
    nothing is stored. *)
Lemma failing_transform_witness :
  etl_watermark
    (fst (fst (@main decimal_builtins
                 [(poisoned, None); (poisoned, None); (poisoned, None)] provisioned)))
    !! "public.fc_scenario_node_data" = Some seeded_row /\
  tables
    (fst (fst (@main decimal_builtins
                 [(poisoned, None); (poisoned, None); (poisoned, None)] provisioned)))
    !! "fact_node_input_history" = Some (mk_table [] 0).
Proof.
  apply (@failing_transform_blocks_its_entity decimal_builtins
           [(poisoned, None); (poisoned, None); (poisoned, None)] NodeData seeded_row
           provisioned).
  - reflexivity.
  - repeat constructor; first [apply poisoned_Exceptions | apply poisoned_blocked].
Defined.

(** ** db.py: what the pool keeps *)

(** The connections of a database that are handed out. *)
Definition out (db : database) (d : driver) : list conn :=
  match pool_of db d with
  | Some p => handed_out p
  | None => []
  end.

Definition link_kept {A : Type} (o : answer A) : bool :=
  match o with
  | Fails _ true => false
  | _ => true
  end.

(** A call of db.py, with what the servers do during it. *)
Inductive request : Type :=
  | QuerySource (up : database -> bool) (o : answer (list pydict))
  | ExecuteTarget (up : database -> bool) (o : answer unit).

Definition keeps_link (q : request) : bool :=
  match q with
  | QuerySource _ o => link_kept o
  | ExecuteTarget _ o => link_kept o
  end.

Definition serve (d : driver) (q : request) : driver :=
  match q with
  | QuerySource up o => fst (query_source up o d)
  | ExecuteTarget up o => fst (execute_target up o d)
  end.

(** A pool between two calls, while no link was lost: its one connection
    is at rest. *)
Definition pool_whole (p : pool) : Prop :=
  minconn p = 1%nat /\ maxconn p = 3%nat /\ handed_out p = [] /\ exists c, at_rest p = [c].

Definition pools_whole (d : driver) : Prop :=
  lost d = [] /\
  (forall db p, pool_of db d = Some p -> pool_whole p) /\
  opened d = (length (option_list (_source_pool d)) + length (option_list (_target_pool d)))%nat.

(** A body that leaves the pools alone and loses no link. *)
Definition quiet {A : Type} (body : conn -> M driver A) : Prop :=
  forall c d d' r, body c d = (d', r) ->
    _source_pool d' = _source_pool d /\ _target_pool d' = _target_pool d /\
    opened d' = opened d /\ (lost d = [] -> lost d' = []).

Lemma execute_quiet {A : Type} (o : answer A) : link_kept o = true -> quiet (execute o).
Proof.
  intros Ho c d d' r. unfold execute. destruct (is_lost c d); [now intros [= <- _]|].
  destruct o as [a|x []]; try discriminate; now intros [= <- _].
Qed.

Lemma commit_quiet (c : conn) (d d' : driver) (r : result unit) :
  commit c d = (d', r) ->
  _source_pool d' = _source_pool d /\ _target_pool d' = _target_pool d /\
  opened d' = opened d /\ (lost d = [] -> lost d' = []).
Proof.
  unfold commit. destruct (is_lost c d); now intros [= <- _].
Qed.

Lemma execute_commit_quiet (o : answer unit) :
  link_kept o = true -> quiet (fun c => _ <~ execute o c ;; commit c).
Proof.
  intros Ho c d d' r. unfold bindM.
  destruct (execute o c d) as [d1 [[]|x]] eqn:Eexec;
    apply (execute_quiet o Ho) in Eexec; destruct Eexec as [Hs [Ht [Hn Hl]]].
  - intros Hcommit. apply commit_quiet in Hcommit.
    destruct Hcommit as [Hs' [Ht' [Hn' Hl']]]. repeat split; try congruence. auto.
  - intros [= <- _]. auto.
Qed.

Lemma pools_whole_intro (sp tp : option pool) (n : nat) (cs : list call) :
  (forall p, sp = Some p -> pool_whole p) -> (forall p, tp = Some p -> pool_whole p) ->
  n = (length (option_list sp) + length (option_list tp))%nat ->
  pools_whole (mk_driver sp tp [] n cs).
Proof.
  intros Hsp Htp Hn. split; [reflexivity|]. split; [|exact Hn].
  intros [] p; simpl; auto.
Qed.

Lemma pool_whole_one (c : conn) : pool_whole (mk_pool 1 3 [c] []).
Proof. repeat split. now exists c. Qed.

(** The end of a call: the body has run on the one connection. *)
Ltac after_body Hbody :=
  match goal with
  | |- context [?body ?c ?d1] =>
      let d2 := fresh "d2" in let r := fresh "r" in let E := fresh "E" in
      destruct (body c d1) as [d2 r] eqn:E; apply Hbody in E;
      destruct d2 as [sp2 tp2 l2 n2 cs2]; simpl in E;
      destruct E as [-> [-> [-> Hl]]]; specialize (Hl eq_refl); subst l2;
      destruct r; cbn; rewrite ?Nat.eqb_refl; cbn;
      apply pools_whole_intro; simpl;
      try (intros ? [= <-]; apply pool_whole_one); auto
  end.

(** A call around a quiet body leaves the pools whole. *)
Lemma with_conn_whole {A : Type} (up : database -> bool) (db : database)
    (body : conn -> M driver A) (d : driver) :
  quiet body -> pools_whole d -> pools_whole (fst (with_conn up db body d)).
Proof.
  intros Hbody [Hlost [Hpools Hopened]].
  destruct d as [sp tp l n cs]. simpl in Hlost, Hopened. subst l.
  pose proof (Hpools SOURCE) as Hsp. pose proof (Hpools TARGET) as Htp.
  simpl in Hsp, Htp. clear Hpools.
  unfold with_conn, bindM, get_pool, PooledConnection_enter, getconn,
    PooledConnection_exit, bindM, SimpleConnectionPool, open_connections, bindM,
    connect, ret.
  destruct db; simpl pool_of.
  - destruct sp as [[mi ma rest outs]|].
    + destruct (Hsp _ eq_refl) as [Hmin [Hmax [Hout [c Hrest]]]]. simpl in *. subst.
      cbn. after_body Hbody.
    + simpl in *. subst. destruct (up SOURCE); [|now apply pools_whole_intro].
      cbn. after_body Hbody.
  - destruct tp as [[mi ma rest outs]|].
    + destruct (Htp _ eq_refl) as [Hmin [Hmax [Hout [c Hrest]]]]. simpl in *. subst.
      cbn. after_body Hbody.
    + simpl in *. subst. destruct (up TARGET); [|now apply pools_whole_intro].
      cbn. after_body Hbody; lia.
Qed.

Lemma serve_whole (d : driver) (q : request) :
  keeps_link q = true -> pools_whole d -> pools_whole (serve d q).
Proof.
  destruct q as [up o|up o]; simpl; intros Ho Hd.
  - apply with_conn_whole; [now apply execute_quiet | exact Hd].
  - apply with_conn_whole; [now apply execute_commit_quiet | exact Hd].
Qed.

Lemma pools_whole_out (d : driver) :
  pools_whole d ->
  lost d = [] /\ out SOURCE d = [] /\ out TARGET d = [] /\ (opened d <= 2)%nat.
Proof.
  intros [Hlost [Hpools Hopened]]. split; [exact Hlost|].
  unfold out. pose proof (Hpools SOURCE) as Hsp. pose proof (Hpools TARGET) as Htp.
  simpl in *. rewrite Hopened.
  destruct (_source_pool d) as [p|], (_target_pool d) as [q|]; simpl;
    repeat split; try lia;
    first [apply (Hsp p eq_refl) | apply (Htp q eq_refl)].
Qed.

(** While no statement loses its link to the server, db.py works with one
    connection to each database: after any number of calls of
    [query_source] and [execute_target], whether their statements
    answered or failed and whether the servers were reached, no connection
    is handed out, none is lost, and at most two were ever opened. *)
Theorem healthy_links_keep_one_connection (qs : list request) :
  forallb keeps_link qs = true ->
  lost (fold_left serve qs fresh_driver) = [] /\
  out SOURCE (fold_left serve qs fresh_driver) = [] /\
  out TARGET (fold_left serve qs fresh_driver) = [] /\
  (opened (fold_left serve qs fresh_driver) <= 2)%nat.
Proof.
  intros Hqs. apply pools_whole_out.
  assert (Hfresh : pools_whole fresh_driver).
  { apply pools_whole_intro; [discriminate | discriminate | reflexivity]. }
  revert Hqs Hfresh. generalize fresh_driver.
  induction qs as [|q qs IH]; simpl; intros d Hqs Hd; [exact Hd|].
  apply andb_true_iff in Hqs. destruct Hqs as [Hq Hqs].
  apply IH; [exact Hqs | now apply serve_whole].
Qed.

Definition always_up : database -> bool := fun _ => true.

(** A query, a failed statement, a write, a query while the source is
    down. *)
Lemma healthy_links_witness :
  out SOURCE
    (fold_left serve
       [ QuerySource always_up (Answers []);
         ExecuteTarget always_up (Fails (DatabaseError "row rejected") false);
         ExecuteTarget always_up (Answers tt);
         QuerySource (fun _ => false) (Answers []) ] fresh_driver) = [].
Proof.
  apply (healthy_links_keep_one_connection
           [ QuerySource always_up (Answers []);
             ExecuteTarget always_up (Fails (DatabaseError "row rejected") false);
             ExecuteTarget always_up (Answers tt);
             QuerySource (fun _ => false) (Answers []) ]).
  reflexivity.
Defined.

Ltac run_db :=
  unfold query_source, execute_target, with_conn, bindM, get_pool,
    PooledConnection_enter, getconn, PooledConnection_exit, bindM, putconn,
    rollback, commit, execute, SimpleConnectionPool, open_connections, bindM,
    connect, ret, is_lost, out, serve, called, lose, set_pool, without.

(** Between two calls that kept their link, each call of db.py asks for the
    pooled connection, runs its statement and gives the connection back;
    [query_source] never commits, [execute_target] commits after the
    statement and only when it answered; a failed statement is rolled back
    before the connection goes back, and its exception is the one the
    caller sees. *)
Theorem calls_on_the_pooled_connection (up : database -> bool) (d : driver)
    (c c' : conn) (rows : list pydict) (x : exn) :
  pools_whole d ->
  option_map at_rest (_source_pool d) = Some [c] ->
  option_map at_rest (_target_pool d) = Some [c'] ->
  (snd (query_source up (Answers rows) d) = Ok rows /\
   calls (fst (query_source up (Answers rows) d))
     = (calls d ++ [GetConn c; Execute c; PutConn c])%list) /\
  (snd (query_source up (Fails x false) d) = Raise x /\
   calls (fst (query_source up (Fails x false) d))
     = (calls d ++ [GetConn c; Execute c; Rollback c; PutConn c])%list) /\
  (snd (execute_target up (Answers tt) d) = Ok tt /\
   calls (fst (execute_target up (Answers tt) d))
     = (calls d ++ [GetConn c'; Execute c'; Commit c'; PutConn c'])%list) /\
  (snd (execute_target up (Fails x false) d) = Raise x /\
   calls (fst (execute_target up (Fails x false) d))
     = (calls d ++ [GetConn c'; Execute c'; Rollback c'; PutConn c'])%list).
Proof.
  intros [Hlost [Hpools _]] Hs Ht.
  destruct d as [[sp|] [tp|] l n cs]; try discriminate. simpl in Hlost. subst l.
  destruct (Hpools SOURCE sp eq_refl) as [Hmin [Hmax [Hout _]]].
  destruct (Hpools TARGET tp eq_refl) as [Hmin' [Hmax' [Hout' _]]].
  destruct sp as [mi ma r o], tp as [mi' ma' r' o']. simpl in *.
  injection Hs as ->. injection Ht as ->. subst.
  run_db. cbn. rewrite !Nat.eqb_refl. cbn. rewrite <- !app_assoc. simpl.
  repeat split.
Qed.

(** The driver after a first query and a first write. *)
Definition both_pools : driver :=
  mk_driver (Some (mk_pool 1 3 [0%nat] [])) (Some (mk_pool 1 3 [1%nat] [])) [] 2
    [ Connect SOURCE 0%nat; InfoPoolCreated SOURCE; GetConn 0%nat; Execute 0%nat;
      PutConn 0%nat;
      Connect TARGET 1%nat; InfoPoolCreated TARGET; GetConn 1%nat; Execute 1%nat;
      Commit 1%nat; PutConn 1%nat ].

Lemma both_pools_reached :
  both_pools
    = fst (execute_target always_up (Answers tt)
             (fst (query_source always_up (Answers []) fresh_driver))).
Proof. reflexivity. Qed.

Lemma calls_on_the_pooled_connection_witness :
  snd (query_source always_up (Fails (DatabaseError "syntax error") false) both_pools)
    = Raise (DatabaseError "syntax error").
Proof.
  apply (calls_on_the_pooled_connection always_up both_pools 0%nat 1%nat []
           (DatabaseError "syntax error")).
  - apply pools_whole_intro; simpl;
      [intros p [= <-]; apply pool_whole_one | intros p [= <-]; apply pool_whole_one
      | reflexivity].
  - reflexivity.
  - reflexivity.
Defined.

(** When a source query loses its link to the server, [__exit__] calls
    rollback on the dead connection, which raises; putconn is not reached.
    The caller sees the error of the rollback in place of the error of the
    query, and the connection stays handed out, never given back to its
    pool. *)
Theorem lost_link_is_never_given_back (up : database -> bool) (d : driver)
    (p : pool) (c : conn) (rest : list conn) (x : exn) :
  _source_pool d = Some p -> at_rest p = c :: rest -> is_lost c d = false ->
  snd (query_source up (Fails x true) d)
    = Raise (DatabaseError "connection already closed") /\
  out SOURCE (fst (query_source up (Fails x true) d)) = c :: handed_out p /\
  calls (fst (query_source up (Fails x true) d)) = (calls d ++ [GetConn c; Execute c])%list.
Proof.
  intros Hp Hrest Hc. destruct d as [sp tp l n cs]. simpl in Hp. subst sp.
  destruct p as [mi ma r o]. simpl in Hrest. subst r.
  unfold is_lost in Hc. simpl in Hc.
  run_db. cbn. rewrite Hc. cbn. rewrite Nat.eqb_refl. cbn.
  rewrite <- app_assoc. repeat split.
Qed.

Lemma lost_link_witness :
  snd (query_source always_up (Fails (DatabaseError "server closed the connection") true)
         both_pools)
    = Raise (DatabaseError "connection already closed").
Proof.
  apply (lost_link_is_never_given_back always_up both_pools (mk_pool 1 3 [0%nat] [])
           0%nat [] (DatabaseError "server closed the connection"));
    reflexivity.
Defined.

Definition lost_queries (up : database -> bool) (xs : list exn) : list request :=
  map (fun x => QuerySource up (Fails x true)) xs.

(** The first call creates the pool; the call goes on as if it had been
    there. *)
Lemma query_source_creates_pool (up : database -> bool) (o : answer (list pydict))
    (d : driver) :
  _source_pool d = None -> up SOURCE = true ->
  query_source up o d
    = query_source up o
        (mk_driver (Some (mk_pool 1 3 [opened d] [])) (_target_pool d) (lost d)
           (S (opened d)) (calls d ++ [Connect SOURCE (opened d); InfoPoolCreated SOURCE])).
Proof.
  intros Hp Hup. destruct d as [sp tp l n cs]. simpl in Hp. subst sp.
  unfold query_source, with_conn, bindM, get_pool, SimpleConnectionPool,
    open_connections, bindM, connect, ret. simpl. rewrite Hup. simpl.
  rewrite <- app_assoc. reflexivity.
Qed.

(** A query that loses its link leaves one more connection handed out. *)
Lemma lost_query_leaks (up : database -> bool) (d : driver) (p : pool) (x : exn) :
  _source_pool d = Some p -> up SOURCE = true ->
  (at_rest p = [] -> length (handed_out p) <> maxconn p) ->
  exists p', _source_pool (fst (query_source up (Fails x true) d)) = Some p' /\
    maxconn p' = maxconn p /\ at_rest p' = tl (at_rest p) /\
    length (handed_out p') = S (length (handed_out p)).
Proof.
  intros Hp Hup Hroom. destruct d as [sp tp l n cs]. simpl in Hp. subst sp.
  destruct p as [mi ma r o]. simpl in Hroom.
  unfold query_source, with_conn, bindM, get_pool, PooledConnection_enter, getconn,
    PooledConnection_exit, bindM, rollback, execute, connect, ret, is_lost.
  simpl. destruct r as [|c r].
  - apply Nat.eqb_neq in Hroom; [|reflexivity]. rewrite Hroom, Hup. simpl.
    destruct (existsb (Nat.eqb n) l) eqn:El; simpl.
    + rewrite El. simpl. eexists. repeat split.
    + rewrite Nat.eqb_refl. simpl. eexists. repeat split.
  - simpl. destruct (existsb (Nat.eqb c) l) eqn:El; simpl.
    + rewrite El. simpl. eexists. repeat split.
    + rewrite Nat.eqb_refl. simpl. eexists. repeat split.
Qed.

(** With nothing at rest and [maxconn] connections handed out, the call
    raises at getconn and changes nothing. *)
Lemma exhausted_pool_refuses (up : database -> bool) (o : answer (list pydict))
    (d : driver) (p : pool) :
  _source_pool d = Some p -> at_rest p = [] -> length (handed_out p) = maxconn p ->
  query_source up o d = (d, Raise (DatabaseError "connection pool exhausted")).
Proof.
  intros Hp Hrest Hfull.
  unfold query_source, with_conn, bindM, get_pool, PooledConnection_enter, getconn.
  simpl. rewrite Hp. simpl. rewrite Hp, Hrest. apply Nat.eqb_eq in Hfull.
  rewrite Hfull. reflexivity.
Qed.

(** Three source queries that lose their link use up the source pool: each
    leaves its connection handed out, and with the three of [maxconn] gone
    every later [query_source] raises PoolError before it reaches the
    server, whatever the server would answer, and changes nothing, so the
    pool never recovers. *)
Theorem three_lost_links_exhaust_the_pool (up : database -> bool) (d : driver)
    (x1 x2 x3 : exn) (up' : database -> bool) (o : answer (list pydict)) :
  pools_whole d -> up SOURCE = true ->
  query_source up' o (fold_left serve (lost_queries up [x1; x2; x3]) d)
    = (fold_left serve (lost_queries up [x1; x2; x3]) d,
       Raise (DatabaseError "connection pool exhausted")).
Proof.
  intros [_ [Hpools _]] Hup. simpl fold_left.
  assert (H1 : exists p1,
             _source_pool (fst (query_source up (Fails x1 true) d)) = Some p1 /\
             maxconn p1 = 3%nat /\ at_rest p1 = [] /\ length (handed_out p1) = 1%nat).
  { destruct (_source_pool d) as [p|] eqn:Hp.
    - destruct (Hpools SOURCE p Hp) as [_ [Hmax [Hout [c Hrest]]]].
      destruct (lost_query_leaks up d p x1 Hp Hup) as [p1 [E [Hm [Hr Hl]]]].
      { rewrite Hrest. discriminate. }
      exists p1. rewrite Hm, Hr, Hl, Hmax, Hrest, Hout. auto.
    - rewrite (query_source_creates_pool up _ d Hp Hup).
      match goal with
      | |- context [query_source up _ ?d'] =>
          destruct (lost_query_leaks up d' (mk_pool 1 3 [opened d] []) x1 eq_refl Hup)
            as [p1 [E [Hm [Hr Hl]]]]; [discriminate|]
      end.
      exists p1. split; [exact E|]. rewrite Hm, Hr, Hl. auto. }
  destruct H1 as [p1 [E1 [Hm1 [Hr1 Hl1]]]].
  destruct (lost_query_leaks up _ p1 x2 E1 Hup) as [p2 [E2 [Hm2 [Hr2 Hl2]]]].
  { intros _. lia. }
  destruct (lost_query_leaks up _ p2 x3 E2 Hup) as [p3 [E3 [Hm3 [Hr3 Hl3]]]].
  { intros _. lia. }
  apply (exhausted_pool_refuses up' o _ p3 E3).
  - rewrite Hr3, Hr2, Hr1. reflexivity.
  - lia.
Qed.

Lemma three_lost_links_witness :
  snd (query_source always_up (Answers [])
         (fold_left serve
            (lost_queries always_up [DatabaseError "a"; DatabaseError "b"; DatabaseError "c"])
            fresh_driver))
    = Raise (DatabaseError "connection pool exhausted").
Proof.
  rewrite (three_lost_links_exhaust_the_pool always_up fresh_driver
             (DatabaseError "a") (DatabaseError "b") (DatabaseError "c")
             always_up (Answers [])).
  - reflexivity.
  - apply pools_whole_intro; [discriminate | discriminate | reflexivity].
  - reflexivity.
Defined.

(** ** The edit counts of fact_run_summary *)

(** The two edit counts of a stored run, as setup_target.py declares
    them. *)
Definition edits_not_counted (row : pydict) : Prop :=
  dict_get row "node_edits_since_prev_run" = Some (VInt 0) /\
  dict_get row "event_edits_since_prev_run" = Some (VInt 0).

Lemma dict_get_combine_other (cols : list string) (t : list pyval) (c : string) :
  ~ In c cols -> dict_get (combine cols t) c = None.
Proof.
  revert t. induction cols as [|k cols IH]; intros [|v t] Hc; simpl; try reflexivity.
  destruct (String.eqb_spec k c) as [->|_]; [exfalso; apply Hc; now left|].
  apply IH. intros Hin. apply Hc. now right.
Qed.

Lemma insert_one_edits (ok : list pyval -> bool) (now : Z) (tb tb' : table)
    (wr wr' : list pyval) (t : list pyval) (r : result unit) :
  Forall edits_not_counted (trows tb) ->
  insert_one fact_run_summary ok now (tb, wr) t = ((tb', wr'), r) ->
  Forall edits_not_counted (trows tb').
Proof.
  intros Hinv. unfold insert_one.
  destruct (negb (ok t)); [now intros [= <- _ _]|].
  destruct (primary_key _ && is_none _); [now intros [= <- _ _]|].
  destruct (existsb _ (trows tb)).
  - cbn [action fact_run_summary].
    destruct (key_in _ wr); intros [= <- _ _]; [exact Hinv|]. simpl.
    apply do_update_Forall; [|exact Hinv]. intros row [Hnode Hevent].
    split; rewrite dict_get_set_col, dict_get_set_excluded; simpl;
      [exact Hnode | exact Hevent].
  - intros [= <- _ _]. simpl. apply Forall_app. split; [exact Hinv|].
    constructor; [|constructor].
    unfold edits_not_counted, new_row, proposed. cbn [serial_id fact_run_summary app].
    rewrite !dict_get_app.
    rewrite !dict_get_combine_other; [split; reflexivity | |];
      cbn [insert_columns fact_run_summary In];
      intros Hin; repeat (destruct Hin as [Hin|Hin]; [discriminate|]); exact Hin.
Qed.

(** The pipeline never counts edits: [load_runs] writes neither
    [node_edits_since_prev_run] nor [event_edits_since_prev_run], on a new
    run or on a run it updates, so while every stored run has both at the 0
    of the schema, every stored run still has after a load, whatever tuples
    it was given and whether it returns or raises. *)
Theorem edit_counts_stay_zero (E : env) (ts : list (list pyval)) (w w' : world)
    (tb : table) (r : result Z) :
  tables w !! "fact_run_summary" = Some tb ->
  Forall edits_not_counted (trows tb) ->
  load_runs E ts w = (w', r) ->
  exists tb', tables w' !! "fact_run_summary" = Some tb' /\
              Forall edits_not_counted (trows tb').
Proof.
  intros Htb Hinv Hload.
  apply (loader_keeps E Runs (Forall edits_not_counted) (fun _ => True) ts w w' tb r);
    auto.
  - intros now tb0 wr t tb' wr' r0 _ _ Hinv0 Hone.
    eapply insert_one_edits; eauto.
  - clear. induction ts; constructor; auto.
Qed.

Definition run_tuple : list pyval :=
  [ VStr "run-1"; VStr "scenario-1"; VStr "COMPLETED"; VNone; VStr "ana"; VNone; VNone;
    VNone; VInt 2; VInt 10; VInt 9; VInt 1; VInt 0 ].

(** A first run, loaded into the empty table. *)
Lemma edit_counts_witness :
  exists tb',
    tables (fst (load_runs nothing_new [run_tuple] provisioned)) !! "fact_run_summary"
      = Some tb' /\
    Forall edits_not_counted (trows tb').
Proof.
  apply (edit_counts_stay_zero nothing_new [run_tuple] provisioned
           (fst (load_runs nothing_new [run_tuple] provisioned))
           (mk_table [] 0) (Ok 1)).
  - reflexivity.
  - constructor.
  - vm_compute. reflexivity.
Defined.

(** ** pipeline.py: a cycle that finds nothing *)

(** Surroundings in which every extraction query answers no row and the
    watermark statements do not fail. *)
Definition idle (E : env) : Prop :=
  (forall e since, source E e since = Ok []) /\
  (forall e, fault E e OpReadWatermark = None) /\
  (forall e, fault E e OpUpdateWatermark = None).

(** The counters of the watermark rows fit their BIGINT column. *)
Definition totals_fit (w : world) : Prop :=
  forall name row, etl_watermark w !! name = Some row -> total_rows_ever row <= BIGINT_MAX.

(** What units that find nothing leave: the tables, the total and the
    counters as they were, and the rows they name stamped. *)
Definition idled (es : list entity) (s s' : cycle_state) : Prop :=
  tables (fst s') = tables (fst s) /\ snd s' = snd s /\ clock (fst s) <= clock (fst s') /\
  forall name,
    match etl_watermark (fst s) !! name with
    | None => etl_watermark (fst s') !! name = None
    | Some row =>
        (etl_watermark (fst s') !! name = Some row /\
         forall e, In e es -> watermark_name e <> name) \/
        exists t, clock (fst s) <= t <= clock (fst s') /\
          etl_watermark (fst s') !! name
          = Some (mk_wm t 0 (Some t) (total_rows_ever row))
    end.

Section IdleCycle.
Context `{PyBuiltins}.

Lemma idle_unit (E : env) (e : entity) (s : cycle_state) :
  idle E -> totals_fit (fst s) ->
  exists s', etl_unit E e s = (s', Ok tt) /\ idled [e] s s' /\ totals_fit (fst s').
Proof.
  intros [Hsource [Hread Hupdate]] Hfit. destruct s as [w total].
  unfold etl_unit, except_Exception, unit_body, try_block, bindM, on_world,
    get_watermark, extract, update_watermark, ret.
  simpl. rewrite Hread. simpl.
  assert (Hrows : forall since, source E e since = Ok []) by (intros; apply Hsource).
  destruct (etl_watermark w !! watermark_name e) as [row|] eqn:Erow; simpl;
    rewrite Hrows; simpl; rewrite Hupdate; simpl; rewrite Erow.
  - pose proof (Hfit _ _ Erow) as Hrow. simpl in Hrow.
    assert (Hle : (total_rows_ever row + 0 <=? BIGINT_MAX) = true)
      by (apply Z.leb_le; lia).
    change (Z.of_nat 0) with 0. rewrite Hle. simpl. eexists. split; [reflexivity|]. split.
    + repeat split; simpl; try lia. intros name.
      destruct (String.eqb_spec name (watermark_name e)) as [->|Hne].
      * rewrite Erow. right. eexists. split; [|rewrite lookup_insert_eq, Z.add_0_r; reflexivity].
        lia.
      * rewrite lookup_insert_ne by congruence.
        destruct (etl_watermark w !! name) as [row0|]; [|reflexivity].
        left. split; [reflexivity|]. intros e0 [<-|[]]. congruence.
    + intros name row0. simpl.
      destruct (String.eqb_spec name (watermark_name e)) as [->|Hne].
      * rewrite lookup_insert_eq. intros [= <-]. simpl. lia.
      * rewrite lookup_insert_ne by congruence. apply Hfit.
  - eexists. split; [reflexivity|]. split; [|exact Hfit].
    repeat split; simpl; try lia. intros name.
    destruct (etl_watermark w !! name) as [row0|] eqn:E0; [|reflexivity].
    left. split; [reflexivity|]. intros e0 [<-|[]]. congruence.
Qed.
Lemma idled_cons (e : entity) (es : list entity) (s s1 s2 : cycle_state) :
  idled [e] s s1 -> idled es s1 s2 -> idled (e :: es) s s2.
Proof.
  intros [Ht1 [Hn1 [Hc1 Hw1]]] [Ht2 [Hn2 [Hc2 Hw2]]].
  repeat split; [congruence | congruence | lia |].
  intros name. specialize (Hw1 name). specialize (Hw2 name).
  destruct (etl_watermark (fst s) !! name) as [row|].
  - destruct Hw1 as [[Hrow Hother] | [t [Ht Hrow]]]; rewrite Hrow in Hw2.
    + destruct Hw2 as [[Hrow2 Hother2] | [t [Ht Hrow2]]].
      * left. split; [exact Hrow2|]. intros e0 [<-|He0]; [apply Hother; now left | auto].
      * right. exists t. split; [lia | exact Hrow2].
    + destruct Hw2 as [[Hrow2 _] | [t2 [Ht2' Hrow2]]].
      * right. exists t. split; [lia | exact Hrow2].
      * right. exists t2. split; [lia | exact Hrow2].
  - now rewrite Hw1 in Hw2.
Qed.

Lemma idle_units (E : env) (es : list entity) (s : cycle_state) :
  idle E -> totals_fit (fst s) ->
  exists s', run_units E es finish s
             = ((logger (InfoCycleComplete (snd s)) (fst s'), snd s), Ok (snd s)) /\
             idled es s s'.
Proof.
  intros HE. revert s. induction es as [|e es IH]; intros s Hfit.
  - exists s. split; [reflexivity|]. repeat split; try lia. intros name.
    destruct (etl_watermark (fst s) !! name); [|reflexivity].
    left. split; [reflexivity|]. intros e [].
  - destruct (idle_unit E e s HE Hfit) as [s1 [Hunit [Hidled Hfit1]]].
    destruct (IH s1 Hfit1) as [s2 [Hrest Hidled2]].
    exists s2. split; [|eapply idled_cons; eauto].
    simpl. unfold bindM. rewrite Hunit, Hrest.
    destruct Hidled as [_ [-> _]]. reflexivity.
Qed.
End IdleCycle.

(** A cycle that finds nothing new in any source table returns 0 and
    writes no target table: no loader is called, so the target may even
    refuse every write.  It still moves the watermark of every entity
    that has a row: the row is stamped with the time of its update and a
    count of 0, and its running total is as it was. *)
Theorem idle_cycle_moves_only_the_watermarks `{PyBuiltins} (E : env) (w : world) :
  idle E -> totals_fit w ->
  exists w', run_cycle E w = (w', Ok 0) /\ tables w' = tables w /\
    forall e row, etl_watermark w !! watermark_name e = Some row ->
      exists t, clock w <= t <= clock w' /\
        etl_watermark w' !! watermark_name e
        = Some (mk_wm t 0 (Some t) (total_rows_ever row)).
Proof.
  intros HE Hfit. rewrite run_cycle_units.
  destruct (idle_units E all_entities (w, 0) HE Hfit) as [s' [-> [Ht [_ [Hc Hw]]]]].
  eexists. split; [reflexivity|]. split; [exact Ht|].
  intros e row Hrow. specialize (Hw (watermark_name e)). simpl in Hw, Hc.
  rewrite Hrow in Hw. destruct Hw as [[_ Hother] | Hstamped]; [|exact Hstamped].
  exfalso. apply (Hother e); [|reflexivity]. destruct e; simpl; tauto.
Qed.

Lemma nothing_new_idle : idle nothing_new.
Proof. repeat split. Qed.

Lemma provisioned_totals_fit : totals_fit provisioned.
Proof.
  intros name row Hrow. apply elem_of_list_to_map_2 in Hrow.
  repeat (apply elem_of_cons in Hrow as [[= _ ->]|Hrow]; [discriminate|]).
  inversion Hrow.
Qed.

(** The first cycle after setup_target.py, on a source with nothing in
    it. *)
Lemma idle_cycle_witness :
  exists w', @run_cycle decimal_builtins nothing_new provisioned = (w', Ok 0) /\
    tables w' = tables provisioned /\
    forall e row, etl_watermark provisioned !! watermark_name e = Some row ->
      exists t, clock provisioned <= t <= clock w' /\
        etl_watermark w' !! watermark_name e
        = Some (mk_wm t 0 (Some t) (total_rows_ever row)).
Proof.
  apply (@idle_cycle_moves_only_the_watermarks decimal_builtins nothing_new provisioned).
  - exact nothing_new_idle.
  - exact provisioned_totals_fit.
Defined.

(** ** setup_target.py and load.py: the tables of the loaders *)

(** What a loader needs of the table it writes. *)
Definition fits (T : target_table) (d : create_table) : Prop :=
  tname d = into T /\
  (* a new row has the declared columns, in their order *)
  (forall now id t, length t = length (insert_columns T) ->
     map fst (new_row T now id t) = map cname (columns d)) /\
  (* the conflict target is a key *)
  (exists col, find_column d (conflict_key T) = Some col /\ is_key col = true /\
               is_primary col = primary_key T) /\
  (* ON CONFLICT DO UPDATE sets declared columns *)
  (forall c, In c (updated_columns T) -> In c (map cname (columns d))) /\
  (* the serial is the column id *)
  (forall col, In col (columns d) -> is_serial col = true ->
     cname col = "id" /\ serial_id T = true) /\
  (* the columns left out take the defaults of the schema *)
  const_defaults T = defaults_left d (insert_columns T) /\
  now_defaults T = now_left d (insert_columns T) /\
  (* no NOT NULL column is left without a value *)
  (forall col, In col (columns d) -> not_null col = true ->
     In (cname col) (insert_columns T)).

Lemma map_fst_new_row (T : target_table) (now id : Z) (t : list pyval) :
  length t = length (insert_columns T) ->
  map fst (new_row T now id t)
  = ((if serial_id T then ["id"] else []) ++ insert_columns T
       ++ map fst (const_defaults T) ++ now_defaults T)%list.
Proof.
  intros Hlen. unfold new_row, proposed.
  rewrite !map_app, map_fst_combine by exact Hlen.
  rewrite map_map. simpl. rewrite map_id.
  now destruct (serial_id T).
Qed.

(** setup_target.py and load.py agree on the six tables: each loader's
    table is created by [SCHEMA_SQL] with exactly the columns of the rows
    the loader stores, in the same order; the column of its ON CONFLICT is
    the PRIMARY KEY or UNIQUE; the columns it sets on a conflict exist; the
    columns it leaves out are those with a default, and every NOT NULL
    column is among the ones it inserts. *)
Theorem schema_declares_what_the_loaders_write (e : entity) :
  exists d, find_table (into (target_of e)) = Some d /\ fits (target_of e) d.
Proof.
  destruct e; (eexists; split; [reflexivity|]);
    (split; [reflexivity|]);
    (split; [intros now id t Hlen; rewrite (map_fst_new_row _ now id t Hlen); reflexivity|]);
    (split; [eexists; split; [reflexivity|split; reflexivity]|]);
    (split; [intros c Hc; cbn in Hc |- *; tauto|]);
    (split; [intros col Hcol Hs; cbn in Hcol;
             repeat (destruct Hcol as [<-|Hcol]; [try discriminate Hs; split; reflexivity|]);
             destruct Hcol|]);
    (split; [reflexivity|]); (split; [reflexivity|]);
    intros col Hcol Hn; cbn in Hcol;
    repeat (destruct Hcol as [<-|Hcol]; [try discriminate Hn; cbn; tauto|]);
    destruct Hcol.
Qed.

(** ** setup_target.py: [setup] run and run again *)

Lemma fold_seed_lookup (names : list string) (wm : gmap string wm_row) (n : string) :
  fold_left seed names wm !! n
  = match wm !! n with
    | Some r => Some r
    | None => if str_in n names then Some (mk_wm datetime_2020_1_1 0 None 0) else None
    end.
Proof.
  revert wm. induction names as [|a names IH]; intros wm; simpl.
  - now destruct (wm !! n).
  - rewrite IH. unfold seed, str_in. simpl.
    destruct (String.eqb_spec n a) as [->|Hne]; simpl.
    + destruct (wm !! a) eqn:Ea; [now rewrite Ea|]. now rewrite lookup_insert_eq.
    + destruct (wm !! a) eqn:Ea; [reflexivity|].
      rewrite lookup_insert_ne by congruence. reflexivity.
Qed.

Lemma fold_create_lookup (ds : list create_table) (ts : gmap string table) (n : string) :
  fold_left create_if_not_exists ds ts !! n
  = match ts !! n with
    | Some tb => Some tb
    | None => if str_in n (map tname ds) then Some (mk_table [] 0) else None
    end.
Proof.
  revert ts. induction ds as [|d ds IH]; intros ts; simpl.
  - now destruct (ts !! n).
  - rewrite IH. unfold create_if_not_exists, str_in. simpl.
    destruct (String.eqb_spec n (tname d)) as [->|Hne]; simpl.
    + destruct (ts !! tname d) eqn:Ea; [now rewrite Ea|]. now rewrite lookup_insert_eq.
    + destruct (ts !! tname d) eqn:Ea; [reflexivity|].
      rewrite lookup_insert_ne by congruence. reflexivity.
Qed.

(** The schema, run a second time, changes nothing. *)
Lemma run_schema_twice (w : world) : run_schema (run_schema w) = run_schema w.
Proof.
  unfold run_schema. cbn [clock etl_watermark tables trace log]. f_equal.
  - apply map_eq. intros n. rewrite fold_seed_lookup.
    destruct (fold_left seed WATERMARK_SEED (etl_watermark w) !! n) eqn:E; [reflexivity|].
    rewrite fold_seed_lookup in E.
    destruct (etl_watermark w !! n); [discriminate|].
    destruct (str_in n WATERMARK_SEED); [discriminate | reflexivity].
  - apply map_eq. intros n. rewrite fold_create_lookup.
    destruct (fold_left create_if_not_exists data_tables (tables w) !! n) eqn:E;
      [reflexivity|].
    rewrite fold_create_lookup in E.
    destruct (tables w !! n); [discriminate|].
    destruct (str_in n (map tname data_tables)); [discriminate | reflexivity].
Qed.

(** The target after [setup]: as it was, or with the schema run. *)
Lemma setup_target_cases (faults : setup_op -> option exn) (s : setup_state) :
  (fst (fst (setup faults s)) = fst s /\
   (snd (setup faults s) = Ok tt -> False)) \/
  (fst (fst (setup faults s)) = run_schema (fst s) /\
   faults SetupConnect = None /\ faults SetupExecute = None /\ faults SetupCommit = None /\
   (faults SetupClose = None -> snd (setup faults s) = Ok tt)).
Proof.
  unfold setup, setup_finally, setup_except, setup_try, bindM, attempt.
  destruct (faults SetupConnect) as [x|] eqn:Econnect; [left; split; [reflexivity | discriminate]|].
  destruct (faults SetupExecute) as [x|] eqn:Eexecute.
  { left. destruct (is_Exception x), (faults SetupRollback), (faults SetupClose);
      simpl; split; try reflexivity; discriminate. }
  destruct (faults SetupCommit) as [x|] eqn:Ecommit.
  { left. destruct (is_Exception x), (faults SetupRollback), (faults SetupClose);
      simpl; split; try reflexivity; discriminate. }
  right. destruct (faults SetupClose); simpl; repeat split; try reflexivity; discriminate.
Qed.

(** setup_target.py can be run again on a target that is in use: whatever
    fails or not, every watermark row and every table that was there is
    as it was, so no progress is reset and no loaded row dropped; and
    once a setup has returned, a later one changes neither the watermarks
    nor the tables. *)
Theorem setup_is_safe_to_rerun (faults faults' : setup_op -> option exn) (s : setup_state) :
  (forall name row, etl_watermark (fst s) !! name = Some row ->
     etl_watermark (fst (fst (setup faults s))) !! name = Some row) /\
  (forall name tb, tables (fst s) !! name = Some tb ->
     tables (fst (fst (setup faults s))) !! name = Some tb) /\
  (snd (setup faults s) = Ok tt ->
   etl_watermark (fst (fst (setup faults' (fst (setup faults s)))))
   = etl_watermark (fst (fst (setup faults s))) /\
   tables (fst (fst (setup faults' (fst (setup faults s)))))
   = tables (fst (fst (setup faults s)))).
Proof.
  split; [|split].
  - intros name row Hrow.
    destruct (setup_target_cases faults s) as [[-> _] | [-> _]]; [exact Hrow|].
    unfold run_schema. cbn [etl_watermark]. now rewrite fold_seed_lookup, Hrow.
  - intros name tb Htb.
    destruct (setup_target_cases faults s) as [[-> _] | [-> _]]; [exact Htb|].
    unfold run_schema. cbn [tables]. now rewrite fold_create_lookup, Htb.
  - intros Hok.
    destruct (setup_target_cases faults s) as [[_ Hno] | [Hfirst _]]; [now destruct Hno|].
    destruct (setup_target_cases faults' (fst (setup faults s))) as [[-> _] | [-> _]];
      [split; reflexivity|].
    rewrite Hfirst, run_schema_twice. split; reflexivity.
Qed.

(** When [setup] returns, the target has what the pipeline asks for: a
    watermark row under the name each cycle step reads and updates, and
    the table each loader inserts into.  On a target that was empty, the
    watermark rows are the seven seeded ones at 2020-01-01 and the six
    tables are empty. *)
Theorem setup_provides_what_the_pipeline_names (faults : setup_op -> option exn)
    (s : setup_state) :
  snd (setup faults s) = Ok tt ->
  (forall e,
     is_Some (etl_watermark (fst (fst (setup faults s))) !! watermark_name e) /\
     is_Some (tables (fst (fst (setup faults s))) !! into (target_of e))) /\
  (etl_watermark (fst s) = ∅ -> tables (fst s) = ∅ ->
   etl_watermark (fst (fst (setup faults s))) = etl_watermark provisioned /\
   tables (fst (fst (setup faults s))) = tables provisioned).
Proof.
  intros Hok.
  destruct (setup_target_cases faults s) as [[_ Hno] | [-> _]]; [now destruct Hno|].
  unfold run_schema. cbn [etl_watermark tables]. split.
  - intros e. rewrite fold_seed_lookup, fold_create_lookup. split.
    + destruct (etl_watermark (fst s) !! watermark_name e); [eauto|].
      destruct e; simpl; eauto.
    + destruct (tables (fst s) !! into (target_of e)); [eauto|].
      destruct e; simpl; eauto.
  - intros -> ->. split; reflexivity.
Qed.

(** The first setup, on an empty target at noon of 2024-01-01. *)
Definition empty_target : setup_state := (mk_world (seconds 1704110400) ∅ ∅ [] [], []).

Lemma setup_provides_witness :
  etl_watermark (fst (fst (setup no_fault empty_target))) = etl_watermark provisioned /\
  tables (fst (fst (setup no_fault empty_target))) = tables provisioned.
Proof.
  apply (setup_provides_what_the_pipeline_names no_fault empty_target eq_refl);
    reflexivity.
Defined.

(** [setup] is all or nothing: when it raises and closing the connection
    did not fail, the target is as it was, whether the connection, the
    schema statement or the commit failed; and whenever the connection was
    opened, closing it is the last thing [setup] does. *)
Theorem failed_setup_changes_nothing (faults : setup_op -> option exn)
    (s s' : setup_state) (x : exn) :
  setup faults s = (s', Raise x) -> faults SetupClose = None ->
  fst s' = fst s /\
  (faults SetupConnect = None ->
   exists pre, snd s' = (pre ++ [Called SetupClose])%list).
Proof.
  intros Hrun Hclose. split.
  - destruct (setup_target_cases faults s) as [[Hsame _] | [_ [_ [_ [_ Hok]]]]].
    + now rewrite Hrun in Hsame.
    + rewrite Hrun in Hok. now specialize (Hok Hclose).
  - intros Hconnect. revert Hrun.
    unfold setup, setup_finally, setup_except, setup_try, bindM, attempt.
    rewrite Hconnect.
    destruct (faults SetupExecute) as [y|].
    + destruct (is_Exception y); [destruct (faults SetupRollback)|];
        rewrite Hclose; intros [= <- _]; simpl; eauto.
    + destruct (faults SetupCommit) as [y|].
      * destruct (is_Exception y); [destruct (faults SetupRollback)|];
          rewrite Hclose; intros [= <- _]; simpl; eauto.
      * rewrite Hclose. discriminate.
Qed.

(** The target refuses the commit. *)
Definition commit_refused : setup_op -> option exn :=
  fun o =>
    match o with
    | SetupCommit => Some (DatabaseError "could not commit")
    | _ => None
    end.

Lemma failed_setup_witness :
  fst (fst (setup commit_refused empty_target)) = fst empty_target.
Proof.
  apply (failed_setup_changes_nothing commit_refused empty_target
           (fst (setup commit_refused empty_target))
           (DatabaseError "could not commit")); reflexivity.
Defined.

(** ** transform.py: the transforms without a payload, element by element *)

(** The record has every key the tuple display subscripts. *)
Definition has_items (fs : list field) (r : pydict) : bool :=
  forallb (fun k => str_in k (map fst r)) (items fs).

Lemma has_items_cons (f : field) (fs : list field) (r : pydict) :
  has_items (f :: fs) r = true -> has_items fs r = true.
Proof.
  unfold has_items. destruct f; simpl; try tauto.
  intros Hr. apply andb_true_iff in Hr. tauto.
Qed.

Lemma tuple_of_has_items (fs : list field) (r : pydict) :
  has_items fs r = true -> tuple_of fs r = Ok (map (field_value r) fs).
Proof.
  induction fs as [|f fs IH]; intros Hr; [reflexivity|].
  simpl. rewrite (IH (has_items_cons f fs r Hr)).
  destruct f as [k|k|k]; simpl; try reflexivity.
  unfold has_items in Hr. simpl in Hr. apply andb_true_iff in Hr. destruct Hr as [Hk _].
  apply str_in_In in Hk. unfold getitem, get.
  destruct (dict_get_Some r k Hk) as [v ->]. reflexivity.
Qed.

Lemma for_each_has_items (fs : list field) (rows : list pydict) :
  Forall (fun r => has_items fs r = true) rows ->
  for_each (tuple_of fs) rows = Ok (map (fun r => map (field_value r) fs) rows).
Proof.
  induction 1 as [|r rows Hr _ IH]; [reflexivity|].
  simpl. now rewrite (tuple_of_has_items fs r Hr), IH.
Qed.

(** A record that lacks a key the display subscripts makes it raise. *)
Lemma tuple_of_missing_item (fs : list field) (r : pydict) :
  has_items fs r = false ->
  exists k, In k (items fs) /\ ~ In k (map fst r) /\ tuple_of fs r = Raise (KeyError k).
Proof.
  induction fs as [|f fs IH]; intros Hr; [discriminate|].
  destruct f as [k|k|k]; simpl.
  - unfold has_items in Hr. simpl in Hr. apply andb_false_iff in Hr.
    unfold getitem. destruct (dict_get r k) as [v|] eqn:Ek.
    + cbn [bind]. destruct Hr as [Hk|Hrest].
      * apply str_in_false in Hk. destruct Hk. eapply dict_get_In, Ek.
      * destruct (IH Hrest) as [k' [Hk' [Hno E]]].
        exists k'. split; [now right|]. split; [exact Hno|]. now rewrite E.
    + exists k. split; [now left|]. split; [|reflexivity].
      intros Hk. destruct (dict_get_Some r k Hk) as [v Ev]. congruence.
  - destruct (IH Hr) as [k' [Hk' [Hno E]]]. exists k'. split; [exact Hk'|].
    split; [exact Hno|]. now rewrite E.
  - destruct (IH Hr) as [k' [Hk' [Hno E]]]. exists k'. split; [exact Hk'|].
    split; [exact Hno|]. now rewrite E.
Qed.

Lemma for_each_missing_item (fs : list field) (rows : list pydict) :
  forallb (has_items fs) rows = false ->
  exists k, In k (items fs) /\ for_each (tuple_of fs) rows = Raise (KeyError k).
Proof.
  induction rows as [|r rows IH]; simpl; [discriminate|].
  destruct (has_items fs r) eqn:Hr; simpl.
  - intros Hrest. destruct (IH Hrest) as [k [Hk E]]. exists k. split; [exact Hk|].
    now rewrite (tuple_of_has_items fs r Hr), E.
  - intros _. destruct (tuple_of_missing_item fs r Hr) as [k [Hk [_ E]]].
    exists k. split; [exact Hk|]. now rewrite E.
Qed.

(** The four transforms without a payload never drop a record.  On a
    batch whose records all have the keys the tuple display subscripts
    (for [transform_runs]: run_id and scenario_id), the transform returns
    one tuple per record, in order, and the tuple holds, field by field,
    the record's value: an optional field ([r.get]) that the record lacks
    is None, and a count ([r.get(...) or 0]) that is missing, None or 0 is
    0.  A batch with a record that lacks a subscripted key makes the
    transform raise KeyError for such a key, and no tuple is returned. *)
Theorem plain_transforms_keep_every_record (rows : list pydict) :
  (forallb (has_items scenario_fields) rows = true ->
   transform_scenarios rows
   = Ok (map (fun r => map (field_value r) scenario_fields) rows)) /\
  (forallb (has_items run_fields) rows = true ->
   transform_runs rows = Ok (map (fun r => map (field_value r) run_fields) rows)) /\
  (forallb (has_items node_calc_fields) rows = true ->
   transform_node_calc rows
   = Ok (map (fun r => map (field_value r) node_calc_fields) rows)) /\
  (forallb (has_items timeline_fields) rows = true ->
   transform_timeline rows
   = Ok (map (fun r => map (field_value r) timeline_fields) rows)) /\
  (forallb (has_items scenario_fields) rows = false ->
   exists k, In k (items scenario_fields) /\ transform_scenarios rows = Raise (KeyError k)) /\
  (forallb (has_items run_fields) rows = false ->
   exists k, In k (items run_fields) /\ transform_runs rows = Raise (KeyError k)) /\
  (forallb (has_items node_calc_fields) rows = false ->
   exists k, In k (items node_calc_fields) /\
             transform_node_calc rows = Raise (KeyError k)) /\
  (forallb (has_items timeline_fields) rows = false ->
   exists k, In k (items timeline_fields) /\ transform_timeline rows = Raise (KeyError k)) /\
  items scenario_fields
  = [ "id"; "scenario_display_name"; "status"; "is_starter"; "currency"; "currency_code";
      "scenario_start_year"; "scenario_end_year"; "created_at"; "created_by"; "model_id";
      "model_display_name"; "therapeutic_area_name"; "disease_area_name" ] /\
  items run_fields = ["run_id"; "scenario_id"] /\
  items node_calc_fields = ["id"; "run_id"; "scenario_id"] /\
  items timeline_fields = ["scenario_id"; "event_time"; "event_type"] /\
  (forall r k, ~ In k (map fst r) ->
     field_value r (Get k) = VNone /\ field_value r (GetOr0 k) = VInt 0) /\
  (forall r k v, dict_get r k = Some v ->
     field_value r (Item k) = v /\ field_value r (Get k) = v /\
     field_value r (GetOr0 k) = (if truthy v then v else VInt 0)).
Proof.
  assert (Hall : forall fs, forallb (has_items fs) rows = true ->
            for_each (tuple_of fs) rows = Ok (map (fun r => map (field_value r) fs) rows)).
  { intros fs Hrows. apply for_each_has_items. apply Forall_forall. intros r Hr.
    rewrite forallb_forall in Hrows. apply Hrows, list_elem_of_In, Hr. }
  repeat (split; [first [apply Hall | apply for_each_missing_item | reflexivity]|]).
  split.
  - intros r k Hk. simpl. unfold get. rewrite (dict_get_None r k Hk). split; reflexivity.
  - intros r k v Hv. simpl. unfold get. rewrite Hv. repeat split.
Qed.

(** A timeline event that has only its three subscripted fields. *)
Definition bare_event : pydict :=
  [ ("scenario_id", VStr "s-1"); ("event_time", VInt 1700000000000000);
    ("event_type", VStr "run_started") ].

Lemma plain_transforms_keep_witness :
  transform_timeline [timeline_record; bare_event]
  = Ok [ map (field_value timeline_record) timeline_fields;
         [ VStr "s-1"; VInt 1700000000000000; VStr "run_started";
           VNone; VNone; VNone; VNone; VNone; VNone; VNone ] ].
Proof.
  destruct (plain_transforms_keep_every_record [timeline_record; bare_event])
    as [_ [_ [_ [Htimeline _]]]].
  apply Htimeline. reflexivity.
Defined.

(** ** scheduler.py: an interrupt that arrives while a cycle runs *)

(** The surroundings [E], but for a KeyboardInterrupt that arrives while
    the unit of [e] reads its watermark. *)
Definition interrupt_at (e : entity) (E : env) : env :=
  mk_env (source E)
    (fun e' o =>
       match o with
       | OpReadWatermark =>
           if entity_eqb e' e then Some KeyboardInterrupt else fault E e' o
       | _ => fault E e' o
       end)
    (accepts E) (latency E).

Section InterruptedCycle.
Context `{PyBuiltins}.

(** The units of the other entity types meet the surroundings they
    would meet without the interrupt. *)
Lemma etl_unit_not_interrupted (E : env) (e e' : entity) (s : cycle_state) :
  e' <> e -> etl_unit (interrupt_at e E) e' s = etl_unit E e' s.
Proof.
  intros Hne.
  assert (Heqb : entity_eqb e' e = false).
  { destruct (entity_eqb e' e) eqn:Heq; [|reflexivity]. now apply entity_eqb_eq in Heq. }
  unfold etl_unit, unit_body, try_block, get_watermark. simpl fault. rewrite Heqb.
  destruct e'; reflexivity.
Qed.

Lemma run_units_not_interrupted {A : Type} (E : env) (e : entity) (es : list entity)
    (k k' : M cycle_state A) (s : cycle_state) :
  ~ In e es -> (forall s0, k s0 = k' s0) ->
  run_units (interrupt_at e E) es k s = run_units E es k' s.
Proof.
  intros Hin Hk. revert s. induction es as [|e' es IH]; intros s; [apply Hk|].
  simpl. unfold bindM. rewrite etl_unit_not_interrupted.
  - destruct (etl_unit E e' s) as [s1 [[]|x]]; [|reflexivity].
    apply IH. intros Hes. apply Hin. now right.
  - intros ->. apply Hin. now left.
Qed.

(** The interrupted unit stops at its first statement and passes the
    interrupt on. *)
Lemma etl_unit_interrupted (E : env) (e : entity) (s : cycle_state) :
  exists w1, etl_unit (interrupt_at e E) e s = ((w1, snd s), Raise KeyboardInterrupt) /\
    etl_watermark w1 = etl_watermark (fst s) /\ tables w1 = tables (fst s) /\
    log w1 = log (fst s).
Proof.
  assert (Heqb : entity_eqb e e = true) by now apply entity_eqb_eq.
  unfold etl_unit, except_Exception, unit_body, try_block, bindM, on_world, get_watermark.
  simpl fault. rewrite Heqb. simpl. eexists. repeat split.
Qed.

Lemma later_units_not_before (e e' : entity) :
  In e' (e :: units_after e) -> ~ In e' (units_before e).
Proof.
  destruct e, e'; simpl; intuition discriminate.
Qed.
End InterruptedCycle.

(** A KeyboardInterrupt that arrives while a cycle runs, at the start of
    the unit of any entity type, is not caught by the [except Exception]
    of the unit: it leaves [run_cycle], [main] logs that it was stopped by
    the user and exits with status 0, without sleeping and whatever
    cycles would have followed.  The units before the interrupted one have
    done their work; the interrupted unit and the units after it have
    written nothing: their watermark rows and tables are as the cycle
    found them. *)
Theorem interrupt_in_a_unit_stops_main `{PyBuiltins} (E : env) (e : entity)
    (signal : option (N * exn)) (rest : list (env * option (N * exn))) (w : world) :
  raises_only_Exceptions E ->
  exists w',
    main ((interrupt_at e E, signal) :: rest) w = (w', 0, Exited 0) /\
    exit_status (snd (main ((interrupt_at e E, signal) :: rest) w)) = Some 0 /\
    log w' = (log (fst (state_before E e w)) ++ [InfoStoppedByUser])%list /\
    trace w' = (trace (fst (state_before E e w))
                  ++ [TargetConnect "direct"; SelectWatermark (watermark_name e)])%list /\
    etl_watermark w' = etl_watermark (fst (state_before E e w)) /\
    tables w' = tables (fst (state_before E e w)) /\
    (forall e', In e' (e :: units_after e) ->
       etl_watermark w' !! watermark_name e' = etl_watermark w !! watermark_name e' /\
       tables w' !! into (target_of e') = tables w !! into (target_of e')).
Proof.
  intros HE. unfold state_before.
  destruct (run_units_returns E (units_before e) (w, 0) HE) as [s1 Hbefore].
  rewrite Hbefore. simpl fst.
  assert (Heqb : entity_eqb e e = true) by now apply entity_eqb_eq.
  assert (Hcycle : run_cycle (interrupt_at e E) w
                   = (tick (latency E e)
                        (emit (SelectWatermark (watermark_name e))
                           (emit (TargetConnect "direct") (fst s1))),
                      Raise KeyboardInterrupt)).
  { rewrite run_cycle_units, (all_entities_split e), run_units_app.
    rewrite (run_units_not_interrupted E e (units_before e) _
               (run_units (interrupt_at e E) (e :: units_after e) finish) (w, 0)
               (not_before_itself e) (fun _ => eq_refl)).
    rewrite run_units_then, Hbefore.
    cbn [run_units]. unfold bindM at 1.
    unfold etl_unit, except_Exception, unit_body, try_block, bindM, on_world, get_watermark.
    simpl fault. rewrite Heqb. reflexivity. }
  eexists. split; [|split; [|split; [|split; [|split; [|split]]]]].
  - unfold main. cbn [map loop fst snd]. unfold iteration. rewrite Hcycle. reflexivity.
  - unfold main. cbn [map loop fst snd]. unfold iteration. rewrite Hcycle. reflexivity.
  - reflexivity.
  - simpl. now rewrite <- app_assoc.
  - reflexivity.
  - reflexivity.
  - intros e' He'. simpl.
    destruct (run_units_others E e' (units_before e) (w, 0) s1 (Ok tt)
                (later_units_not_before e e' He') Hbefore) as [_ [Hwm Htables]].
    split; [exact Hwm | exact Htables].
Qed.

(** The interrupt arrives when the unit of the runs starts, in the first
    cycle after setup_target.py. *)
Lemma interrupt_in_a_unit_witness :
  exists w',
    @main decimal_builtins [(interrupt_at Runs nothing_new, None)] provisioned
    = (w', 0, Exited 0).
Proof.
  destruct (@interrupt_in_a_unit_stops_main decimal_builtins nothing_new Runs None []
              provisioned nothing_new_Exceptions) as [w' [Hmain _]].
  exists w'. exact Hmain.
Defined.
